(** * local-ffmpeg: the Linux and macOS platform handlers

    A shallow embedding of [src/local_ffmpeg/__platform/__linux.py] and
    [src/local_ffmpeg/__platform/__osx.py], and the properties of the four
    operations both handlers expose: [get_download_url], [install],
    [uninstall] and [check_installed].

    Modelling choices.
    - Python [str] values are Rocq strings; [platform.machine()] is the
      argument [machine] of [get_download_url].  [str.lower] is modelled on
      ASCII letters, where it agrees with Python.
    - Exceptions are values of [exn] (a class and a message); a computation
      is a function from a state to an [outcome] and the state it leaves
      behind, so that what a failed call has already done stays visible.
    - [check_installed] runs against a [host]: the answers of
      [os.path.exists], [os.access(_, X_OK)] and [subprocess.run] on that
      machine.  It leaves a trace of the lines it prints and of the commands
      it runs.  [subprocess.run] ends with a return code, with
      [TimeoutExpired] or with an [OSError].
    - [install] and [uninstall] run against a file system: a finite map from
      resolved paths (absolute and normalised: the list of their components)
      to a regular file or a directory.  On resolved paths [os.path.join]
      appends components and [os.path.dirname] drops the last one.  The
      modules [Linux] and [MacOS] hold the handlers on resolved paths.
    - What a caller passes is a path name, absolute or relative to the
      working directory.  The modules [LinuxHandler] and [MacOSHandler] hold
      [install] and [uninstall] on path names: they differ from the handlers
      on resolved paths where the code hands the empty name to the operating
      system, which happens with a bare file name as [download_path]
      ([os.path.dirname] is then the empty name) and with an empty
      [install_path].  Path names with [.], [..] or empty components are
      not modelled.
    - The names of the members of an archive are strings as the archive
      holds them.  [zipfile] drops their [.] and [..]; [tarfile] hands them
      to the operating system, which resolves them component by component
      ([extractall] as in Python 3.11, without an extraction filter).
    - Symbolic links, the modes of directories, members of an archive that
      are neither regular files nor directories, and the lines [install]
      prints are not modelled. *)

From Stdlib Require Import ZArith Ascii String List Lia Bool.
From stdpp Require Import base option list strings gmap pretty.

Open Scope Z_scope.

(** ** Python strings *)

Module Str.

Fixpoint startswith (s p : string) {struct p} : bool :=
  match p, s with
  | EmptyString, _ => true
  | String a p', String b s' => if Ascii.eqb a b then startswith s' p' else false
  | String _ _, EmptyString => false
  end.

(** [needle in hay] *)
Fixpoint contains (needle hay : string) : bool :=
  startswith hay needle ||
  match hay with
  | EmptyString => false
  | String _ hay' => contains needle hay'
  end.

Definition endswith (s p : string) : bool :=
  startswith (String.rev s) (String.rev p).

Definition lower_ascii (c : ascii) : ascii :=
  let n := N_of_ascii c in
  if ((65 <=? n) && (n <=? 90))%N then ascii_of_N (n + 32) else c.

Fixpoint lower (s : string) : string :=
  match s with
  | EmptyString => EmptyString
  | String c s' => String (lower_ascii c) (lower s')
  end.

(** [sep.join(l)] *)
Fixpoint join (sep : string) (l : list string) : string :=
  match l with
  | [] => ""
  | [x] => x
  | x :: l' => x +:+ sep +:+ join sep l'
  end.

(** [s.split(sep)] for a one-character separator *)
Fixpoint split (sep : ascii) (s : string) : list string :=
  match s with
  | EmptyString => [""]
  | String c s' =>
      if Ascii.eqb c sep then "" :: split sep s'
      else match split sep s' with
           | [] => [String c ""]
           | w :: ws => String c w :: ws
           end
  end.

End Str.

(** ** Exceptions and outcomes *)

Inductive exn_class :=
| Exception
| RuntimeError | RecursionError
| ValueError
| OSError | FileNotFoundError | FileExistsError | IsADirectoryError
| NotADirectoryError | PermissionError | ShutilError
| SubprocessError | TimeoutExpired
| TarReadError | BadZipFile.

Global Instance exn_class_eq_dec : EqDecision exn_class.
Proof. solve_decision. Defined.

(** The direct base class, as Python declares it. *)
Definition base_class (c : exn_class) : option exn_class :=
  match c with
  | Exception => None
  | RuntimeError | ValueError | OSError | SubprocessError
  | TarReadError | BadZipFile => Some Exception
  | RecursionError => Some RuntimeError
  | FileNotFoundError | FileExistsError | IsADirectoryError
  | NotADirectoryError | PermissionError | ShutilError => Some OSError
  | TimeoutExpired => Some SubprocessError
  end.

Definition issubclass (c d : exn_class) : bool :=
  bool_decide (c = d)
  || match base_class c with
     | None => false
     | Some b =>
         bool_decide (b = d)
         || match base_class b with
            | None => false
            | Some b' => bool_decide (b' = d)
            end
     end.

Record exn := Exn { cls : exn_class; msg : string }.

(** [isinstance(e, (c1, c2, ...))] *)
Definition isinstance (e : exn) (cs : list exn_class) : bool :=
  existsb (issubclass (cls e)) cs.

Inductive outcome (A : Type) :=
| Ok (a : A)
| Raise (e : exn).
Arguments Ok {A} a.
Arguments Raise {A} e.

(** A computation over a state [S]: the state is returned on both branches. *)
Definition M (S A : Type) : Type := S → outcome A * S.

Definition ret {S A} (a : A) : M S A := λ s, (Ok a, s).
Definition raise {S A} (e : exn) : M S A := λ s, (Raise e, s).
Definition bind {S A B} (m : M S A) (k : A → M S B) : M S B :=
  λ s, match m s with
       | (Ok a, s') => k a s'
       | (Raise e, s') => (Raise e, s')
       end.

(** [try: body / except (cs) as e: handler e] *)
Definition try_except {S A} (body : M S A) (cs : list exn_class)
    (handler : exn → M S A) : M S A :=
  λ s, match body s with
       | (Ok a, s') => (Ok a, s')
       | (Raise e, s') => if isinstance e cs then handler e s' else (Raise e, s')
       end.

Notation "'let!' x ':=' m 'in' k" := (bind m (λ x, k))
  (at level 10, x name, m at level 100, k at level 200, only parsing).
Notation "m ;;; k" := (bind m (λ _, k))
  (at level 100, right associativity, only parsing).

(** [for x in l: body x] *)
Fixpoint for_each {S A} (l : list A) (body : A → M S unit) : M S unit :=
  match l with
  | [] => ret tt
  | x :: l' => body x ;;; for_each l' body
  end.

(** ** Archive members and their selection *)

Inductive member_kind :=
| RegularFile (mode : Z) (payload : string)
| Directory (mode : Z).

Record member := Member { name : string; kind : member_kind }.

(** ["bin/" in name or "lib/" in name] *)
Definition selected (name : string) : bool :=
  Str.contains "bin/" name || Str.contains "lib/" name.

(** The reading of the selection as "the path has a [bin] or [lib]
    directory segment": one of the components before the last [/] is
    exactly [bin] or [lib]. *)
Definition has_dir_segment (name : string) : bool :=
  let dirs := removelast (Str.split "/" name) in
  bool_decide ("bin" ∈ dirs) || bool_decide ("lib" ∈ dirs).

(** ** The file system *)

Inductive content :=
| Bytes (data : string)
| TarXz (members : list member)
| ZipArchive (members : list member).

Inductive node :=
| File (mode : Z) (data : content)
| Dir.

Abbreviation path := (list string).
Abbreviation fs := (gmap (list string) node).

Definition is_dir (s : fs) (p : path) : bool :=
  match s !! p with Some Dir => true | _ => false end.

Definition is_file (s : fs) (p : path) : bool :=
  match s !! p with Some (File _ _) => true | _ => false end.

(** [os.path.dirname] and [os.path.basename] of a resolved path. *)
Definition os_path_dirname (p : path) : path := removelast p.
Definition os_path_basename (p : path) : string := List.last p "".

(** [PurePath.relative_to]: [None] stands for its [ValueError]. *)
Fixpoint relative_to (p base : path) {struct base} : option path :=
  match base, p with
  | [], _ => Some p
  | b :: base', x :: p' => if decide (b = x) then relative_to p' base' else None
  | _ :: _, [] => None
  end.

(** [PurePath.name]: the last component, or the empty string. *)
Definition path_name (p : path) : string := List.last p "".

(** All the prefixes of a path, the shortest first. *)
Fixpoint ancestors (p : path) : list path :=
  [] :: match p with
        | [] => []
        | x :: p' => map (cons x) (ancestors p')
        end.

Definition os_path_exists (p : path) : M fs bool :=
  λ s, (Ok (bool_decide (is_Some (s !! p))), s).

(** One level of [os.makedirs(_, exist_ok=True)] on the way to [goal]. *)
Definition mkdir_exist_ok (goal q : path) : M fs unit :=
  λ s, match s !! q with
       | Some Dir => (Ok tt, s)
       | None => (Ok tt, <[q := Dir]> s)
       | Some (File _ _) =>
           (Raise (Exn (if bool_decide (q = goal) then FileExistsError
                        else NotADirectoryError) "makedirs"), s)
       end.

(** [os.makedirs(p, exist_ok=True)] *)
Definition os_makedirs (p : path) : M fs unit :=
  for_each (ancestors p) (mkdir_exist_ok p).

(** [os.rename] of a regular file. *)
Definition os_rename (src dst : path) (n : node) : M fs unit :=
  λ s, if is_dir s (os_path_dirname dst)
       then (Ok tt, <[dst := n]> (delete src s))
       else (Raise (Exn FileNotFoundError "rename"), s).

(** [shutil.move(src, dst)] for a source that is not a directory, which is
    all that the [files] of [os.walk] hold. *)
Definition shutil_move (src dst : path) : M fs unit :=
  λ s, match s !! src with
       | None => (Raise (Exn FileNotFoundError "move"), s)
       | Some Dir => (Raise (Exn OSError "move: directory source"), s)
       | Some (File m c) =>
           if is_dir s dst then
             let real_dst := dst ++ [os_path_basename src] in
             if bool_decide (is_Some (s !! real_dst))
             then (Raise (Exn ShutilError "Destination path already exists"), s)
             else os_rename src real_dst (File m c) s
           else os_rename src dst (File m c) s
       end.

(** [os.chmod(p, mode)]; the mode of a directory is not recorded. *)
Definition os_chmod (p : path) (mode : Z) : M fs unit :=
  λ s, match s !! p with
       | Some (File _ c) => (Ok tt, <[p := File mode c]> s)
       | Some Dir => (Ok tt, s)
       | None => (Raise (Exn FileNotFoundError "chmod"), s)
       end.

(** [os.remove(p)] *)
Definition os_remove (p : path) : M fs unit :=
  λ s, match s !! p with
       | Some (File _ _) => (Ok tt, delete p s)
       | Some Dir => (Raise (Exn IsADirectoryError "remove"), s)
       | None => (Raise (Exn FileNotFoundError "remove"), s)
       end.

Definition under (p q : path) : bool := bool_decide (is_Some (relative_to q p)).

(** [shutil.rmtree(p)] *)
Definition shutil_rmtree (p : path) : M fs unit :=
  λ s, match s !! p with
       | Some Dir => (Ok tt, filter (λ kv, under p kv.1 = false) s)
       | Some (File _ _) => (Raise (Exn NotADirectoryError "rmtree"), s)
       | None => (Raise (Exn FileNotFoundError "rmtree"), s)
       end.

(** The entries directly inside [top], in the order the map lists them. *)
Definition entries (s : fs) (top : path) : list (string * node) :=
  omap (λ kv, match relative_to kv.1 top with
              | Some [x] => Some (x, kv.2)
              | _ => None
              end) (map_to_list s).

Definition dir_names (l : list (string * node)) : list string :=
  omap (λ xn, match xn.2 with Dir => Some xn.1 | File _ _ => None end) l.

Definition file_names (l : list (string * node)) : list string :=
  omap (λ xn, match xn.2 with File _ _ => Some xn.1 | Dir => None end) l.

(** [os.scandir(top)], split as [os.walk] splits it; [None] is its [OSError]. *)
Definition scandir (s : fs) (top : path) : option (list string * list string) :=
  if is_dir s top
  then Some (dir_names (entries s top), file_names (entries s top))
  else None.

(** [for root, dirs, files in os.walk(top): body root dirs files].  A
    directory is listed when the walk reaches it, after the bodies of the
    directories before it have run; one that cannot be listed is skipped.
    [fuel] bounds the depth of the recursion. *)
Fixpoint os_walk (fuel : nat) (top : path)
    (body : path → list string → list string → M fs unit) : M fs unit :=
  λ s, match scandir s top with
       | None => (Ok tt, s)
       | Some (dirs, files) =>
           match fuel with
           | O => (Raise (Exn RecursionError "walk"), s)
           | S fuel' =>
               (body top dirs files ;;;
                for_each dirs (λ d, os_walk fuel' (top ++ [d]) body)) s
           end
       end.

(** The length of the longest path of the file system. *)
Definition depth (s : fs) : nat :=
  max_list (map (λ kv, length kv.1) (map_to_list s)).

(** ** Extraction *)

(** The mode of a file that [open(_, "wb")] creates. *)
Definition default_file_mode : Z := 420.      (* 0o644 *)

(** [open(target, "wb")] and the write of the payload: a file that is
    there keeps its mode. *)
Definition write_file (target : path) (payload : string) : M fs unit :=
  λ s, match s !! target with
       | Some Dir => (Raise (Exn IsADirectoryError "open"), s)
       | old =>
           let mode := match old with
                       | Some (File mode _) => mode
                       | _ => default_file_mode
                       end in
           match s !! os_path_dirname target with
           | Some Dir => (Ok tt, <[target := File mode (Bytes payload)]> s)
           | Some (File _ _) => (Raise (Exn NotADirectoryError "open"), s)
           | None => (Raise (Exn FileNotFoundError "open"), s)
           end
       end.

(** *** [zipfile] *)

(** Where a member lands below the destination: [zipfile] takes the
    components of its name without the empty ones, [.] and [..]. *)
Definition member_path (name : string) : path :=
  filter (λ x, x ∉ [""; "."; ".."]) (Str.split "/" name).

(** [zip_ref.extract(member, path=path)]; it does not restore the
    permission bits of the member. *)
Definition zipfile_extract (path : path) (member : member) : M fs unit :=
  let targetpath := path ++ member_path (name member) in
  match kind member with
  | Directory _ => os_makedirs targetpath
  | RegularFile _ payload =>
      os_makedirs (os_path_dirname targetpath) ;;;
      write_file targetpath payload
  end.

(** *** [tarfile]

    [tarfile] joins the name of a member to the destination and hands the
    result to the operating system as it is: a [..] in the name leads out of
    the destination, and a name that starts with [/] does not go through the
    destination at all.  The operating system resolves such a name component
    by component. *)

(** The components of a name between its slashes. *)
Definition components (name : string) : list string :=
  filter (λ x, x ≠ "") (Str.split "/" name).

Definition step_into (cur : path) (x : string) : path :=
  if bool_decide (x = ".") then cur
  else if bool_decide (x = "..") then removelast cur
  else cur ++ [x].

(** Where the components [xs] lead from [cur]: each of them is looked up
    in a directory. *)
Fixpoint lookup_name (cur : path) (xs : list string) : M fs path :=
  match xs with
  | [] => ret cur
  | x :: xs' =>
      λ s, match s !! cur with
           | Some Dir => lookup_name (step_into cur x) xs' s
           | Some (File _ _) => (Raise (Exn NotADirectoryError "lookup"), s)
           | None => (Raise (Exn FileNotFoundError "lookup"), s)
           end
  end.

(** [os.path.exists] of the name [cur/xs] *)
Definition name_exists (cur : path) (xs : list string) : M fs bool :=
  try_except
    (let! p := lookup_name cur xs in os_path_exists p)
    [OSError]
    (λ _, ret false).

(** [os.mkdir] of the name [cur/xs/x] *)
Definition os_mkdir (cur : path) (xs : list string) (x : string) : M fs unit :=
  let! d := lookup_name cur xs in
  λ s, match s !! d with
       | Some Dir =>
           if bool_decide (x ∈ ["."; ".."]) || bool_decide (is_Some (s !! (d ++ [x])))
           then (Raise (Exn FileExistsError "mkdir"), s)
           else (Ok tt, <[d ++ [x] := Dir]> s)
       | Some (File _ _) => (Raise (Exn NotADirectoryError "mkdir"), s)
       | None => (Raise (Exn FileNotFoundError "mkdir"), s)
       end.

(** [os.makedirs] (without [exist_ok]) of the name [cur/xs], for [xs] in
    reverse: the head of the name is created first when it does not exist,
    then the name itself. *)
Fixpoint makedirs_name (cur : path) (rxs : list string) : M fs unit :=
  match rxs with
  | [] =>
      let! e := os_path_exists cur in
      if e then raise (Exn FileExistsError "mkdir") else os_makedirs cur
  | tail :: rhead =>
      let head := rev rhead in
      let! e := name_exists cur head in
      if e then os_mkdir cur head tail
      else
        try_except (makedirs_name cur rhead) [FileExistsError] (λ _, ret tt) ;;;
        if bool_decide (tail = ".") then ret tt else os_mkdir cur head tail
  end.

(** [open(name, "wb")] of the name [cur/xs/x] and the write of the
    payload; the result is the path of the file. *)
Definition open_name (cur : path) (xs : list string) (x : string)
    (payload : string) : M fs path :=
  let! d := lookup_name cur xs in
  if bool_decide (x ∈ ["."; ".."]) then
    λ s, match s !! d with
         | Some Dir => (Raise (Exn IsADirectoryError "open"), s)
         | Some (File _ _) => (Raise (Exn NotADirectoryError "open"), s)
         | None => (Raise (Exn FileNotFoundError "open"), s)
         end
  else write_file (d ++ [x]) payload ;;; ret (d ++ [x]).

(** [tar.extract(tarinfo, path)] as [extractall] calls it: the mode of a
    regular file is restored, that of a directory is left for later. *)
Definition tarfile_extract (path : path) (tarinfo : member) : M fs unit :=
  (* targetpath = os.path.join(path, tarinfo.name).rstrip("/") *)
  let start := if Str.startswith (name tarinfo) "/" then [] else path in
  match rev (components (name tarinfo)) with
  | [] =>
      (* the name of the directory [start] itself *)
      match kind tarinfo with
      | RegularFile _ _ => raise (Exn IsADirectoryError "open")
      | Directory _ => ret tt
      end
  | x :: rupperdirs =>
      let upperdirs := rev rupperdirs in
      (let! e := name_exists start upperdirs in
       if e then ret tt else makedirs_name start rupperdirs) ;;;
      match kind tarinfo with
      | RegularFile mode payload =>
          let! targetpath := open_name start upperdirs x payload in
          os_chmod targetpath mode
      | Directory _ =>
          try_except (os_mkdir start upperdirs x) [FileExistsError] (λ _, ret tt)
      end
  end.

Definition is_directory (tarinfo : member) : bool :=
  match kind tarinfo with Directory _ => true | RegularFile _ _ => false end.

(** [directories.sort(key=lambda a: a.name)] *)
Fixpoint insert_by_name (tarinfo : member) (l : list member) : list member :=
  match l with
  | [] => [tarinfo]
  | other :: l' =>
      if String.leb (name tarinfo) (name other) then tarinfo :: l
      else other :: insert_by_name tarinfo l'
  end.

Definition sort_by_name (l : list member) : list member :=
  foldr insert_by_name [] l.

(** The end of [extractall]: the mode of each directory member is set, in
    the reverse order of the names; an error is only logged.  The mode of a
    directory is not recorded, so this shows on a regular file that stands
    where a directory member goes. *)
Definition restore_directory_mode (path : path) (tarinfo : member) : M fs unit :=
  let start := if Str.startswith (name tarinfo) "/" then [] else path in
  match kind tarinfo with
  | Directory mode =>
      try_except
        (let! dirpath := lookup_name start (components (name tarinfo)) in
         os_chmod dirpath mode)
        [OSError]
        (λ _, ret tt)
  | RegularFile _ _ => ret tt
  end.

(** [tar.extractall(path=path, members=members)] *)
Definition tarfile_extractall (path : path) (members : list member) : M fs unit :=
  for_each members (tarfile_extract path) ;;;
  for_each (rev (sort_by_name (filter (λ tarinfo, is_directory tarinfo) members)))
    (restore_directory_mode path).

(** ** The code both handlers share *)

Definition mode_0o755 : Z := 493.

Definition BINARIES : list string := ["ffmpeg"; "ffprobe"; "ffplay"].

(** The body of the loop over [os.walk(extracted_dir)]. *)
Definition visit (extracted_dir install_path root : path)
    (dirs files : list string) : M fs unit :=
  match relative_to root extracted_dir with
  | None => raise (Exn ValueError "relative_to")
  | Some rel =>
      let subdir := path_name rel in
      if bool_decide (subdir = "bin") then
        os_makedirs (install_path ++ [subdir]) ;;;
        for_each files (λ file,
          let src := root ++ [file] in
          let dst := install_path ++ [subdir; file] in
          shutil_move src dst ;;;
          os_chmod dst mode_0o755)
      else if bool_decide (subdir = "lib") then
        os_makedirs (install_path ++ [subdir]) ;;;
        for_each files (λ file,
          let src := root ++ [file] in
          let dst := install_path ++ [subdir; file] in
          shutil_move src dst)
      else ret tt
  end.

Definition walk_fuel (s : fs) (install_path : path) : nat :=
  S (Nat.max (depth s) (length install_path + 3)).

(** "Find and move the binaries to the install path": the same text in
    both handlers. *)
Definition move_binaries (download_path install_path : path) : M fs unit :=
  let extracted_dir := os_path_dirname download_path in
  λ s, os_walk (walk_fuel s install_path) extracted_dir
         (visit extracted_dir install_path) s.

(** "Clean up temporary files" *)
Definition clean_up (download_path : path) : M fs unit :=
  let! e := os_path_exists download_path in
  if e then os_remove download_path else ret tt.

(** [for dir in ("bin", "lib"): ...] of [uninstall], the same in both
    handlers. *)
Definition uninstall_dirs (install_path : path) : M fs unit :=
  for_each ["bin"; "lib"] (λ dir,
    let dir_path := install_path ++ [dir] in
    let! e := os_path_exists dir_path in
    if e then shutil_rmtree dir_path else ret tt).

(** *** The host that [check_installed] probes *)

(** What [subprocess.run(argv, stdout=PIPE, stderr=PIPE, timeout=5)] can do:
    the process ends with a return code, the timeout expires, or the process
    cannot be started. *)
Inductive launch_error := ENOENT | EACCES | ENOEXEC.

Inductive run_result :=
| Completed (returncode : Z)
| TimedOut
| NotLaunched (errno : launch_error).

Definition launch_exn (errno : launch_error) : exn :=
  match errno with
  | ENOENT => Exn FileNotFoundError "[Errno 2] No such file or directory"
  | EACCES => Exn PermissionError "[Errno 13] Permission denied"
  | ENOEXEC => Exn OSError "[Errno 8] Exec format error"
  end.

Record host := Host {
  host_exists : string → bool;              (* os.path.exists *)
  host_access_x : string → bool;            (* os.access(_, os.X_OK) *)
  host_run : list string → run_result       (* subprocess.run *)
}.

Inductive event :=
| Printed (line : string)
| Ran (argv : list string).

Definition print (line : string) : M (list event) unit :=
  λ t, (Ok tt, t ++ [Printed line]).

(** [subprocess.run(argv, ...).returncode] *)
Definition subprocess_run (h : host) (argv : list string) : M (list event) Z :=
  λ t, (match host_run h argv with
        | Completed returncode => Ok returncode
        | TimedOut => Raise (Exn TimeoutExpired "timed out after 5 seconds")
        | NotLaunched errno => Raise (launch_exn errno)
        end, t ++ [Ran argv]).

(** [posixpath.join(a, b)] *)
Definition os_path_join (a b : string) : string :=
  if Str.startswith b "/" then b
  else if bool_decide (a = "") || Str.endswith a "/" then a +:+ b
  else a +:+ "/" +:+ b.

(** [str(e)] *)
Definition str_exn (e : exn) : string := msg e.

(** [bool(path)] of an optional string *)
Definition truthy (path : option string) : bool :=
  match path with
  | None => false
  | Some p => negb (bool_decide (p = ""))
  end.

(** The existence phase: the binaries for which [present] fails. *)
Definition missing_binaries (present : string → bool) (path : string) : list string :=
  filter (λ binary, present (os_path_join path binary) = false) BINARIES.

(** The health phase: [for binary in (...)] with its [try] block.  An
    iteration either returns from [check_installed] ([Some b]) or falls
    through to the next binary ([None]); after the last one the function
    returns [True]. *)
Definition health_check (h : host) (command : string)
    (on_code : Z → string) (on_error : exn → string) : M (list event) (option bool) :=
  try_except
    (let! returncode := subprocess_run h [command; "-version"] in
     if bool_decide (returncode ≠ 0)
     then print (on_code returncode) ;;; ret (Some false)
     else ret None)
    [SubprocessError; OSError]
    (λ e, print (on_error e) ;;; ret (Some false)).

Fixpoint health_loop (h : host) (command : string → string)
    (on_code : string → Z → string) (on_error : string → exn → string)
    (binaries : list string) : M (list event) bool :=
  match binaries with
  | [] => ret true
  | binary :: rest =>
      let! r := health_check h (command binary) (on_code binary) (on_error binary) in
      match r with
      | Some b => ret b
      | None => health_loop h command on_code on_error rest
      end
  end.

(** ** [LinuxHandler] *)

Module Linux.

Definition base_url : string :=
  "https://github.com/BtbN/FFmpeg-Builds/releases/download/latest".

Definition get_download_url (machine : string) : outcome string :=
  let arch := Str.lower machine in
  if bool_decide (arch ∈ ["x86_64"; "amd64"]) then
    Ok (base_url +:+ "/ffmpeg-master-latest-linux64-gpl-shared.tar.xz")
  else if bool_decide (arch ∈ ["aarch64"; "arm64"]) then
    Ok (base_url +:+ "/ffmpeg-master-latest-linuxarm64-gpl-shared.tar.xz")
  else
    Raise (Exn RuntimeError ("Unsupported Linux architecture: " +:+ arch)).

(** [tarfile.open(download_path, "r:xz")] and [tar.getmembers()] *)
Definition tarfile_open (download_path : path) : M fs (list member) :=
  λ s, match s !! download_path with
       | Some (File _ (TarXz members)) => (Ok members, s)
       | Some (File _ _) => (Raise (Exn TarReadError "not an lzma file"), s)
       | Some Dir => (Raise (Exn IsADirectoryError "open"), s)
       | None => (Raise (Exn FileNotFoundError "open"), s)
       end.

(** The [with tarfile.open(...)] block. *)
Definition extract (download_path : path) : M fs unit :=
  let! tar := tarfile_open download_path in
  let members := filter (λ member, selected (name member)) tar in
  match members with
  | [] => raise (Exn RuntimeError "No FFmpeg binaries found in archive")
  | _ :: _ =>
      tarfile_extractall (os_path_dirname download_path) members
  end.

Definition install (download_path install_path : path) : M fs unit :=
  try_except
    (extract download_path ;;;
     move_binaries download_path install_path ;;;
     clean_up download_path)
    [Exception]
    (λ e, raise (Exn RuntimeError ("Failed to install FFmpeg: " +:+ str_exn e))).

Definition uninstall (install_path : path) : M fs unit :=
  uninstall_dirs install_path.

Definition check_installed (h : host) (path : option string) : M (list event) bool :=
  if negb (truthy path) then
    print "FFmpeg installation path is not specified." ;;; ret false
  else
    let path := default "" path in
    let missing := missing_binaries (host_exists h) path in
    match missing with
    | _ :: _ => print ("Missing binaries: " +:+ Str.join ", " missing) ;;; ret false
    | [] =>
        health_loop h (os_path_join path)
          (λ binary code, "Binary " +:+ binary +:+ " exists but returned error code "
                          +:+ pretty code +:+ ".")
          (λ binary e, "Error while executing " +:+ binary +:+ ": " +:+ str_exn e)
          BINARIES
    end.

End Linux.

(** ** [MacOSHandler] *)

Module MacOS.

Definition get_download_url (machine : string) : outcome string :=
  let arch := machine in
  if bool_decide (arch = "x86_64") then
    Ok "https://github.com/ColorsWind/FFmpeg-macOS/releases/download/n5.0.1-patch3/FFmpeg_shared-n5.0.1-OSX-x86_64.zip"
  else if bool_decide (arch = "arm64") then
    Ok "https://github.com/ColorsWind/FFmpeg-macOS/releases/download/n5.0.1-patch3/FFmpeg-shared-n5.0.1-OSX-arm64.zip"
  else
    Raise (Exn RuntimeError ("Unsupported macOS architecture: " +:+ arch)).

(** [zipfile.ZipFile(download_path, "r")] and [zip_ref.infolist()] *)
Definition zipfile_open (download_path : path) : M fs (list member) :=
  λ s, match s !! download_path with
       | Some (File _ (ZipArchive members)) => (Ok members, s)
       | Some (File _ _) => (Raise (Exn BadZipFile "File is not a zip file"), s)
       | Some Dir => (Raise (Exn IsADirectoryError "open"), s)
       | None => (Raise (Exn FileNotFoundError "open"), s)
       end.

(** The [with zipfile.ZipFile(...)] block. *)
Definition extract (download_path : path) : M fs unit :=
  let! infolist := zipfile_open download_path in
  for_each infolist (λ file_info,
    if selected (name file_info)
    then zipfile_extract (os_path_dirname download_path) file_info
    else ret tt).

Definition install (download_path install_path : path) : M fs unit :=
  os_makedirs install_path ;;;
  try_except
    (extract download_path ;;;
     move_binaries download_path install_path ;;;
     clean_up download_path)
    [Exception]
    (λ e, raise (Exn RuntimeError ("Failed to install FFmpeg: " +:+ str_exn e))).

Definition uninstall (install_path : path) : M fs unit :=
  uninstall_dirs install_path.

(** "Global check if path is not provided" *)
Definition global_check (h : host) : M (list event) bool :=
  health_loop h (λ binary, binary)
    (λ binary code, "Global binary " +:+ binary +:+ " returned error code "
                    +:+ pretty code +:+ ".")
    (λ binary e, "Error while executing global binary " +:+ binary +:+ ": "
                 +:+ str_exn e)
    BINARIES.

Definition check_installed (h : host) (path : option string) : M (list event) bool :=
  if truthy path && host_exists h (default "" path) then
    let path := default "" path in
    let missing :=
      missing_binaries (λ p, host_exists h p && host_access_x h p) path in
    match missing with
    | _ :: _ => print ("Missing binaries: " +:+ Str.join ", " missing) ;;; ret false
    | [] =>
        health_loop h (os_path_join path)
          (λ binary code, "Binary " +:+ binary +:+ " exists but returned error code "
                          +:+ pretty code +:+ ".")
          (λ binary e, "Error while executing " +:+ binary +:+ ": " +:+ str_exn e)
          BINARIES
    end
  else global_check h.

End MacOS.

(** ** The handlers on path names

    [Linux] and [MacOS] above are the handlers on resolved paths.  What a
    caller passes is a path name: absolute, or relative to the working
    directory.  The empty name is relative and has no component: the
    operating system resolves it to nothing (every system call on it fails),
    while [os.path.join] of the empty name and [x] is [x], a name in the
    working directory.  [os.path.dirname] of a bare file name is the empty
    name. *)

Inductive pathname :=
| Absolute (components : path)
| Relative (components : path).

Global Instance pathname_eq_dec : EqDecision pathname.
Proof. solve_decision. Defined.

(** [os.path.dirname] *)
Definition dirname (n : pathname) : pathname :=
  match n with
  | Absolute p => Absolute (removelast p)
  | Relative p => Relative (removelast p)
  end.

(** The directory from which the names joined to [n] are resolved. *)
Definition base (cwd : path) (n : pathname) : path :=
  match n with
  | Absolute p => p
  | Relative p => cwd ++ p
  end.

(** What a system call on [n] resolves the name to. *)
Definition resolve (cwd : path) (n : pathname) : option path :=
  match n with
  | Relative [] => None
  | _ => Some (base cwd n)
  end.

(** "Find and move the binaries to the install path" on path names:
    [os.walk] ignores the error of [os.scandir], so it visits nothing when
    [extracted_dir] is the empty name. *)
Definition find_and_move (cwd : path) (download_path install_path : pathname) :
    M fs unit :=
  let extracted_dir := dirname download_path in
  match resolve cwd extracted_dir with
  | None => ret tt
  | Some _ => move_binaries (base cwd download_path) (base cwd install_path)
  end.

(** "Clean up temporary files" on path names. *)
Definition clean_up_name (cwd : path) (download_path : pathname) : M fs unit :=
  match resolve cwd download_path with
  | None => ret tt
  | Some dl => clean_up dl
  end.

Module LinuxHandler.

Definition install (cwd : path) (download_path install_path : pathname) : M fs unit :=
  try_except
    (match resolve cwd download_path with
     | None => raise (Exn FileNotFoundError "open")
     | Some dl => Linux.extract dl
     end ;;;
     find_and_move cwd download_path install_path ;;;
     clean_up_name cwd download_path)
    [Exception]
    (λ e, raise (Exn RuntimeError ("Failed to install FFmpeg: " +:+ str_exn e))).

(** [os.path.join(install_path, dir)] is never the empty name. *)
Definition uninstall (cwd : path) (install_path : pathname) : M fs unit :=
  Linux.uninstall (base cwd install_path).

End LinuxHandler.

Module MacOSHandler.

Definition install (cwd : path) (download_path install_path : pathname) : M fs unit :=
  match resolve cwd install_path with
  | None => raise (Exn FileNotFoundError "mkdir")
  | Some inst => os_makedirs inst
  end ;;;
  try_except
    (match resolve cwd download_path with
     | None => raise (Exn FileNotFoundError "open")
     | Some dl => MacOS.extract dl
     end ;;;
     find_and_move cwd download_path install_path ;;;
     clean_up_name cwd download_path)
    [Exception]
    (λ e, raise (Exn RuntimeError ("Failed to install FFmpeg: " +:+ str_exn e))).

Definition uninstall (cwd : path) (install_path : pathname) : M fs unit :=
  MacOS.uninstall (base cwd install_path).

End MacOSHandler.

(** ** Sample inputs *)

Module Sample.

Definition members : list member :=
  [ Member "pkg/bin/ffmpeg" (RegularFile 420 "ffmpeg");
    Member "pkg/bin/ffprobe" (RegularFile 420 "ffprobe");
    Member "pkg/lib/libavcodec.so" (RegularFile 420 "libavcodec");
    Member "pkg/doc/README" (RegularFile 420 "readme") ].

Definition doc_only : list member :=
  [ Member "pkg/doc/README" (RegularFile 420 "readme") ].

Definition download_path : path := ["tmp"; "dl"; "ffmpeg.archive"].
Definition install_path : path := ["opt"; "ffmpeg"].

(** A download directory that already holds [old/bin/tool]. *)
Definition disk (archive : content) : fs :=
  list_to_map
    [ ([], Dir); (["tmp"], Dir); (["tmp"; "dl"], Dir);
      (["tmp"; "dl"; "old"], Dir); (["tmp"; "dl"; "old"; "bin"], Dir);
      (["tmp"; "dl"; "old"; "bin"; "tool"], File 420 (Bytes "tool"));
      (download_path, File 420 archive) ].

(** The download directory after the extraction of [members]. *)
Definition extracted (archive : content) : fs :=
  list_to_map
    [ ([], Dir); (["tmp"], Dir); (["tmp"; "dl"], Dir);
      (["tmp"; "dl"; "old"], Dir); (["tmp"; "dl"; "old"; "bin"], Dir);
      (["tmp"; "dl"; "old"; "bin"; "tool"], File 420 (Bytes "tool"));
      (["tmp"; "dl"; "pkg"], Dir);
      (["tmp"; "dl"; "pkg"; "bin"], Dir);
      (["tmp"; "dl"; "pkg"; "bin"; "ffmpeg"], File 420 (Bytes "ffmpeg"));
      (["tmp"; "dl"; "pkg"; "bin"; "ffprobe"], File 420 (Bytes "ffprobe"));
      (["tmp"; "dl"; "pkg"; "lib"], Dir);
      (["tmp"; "dl"; "pkg"; "lib"; "libavcodec.so"], File 420 (Bytes "libavcodec"));
      (download_path, File 420 archive) ].

(** The extracted download directory beside an installation that holds
    [bin/keep]. *)
Definition reinstall : fs :=
  <[["opt"; "ffmpeg"; "bin"; "keep"] := File 420 (Bytes "keep")]>
    (<[["opt"; "ffmpeg"; "bin"] := Dir]>
       (<[["opt"; "ffmpeg"] := Dir]> (<[["opt"] := Dir]> (extracted (Bytes ""))))).

(** The extracted download directory, and a directory in the way at
    [install_path/bin/ffmpeg]. *)
Definition blocked : fs :=
  <[["opt"; "ffmpeg"; "bin"; "ffmpeg"] := Dir]>
    (<[["opt"; "ffmpeg"; "bin"] := Dir]>
       (<[["opt"; "ffmpeg"] := Dir]> (<[["opt"] := Dir]> (extracted (Bytes ""))))).

(** An installation directory with a regular file named [bin]. *)
Definition file_at_bin : fs :=
  list_to_map
    [ ([], Dir); (["opt"], Dir); (["opt"; "ffmpeg"], Dir);
      (["opt"; "ffmpeg"; "bin"], File 420 (Bytes ""));
      (["opt"; "ffmpeg"; "lib"], Dir);
      (["opt"; "ffmpeg"; "lib"; "libavcodec.so"], File 420 (Bytes "libavcodec")) ].

(** The extracted download directory, and a regular file in the way at
    [install_path/bin]. *)
Definition file_in_the_way : fs :=
  <[["opt"; "ffmpeg"; "bin"] := File 420 (Bytes "")]>
    (<[["opt"; "ffmpeg"] := Dir]> (<[["opt"] := Dir]> (extracted (Bytes "")))).

(** A download directory named [bin] that holds the archive and [tool]. *)
Definition download_in_bin : fs :=
  list_to_map
    [ ([], Dir); (["srv"], Dir); (["srv"; "bin"], Dir);
      (["srv"; "bin"; "tool"], File 420 (Bytes "tool"));
      (["srv"; "bin"; "ffmpeg.archive"], File 420 (Bytes "")) ].

(** A download directory that holds the archive only. *)
Definition clean_disk (archive : content) : fs :=
  list_to_map
    [ ([], Dir); (["tmp"], Dir); (["tmp"; "dl"], Dir);
      (download_path, File 420 archive) ].

(** A machine with FFmpeg on the search path and nothing at all in the
    file system. *)
Definition global_only : host :=
  Host (λ _, false) (λ _, false)
    (λ argv, if bool_decide (argv ∈ map (λ binary, [binary; "-version"]) BINARIES)
             then Completed 0 else NotLaunched ENOENT).

(** A machine with a working FFmpeg in [/opt/ffmpeg] only. *)
Definition installed : host :=
  let binaries := map (os_path_join "/opt/ffmpeg") BINARIES in
  Host (λ p, bool_decide (p ∈ "/opt/ffmpeg" :: binaries))
    (λ p, bool_decide (p ∈ "/opt/ffmpeg" :: binaries))
    (λ argv, if bool_decide (argv ∈ map (λ binary, [binary; "-version"]) binaries)
             then Completed 0 else NotLaunched ENOENT).

(** The same machine with an [ffplay] that hangs. *)
Definition hanging : host :=
  Host (host_exists installed) (host_access_x installed)
    (λ argv, if bool_decide (argv = ["/opt/ffmpeg/ffplay"; "-version"])
             then TimedOut else host_run installed argv).

End Sample.

(** * Properties *)

(** Decidable side conditions on concrete inputs. *)
Ltac by_compute := apply (bool_decide_unpack _); vm_compute; exact I.

Lemma outcome_and_state {A S : Type} (r : outcome A * S) (a : outcome A) :
  r.1 = a → r = (a, r.2).
Proof. destruct r. simpl. by intros ->. Qed.

(** ** Strings *)

Lemma append_cons a s t : String a s +:+ t = String a (s +:+ t).
Proof. reflexivity. Qed.

Lemma append_nil_l s : "" +:+ s = s.
Proof. reflexivity. Qed.

Lemma startswith_spec s p :
  Str.startswith s p = true ↔ ∃ post, s = p +:+ post.
Proof.
  revert s. induction p as [|a p IH]; intros s; simpl.
  - split; [intros _; by exists s | done].
  - destruct s as [|b s].
    + split; [done | intros [post H]; by rewrite append_cons in H].
    + destruct (Ascii.eqb_spec a b) as [->|Hne].
      * rewrite IH. split; intros [post H]; exists post.
        -- by rewrite append_cons, H.
        -- rewrite append_cons in H. by simplify_eq.
      * split; [done | intros [post H]].
        rewrite append_cons in H. by simplify_eq.
Qed.

Lemma contains_spec needle hay :
  Str.contains needle hay = true ↔ ∃ pre post, hay = pre +:+ needle +:+ post.
Proof.
  induction hay as [|c hay IH]; simpl.
  - rewrite orb_false_r, startswith_spec. split.
    + intros [post H]. by exists "", post.
    + intros (pre & post & H). destruct pre; [by exists post|].
      by rewrite append_cons in H.
  - rewrite orb_true_iff, startswith_spec, IH. split.
    + intros [[post H] | (pre & post & H)].
      * by exists "", post.
      * exists (String c pre), post. by rewrite append_cons, H.
    + intros (pre & post & H). destruct pre as [|c' pre].
      * left. by exists post.
      * right. exists pre, post. rewrite append_cons in H. by simplify_eq.
Qed.

Lemma contains_suffix p s : Str.contains s (p +:+ s) = true.
Proof.
  apply contains_spec. exists p, "".
  f_equal. induction s as [|a s IH]; [done|]. by rewrite append_cons, <- IH.
Qed.

(** ** [get_download_url] *)

(** C1, as stated, fails: [MacOSHandler] knows neither [amd64] nor
    [aarch64] (nor any other letter case), and the error of [LinuxHandler]
    names the lower-cased string, not the string it was given. *)
Lemma get_download_url_counterexample :
  MacOS.get_download_url "amd64"
    = Raise (Exn RuntimeError "Unsupported macOS architecture: amd64")
  ∧ MacOS.get_download_url "ARM64"
    = Raise (Exn RuntimeError "Unsupported macOS architecture: ARM64")
  ∧ ∃ e, Linux.get_download_url "RISCV64" = Raise e
         ∧ Str.contains "RISCV64" (msg e) = false.
Proof. repeat split. eexists; split; reflexivity. Qed.

(** C1 (amended): [LinuxHandler.get_download_url] lower-cases the machine
    name; [x86_64]/[amd64] give a URL that contains [linux64] and ends in
    [.tar.xz], [aarch64]/[arm64] one that contains [linuxarm64] and ends in
    [.tar.xz], and anything else raises a [RuntimeError] whose message names
    the lower-cased string.  [MacOSHandler.get_download_url] compares the
    machine name as it is: exactly [x86_64] and exactly [arm64] give a URL
    that contains that token and ends in [.zip]; anything else raises a
    [RuntimeError] whose message names the string. *)
Theorem get_download_url_by_architecture (machine : string) :
  let arch := Str.lower machine in
  (arch ∈ ["x86_64"; "amd64"] →
     ∃ url, Linux.get_download_url machine = Ok url
            ∧ Str.contains "linux64" url = true
            ∧ Str.endswith url ".tar.xz" = true)
  ∧ (arch ∈ ["aarch64"; "arm64"] →
     ∃ url, Linux.get_download_url machine = Ok url
            ∧ Str.contains "linuxarm64" url = true
            ∧ Str.endswith url ".tar.xz" = true)
  ∧ (arch ∉ ["x86_64"; "amd64"; "aarch64"; "arm64"] →
     ∃ e, Linux.get_download_url machine = Raise e
          ∧ cls e = RuntimeError
          ∧ msg e = "Unsupported Linux architecture: " +:+ arch
          ∧ Str.contains arch (msg e) = true)
  ∧ (machine = "x86_64" →
     ∃ url, MacOS.get_download_url machine = Ok url
            ∧ Str.contains "x86_64" url = true
            ∧ Str.endswith url ".zip" = true)
  ∧ (machine = "arm64" →
     ∃ url, MacOS.get_download_url machine = Ok url
            ∧ Str.contains "arm64" url = true
            ∧ Str.endswith url ".zip" = true)
  ∧ (machine ∉ ["x86_64"; "arm64"] →
     ∃ e, MacOS.get_download_url machine = Raise e
          ∧ cls e = RuntimeError
          ∧ msg e = "Unsupported macOS architecture: " +:+ machine
          ∧ Str.contains machine (msg e) = true).
Proof.
  intros arch. unfold Linux.get_download_url, MacOS.get_download_url.
  fold arch. clearbody arch. repeat split.
  - intros H. rewrite bool_decide_eq_true_2 by done.
    eexists. split; [done|]. by vm_compute.
  - intros H. rewrite bool_decide_eq_false_2, bool_decide_eq_true_2; [|done|].
    + eexists. split; [done|]. by vm_compute.
    + set_unfold. intuition congruence.
  - intros H. rewrite !bool_decide_eq_false_2 by (set_unfold; intuition congruence).
    eexists. repeat split. apply contains_suffix.
  - intros ->. eexists. split; [done|]. by vm_compute.
  - intros ->. eexists. split; [done|]. by vm_compute.
  - intros H. rewrite !bool_decide_eq_false_2 by (set_unfold; intuition congruence).
    eexists. repeat split. apply contains_suffix.
Qed.

Lemma get_download_url_by_architecture_witness :
  (∃ url, Linux.get_download_url "AMD64" = Ok url
          ∧ Str.contains "linux64" url = true
          ∧ Str.endswith url ".tar.xz" = true)
  ∧ (∃ url, Linux.get_download_url "Aarch64" = Ok url
          ∧ Str.contains "linuxarm64" url = true
          ∧ Str.endswith url ".tar.xz" = true)
  ∧ (∃ e, Linux.get_download_url "RISCV64" = Raise e
          ∧ cls e = RuntimeError
          ∧ msg e = "Unsupported Linux architecture: riscv64"
          ∧ Str.contains "riscv64" (msg e) = true)
  ∧ (∃ url, MacOS.get_download_url "arm64" = Ok url
          ∧ Str.contains "arm64" url = true
          ∧ Str.endswith url ".zip" = true)
  ∧ (∃ e, MacOS.get_download_url "amd64" = Raise e
          ∧ cls e = RuntimeError
          ∧ msg e = "Unsupported macOS architecture: amd64"
          ∧ Str.contains "amd64" (msg e) = true).
Proof.
  split; [|split; [|split; [|split]]].
  - apply (get_download_url_by_architecture "AMD64"). vm_compute. set_unfold. intuition congruence.
  - apply (get_download_url_by_architecture "Aarch64"). vm_compute. set_unfold. intuition congruence.
  - apply (get_download_url_by_architecture "RISCV64"). vm_compute. set_unfold. intuition congruence.
  - by apply (get_download_url_by_architecture "arm64").
  - apply (get_download_url_by_architecture "amd64"). set_unfold. intuition congruence.
Defined.

(** ** The selection of archive members *)

Lemma split_nonempty sep s : Str.split sep s ≠ [].
Proof.
  destruct s as [|c s]; simpl; [done|].
  destruct (Ascii.eqb c sep); [done|]. by destruct (Str.split sep s).
Qed.

Lemma split_head sep s w ws :
  Str.split sep s = w :: ws → ws ≠ [] → ∃ post, s = w +:+ String sep post.
Proof.
  revert w ws. induction s as [|c s IH]; intros w ws; simpl.
  - intros [= <- <-]. done.
  - destruct (Ascii.eqb_spec c sep) as [->|Hne].
    + intros [= <- <-] _. by exists s.
    + destruct (Str.split sep s) as [|w0 ws0] eqn:Hs.
      * intros [= <- <-]. done.
      * intros [= <- <-] Hws. destruct (IH w0 ws0 eq_refl Hws) as [post ->].
        by exists post.
Qed.

Lemma split_segment sep s w :
  w ∈ removelast (Str.split sep s) → ∃ pre post, s = pre +:+ w +:+ String sep post.
Proof.
  revert w. induction s as [|c s IH]; intros w; simpl.
  - by intros ?%elem_of_nil.
  - destruct (Ascii.eqb_spec c sep) as [->|Hne].
    + pose proof (split_nonempty sep s) as Hne.
      destruct (Str.split sep s) as [|w0 ws0] eqn:Hs; [done|].
      intros [->|Hin]%elem_of_cons.
      * by exists "", s.
      * destruct (IH w Hin) as (pre & post & ->).
        by exists (String sep pre), post.
    + destruct (Str.split sep s) as [|w0 ws0] eqn:Hs.
      * by intros ?%elem_of_nil.
      * destruct ws0 as [|w1 ws1]; [by intros ?%elem_of_nil|].
        intros [->|Hin]%elem_of_cons.
        -- destruct (split_head sep s w0 (w1 :: ws1) Hs) as [post ->]; [done|].
           by exists "", post.
        -- destruct (IH w) as (pre & post & ->).
           { apply elem_of_cons. by right. }
           by exists (String c pre), post.
Qed.

(** Every path with a [bin] or [lib] directory segment is selected. *)
Lemma has_dir_segment_selected name :
  has_dir_segment name = true → selected name = true.
Proof.
  unfold has_dir_segment, selected.
  intros [H|H]%orb_true_iff; apply bool_decide_eq_true in H;
    apply split_segment in H as (pre & post & ->); apply orb_true_iff;
    [left|right]; apply contains_spec; by exists pre, post.
Qed.

Lemma for_each_filter {S A} (P : A → bool) (f : A → M S unit) (l : list A) :
  for_each l (λ x, if P x then f x else ret tt) = for_each (filter (λ x, P x) l) f.
Proof.
  induction l as [|x l IH]; simpl; [done|].
  rewrite filter_cons. destruct (P x) eqn:HP; simpl; by rewrite IH.
Qed.

(** C6, as stated, fails in one direction: a member is selected as soon as
    the text [bin/] or [lib/] occurs in its name, also inside a longer
    segment. *)
Lemma selection_counterexample :
  selected "usr/sbin/ffmpeg" = true ∧ has_dir_segment "usr/sbin/ffmpeg" = false
  ∧ selected "share/glib/COPYING" = true ∧ has_dir_segment "share/glib/COPYING" = false.
Proof. by vm_compute. Qed.

(** C6 (amended): a member is selected for extraction if and only if the
    text [bin/] or [lib/] occurs somewhere in its name; this covers every
    name with a [bin] or [lib] directory segment.  Both handlers extract the
    selected members and nothing else: [LinuxHandler] hands [extractall] the
    selected members (when there is one), [MacOSHandler] extracts them one
    by one. *)
Theorem extraction_selects_by_substring :
  (∀ name, selected name = true ↔
       (∃ pre post, name = pre +:+ "bin/" +:+ post)
       ∨ (∃ pre post, name = pre +:+ "lib/" +:+ post))
  ∧ (∀ name, has_dir_segment name = true → selected name = true)
  ∧ (∀ download_path (s : fs) mode members,
       s !! download_path = Some (File mode (TarXz members)) →
       filter (λ m, selected (name m)) members ≠ [] →
       Linux.extract download_path s
       = tarfile_extractall (os_path_dirname download_path)
           (filter (λ m, selected (name m)) members) s)
  ∧ (∀ download_path (s : fs) mode members,
       s !! download_path = Some (File mode (ZipArchive members)) →
       MacOS.extract download_path s
       = for_each (filter (λ m, selected (name m)) members)
           (zipfile_extract (os_path_dirname download_path)) s).
Proof.
  split; [|split; [|split]].
  - intros name. unfold selected. by rewrite orb_true_iff, !contains_spec.
  - apply has_dir_segment_selected.
  - intros dl s mode members Hdl Hne.
    unfold Linux.extract, bind, Linux.tarfile_open. rewrite Hdl.
    by destruct (filter _ members).
  - intros dl s mode members Hdl.
    unfold MacOS.extract, bind, MacOS.zipfile_open. rewrite Hdl.
    by rewrite (for_each_filter (λ m, selected (name m))).
Qed.

Lemma extraction_selects_by_substring_witness :
  selected "pkg/bin/ffmpeg" = true
  ∧ Linux.extract Sample.download_path (Sample.disk (TarXz Sample.members))
    = tarfile_extractall (os_path_dirname Sample.download_path)
        (filter (λ m, selected (name m)) Sample.members)
        (Sample.disk (TarXz Sample.members))
  ∧ MacOS.extract Sample.download_path (Sample.disk (ZipArchive Sample.members))
    = for_each (filter (λ m, selected (name m)) Sample.members)
        (zipfile_extract (os_path_dirname Sample.download_path))
        (Sample.disk (ZipArchive Sample.members)).
Proof.
  destruct extraction_selects_by_substring as (Hsel & Hseg & Hlinux & Hmacos).
  split; [|split].
  - apply Hseg. by vm_compute.
  - apply (Hlinux _ _ 420); by vm_compute.
  - apply (Hmacos _ _ 420). by vm_compute.
Defined.

(** ** [check_installed] *)

Section check_installed.
Context (h : host).

Lemma isinstance_timeout :
  isinstance (Exn TimeoutExpired "timed out after 5 seconds")
    [SubprocessError; OSError] = true.
Proof. reflexivity. Qed.

Lemma isinstance_launch errno :
  isinstance (launch_exn errno) [SubprocessError; OSError] = true.
Proof. by destruct errno. Qed.

(** One iteration of the health phase. *)
Lemma health_check_spec command on_code on_error t :
  (host_run h [command; "-version"] = Completed 0
   ∧ health_check h command on_code on_error t
     = (Ok None, t ++ [Ran [command; "-version"]]))
  ∨ (host_run h [command; "-version"] ≠ Completed 0
     ∧ ∃ line, health_check h command on_code on_error t
               = (Ok (Some false), t ++ [Ran [command; "-version"]; Printed line])).
Proof.
  unfold health_check, try_except, bind, subprocess_run, print, ret.
  destruct (host_run h [command; "-version"]) as [rc| |errno] eqn:Hrun.
  - case_bool_decide as Hrc.
    + right. split; [congruence|]. eexists. by rewrite <- app_assoc.
    + left. by rewrite Hrc.
  - right. split; [done|]. rewrite isinstance_timeout.
    eexists. by rewrite <- app_assoc.
  - right. split; [done|]. rewrite isinstance_launch.
    eexists. by rewrite <- app_assoc.
Qed.

(** The health phase never raises; it answers [True] exactly when every
    command ends with return code zero, and then it has run them all. *)
Lemma health_loop_spec command on_code on_error binaries t :
  ∃ b t1,
    health_loop h command on_code on_error binaries t = (Ok b, t ++ t1)
    ∧ (b = true ↔
         Forall (λ binary, host_run h [command binary; "-version"] = Completed 0)
           binaries)
    ∧ (b = true → t1 = map (λ binary, Ran [command binary; "-version"]) binaries)
    ∧ (∀ argv, Ran argv ∈ t1 →
         ∃ binary, binary ∈ binaries ∧ argv = [command binary; "-version"])
    ∧ (∀ argv, Ran argv ∈ t1 → host_run h argv ≠ Completed 0 → b = false).
Proof.
  revert t. induction binaries as [|binary rest IH]; intros t; simpl.
  - exists true, []. rewrite app_nil_r. repeat split; try done.
    + intros argv ?%elem_of_nil. done.
    + intros argv ?%elem_of_nil. done.
  - unfold bind.
    destruct (health_check_spec (command binary) (on_code binary)
                (on_error binary) t) as [[Hrun ->] | [Hrun [line ->]]].
    + destruct (IH (t ++ [Ran [command binary; "-version"]]))
        as (b & t1 & -> & Hb & Htrace & Hran & Hfail).
      exists b, (Ran [command binary; "-version"] :: t1).
      split; [by rewrite <- app_assoc|]. repeat split.
      * intros Hbt. constructor; [done | by apply Hb].
      * intros HF. apply Hb. by inversion HF.
      * intros Hbt. by rewrite (Htrace Hbt).
      * intros argv [[= ->] | Hin]%elem_of_cons.
        -- exists binary. split; [by left | done].
        -- destruct (Hran argv Hin) as (b' & ? & ?). exists b'.
           split; [by right | done].
      * intros argv [[= ->] | Hin]%elem_of_cons ?; [done | by eapply Hfail].
    + exists false, [Ran [command binary; "-version"]; Printed line].
      repeat split; try done.
      * intros HF. by inversion HF.
      * intros argv [[= ->] | Hin]%elem_of_cons.
        -- exists binary. split; [by left | done].
        -- apply list_elem_of_singleton in Hin. done.
Qed.

Lemma missing_binaries_nil present path :
  missing_binaries present path = []
  ↔ Forall (λ binary, present (os_path_join path binary) = true) BINARIES.
Proof.
  unfold missing_binaries. split.
  - intros Hnil. apply Forall_forall. intros binary Hin.
    destruct (present (os_path_join path binary)) eqn:Hp; [done|].
    by destruct (filter_nil_not_elem_of _ _ binary Hnil Hp).
  - intros HF. induction BINARIES as [|binary l IH]; [done|].
    inversion HF as [|?? Hp HF']; subst.
    rewrite filter_cons_False; [by apply IH | congruence].
Qed.

(** [LinuxHandler.check_installed] in full. *)
Lemma linux_check_installed_spec path t :
  ∃ b t1,
    Linux.check_installed h path t = (Ok b, t ++ t1)
    ∧ (b = true ↔
         truthy path = true
         ∧ Forall (λ binary,
              host_exists h (os_path_join (default "" path) binary) = true
              ∧ host_run h [os_path_join (default "" path) binary; "-version"]
                = Completed 0) BINARIES)
    ∧ (∀ argv, Ran argv ∈ t1 →
         ∃ binary, binary ∈ BINARIES
           ∧ argv = [os_path_join (default "" path) binary; "-version"])
    ∧ (∀ argv, Ran argv ∈ t1 → host_run h argv ≠ Completed 0 → b = false).
Proof.
  unfold Linux.check_installed.
  destruct (truthy path) eqn:Htruthy; cbn [negb].
  - destruct (missing_binaries _ _) as [|m ms] eqn:Hmissing.
    + apply missing_binaries_nil in Hmissing.
      match goal with |- context [health_loop h ?c ?oc ?oe ?bs t] =>
        destruct (health_loop_spec c oc oe bs t)
          as (b & t1 & Heq & Hb & _ & Hran & Hfail) end.
      exists b, t1. split; [done|]. repeat split; try done.
      * apply Forall_and. split; [done | by apply Hb].
      * intros [_ [_ HF]%Forall_and]. by apply Hb.
    + eexists false, _. split; [reflexivity|]. split; [split; [done|]|split].
      * intros [_ [HF _]%Forall_and].
        apply missing_binaries_nil in HF. congruence.
      * intros argv Hin. apply list_elem_of_singleton in Hin. done.
      * done.
  - eexists false, _. split; [reflexivity|]. split; [split; [done|]|split].
    + by intros [? _].
    + intros argv Hin. apply list_elem_of_singleton in Hin. done.
    + done.
Qed.

(** [MacOSHandler.check_installed] when the path is given and exists. *)
Lemma macos_check_installed_spec path t :
  truthy path = true → host_exists h (default "" path) = true →
  ∃ b t1,
    MacOS.check_installed h path t = (Ok b, t ++ t1)
    ∧ (b = true ↔
         Forall (λ binary,
              (host_exists h (os_path_join (default "" path) binary) = true
               ∧ host_access_x h (os_path_join (default "" path) binary) = true)
              ∧ host_run h [os_path_join (default "" path) binary; "-version"]
                = Completed 0) BINARIES)
    ∧ (∀ argv, Ran argv ∈ t1 →
         ∃ binary, binary ∈ BINARIES
           ∧ argv = [os_path_join (default "" path) binary; "-version"])
    ∧ (∀ argv, Ran argv ∈ t1 → host_run h argv ≠ Completed 0 → b = false).
Proof.
  intros Htruthy Hexists. unfold MacOS.check_installed.
  rewrite Htruthy, Hexists. cbn [andb].
  destruct (missing_binaries _ _) as [|m ms] eqn:Hmissing.
  - apply missing_binaries_nil in Hmissing.
    match goal with |- context [health_loop h ?c ?oc ?oe ?bs t] =>
      destruct (health_loop_spec c oc oe bs t)
        as (b & t1 & Heq & Hb & _ & Hran & Hfail) end.
    exists b, t1. split; [done|]. split; [split|split]; try done.
    + intros Hbt. apply Forall_and. split; [|by apply Hb].
      eapply Forall_impl; [exact Hmissing|]. by intros ? ?%andb_true_iff.
    + intros [_ HF]%Forall_and. by apply Hb.
  - eexists false, _. split; [reflexivity|]. split; [split; [done|]|split].
    + intros [HF _]%Forall_and.
      assert (missing_binaries (λ p, host_exists h p && host_access_x h p)
                (default "" path) = []) as Hnil; [|congruence].
      apply missing_binaries_nil.
      eapply Forall_impl; [exact HF|]. by intros ? ?%andb_true_iff.
    + intros argv Hin. apply list_elem_of_singleton in Hin. done.
    + done.
Qed.

(** [MacOSHandler.check_installed] otherwise: the global check. *)
Lemma macos_check_installed_global path t :
  truthy path && host_exists h (default "" path) = false →
  MacOS.check_installed h path t = MacOS.global_check h t.
Proof. intros H. unfold MacOS.check_installed. by rewrite H. Qed.

Lemma macos_global_check_spec t :
  ∃ b t1,
    MacOS.global_check h t = (Ok b, t ++ t1)
    ∧ (b = true ↔
         Forall (λ binary, host_run h [binary; "-version"] = Completed 0) BINARIES)
    ∧ (b = true → t1 = map (λ binary, Ran [binary; "-version"]) BINARIES)
    ∧ (∀ argv, Ran argv ∈ t1 →
         ∃ binary, binary ∈ BINARIES ∧ argv = [binary; "-version"])
    ∧ (∀ argv, Ran argv ∈ t1 → host_run h argv ≠ Completed 0 → b = false).
Proof. unfold MacOS.global_check. apply health_loop_spec. Qed.

End check_installed.

Lemma truthy_Some p : truthy (Some p) = true ↔ p ≠ "".
Proof. simpl. by rewrite negb_true_iff, bool_decide_eq_false. Qed.

(** C3, as stated, fails for [MacOSHandler]: given a path that does not
    exist, it answers [True] on a machine whose search path has the three
    commands, although none of the binaries is at the given path. *)
Lemma check_installed_counterexample :
  host_exists Sample.global_only (os_path_join "/opt/ffmpeg" "ffmpeg") = false
  ∧ (MacOS.check_installed Sample.global_only (Some "/opt/ffmpeg") []).1 = Ok true.
Proof. by vm_compute. Qed.

(** C3 (amended): for every supplied path, [LinuxHandler.check_installed]
    returns a boolean, and it is [True] exactly when the path is not empty,
    the three binaries exist at the path and the three [-version] runs end
    with return code zero (so a missing binary, a non-zero return code and a
    timeout all give [False]).  [MacOSHandler.check_installed] does the same
    when the supplied path itself exists, a binary counting as present only
    if it is also executable. *)
Theorem check_installed_at_path (h : host) (p : string) (t : list event) :
  (∃ b t1,
     Linux.check_installed h (Some p) t = (Ok b, t ++ t1)
     ∧ (b = true ↔
          p ≠ ""
          ∧ Forall (λ binary,
               host_exists h (os_path_join p binary) = true
               ∧ host_run h [os_path_join p binary; "-version"] = Completed 0)
              BINARIES))
  ∧ (p ≠ "" → host_exists h p = true →
     ∃ b t1,
       MacOS.check_installed h (Some p) t = (Ok b, t ++ t1)
       ∧ (b = true ↔
            Forall (λ binary,
               (host_exists h (os_path_join p binary) = true
                ∧ host_access_x h (os_path_join p binary) = true)
               ∧ host_run h [os_path_join p binary; "-version"] = Completed 0)
              BINARIES)).
Proof.
  split.
  - destruct (linux_check_installed_spec h (Some p) t) as (b & t1 & Heq & Hb & _).
    exists b, t1. split; [done|]. by rewrite Hb, truthy_Some.
  - intros Hp Hexists.
    destruct (macos_check_installed_spec h (Some p) t) as (b & t1 & Heq & Hb & _).
    { by apply truthy_Some. }
    { done. }
    by exists b, t1.
Qed.

Lemma check_installed_at_path_witness :
  (∃ b t1,
     Linux.check_installed Sample.hanging (Some "/opt/ffmpeg") [] = (Ok b, [] ++ t1)
     ∧ (b = true ↔
          "/opt/ffmpeg" ≠ ""
          ∧ Forall (λ binary,
               host_exists Sample.hanging (os_path_join "/opt/ffmpeg" binary) = true
               ∧ host_run Sample.hanging
                   [os_path_join "/opt/ffmpeg" binary; "-version"] = Completed 0)
              BINARIES))
  ∧ (∃ b t1,
       MacOS.check_installed Sample.installed (Some "/opt/ffmpeg") []
       = (Ok b, [] ++ t1)
       ∧ (b = true ↔
            Forall (λ binary,
               (host_exists Sample.installed (os_path_join "/opt/ffmpeg" binary) = true
                ∧ host_access_x Sample.installed
                    (os_path_join "/opt/ffmpeg" binary) = true)
               ∧ host_run Sample.installed
                   [os_path_join "/opt/ffmpeg" binary; "-version"] = Completed 0)
              BINARIES)).
Proof.
  split.
  - apply (check_installed_at_path Sample.hanging "/opt/ffmpeg" []).
  - apply (check_installed_at_path Sample.installed "/opt/ffmpeg" []);
      [done | by vm_compute].
Defined.

(** C4: given a non-empty path that does not exist,
    [MacOSHandler.check_installed] does not answer for that path: it runs
    the global check, that is the bare commands [ffmpeg], [ffprobe] and
    [ffplay] with [-version] and nothing else, and it returns [True] if the
    three of them end with return code zero. *)
Theorem macos_check_installed_missing_path (h : host) (p : string) (t : list event) :
  p ≠ "" → host_exists h p = false →
  MacOS.check_installed h (Some p) t = MacOS.global_check h t
  ∧ (∃ b t1,
       MacOS.check_installed h (Some p) t = (Ok b, t ++ t1)
       ∧ (∀ argv, Ran argv ∈ t1 →
            ∃ binary, binary ∈ BINARIES ∧ argv = [binary; "-version"])
       ∧ (b = true ↔
            Forall (λ binary, host_run h [binary; "-version"] = Completed 0)
              BINARIES))
  ∧ (Forall (λ binary, host_run h [binary; "-version"] = Completed 0) BINARIES →
     MacOS.check_installed h (Some p) t
     = (Ok true, t ++ [Ran ["ffmpeg"; "-version"]; Ran ["ffprobe"; "-version"];
                       Ran ["ffplay"; "-version"]])).
Proof.
  intros Hp Hexists.
  assert (MacOS.check_installed h (Some p) t = MacOS.global_check h t) as Heq.
  { apply macos_check_installed_global.
    change (default "" (Some p)) with p. rewrite Hexists.
    apply andb_false_r. }
  rewrite Heq.
  destruct (macos_global_check_spec h t) as (b & t1 & Hg & Hb & Htrace & Hran & _).
  split; [done|]. split.
  - by exists b, t1.
  - intros HF. apply Hb in HF as ->. by rewrite Hg, Htrace.
Qed.

Lemma macos_check_installed_missing_path_witness :
  MacOS.check_installed Sample.global_only (Some "/opt/ffmpeg") []
  = (Ok true, [Ran ["ffmpeg"; "-version"]; Ran ["ffprobe"; "-version"];
               Ran ["ffplay"; "-version"]]).
Proof.
  apply (macos_check_installed_missing_path Sample.global_only "/opt/ffmpeg" []);
    [done | done |].
  repeat constructor.
Defined.

(** C7: for every path, given or not, [check_installed] of both handlers
    returns a boolean and never raises, and every failure it meets makes the
    answer [False]: no path where [LinuxHandler] needs one, a binary that is
    missing (or, for [MacOSHandler], not executable) at the path it checks,
    and, for every command it runs, a non-zero return code, a timeout or a
    failure to start the process. *)
Theorem check_installed_never_raises (h : host) (path : option string) (t : list event) :
  (∃ b t1,
     Linux.check_installed h path t = (Ok b, t ++ t1)
     ∧ (truthy path = false → b = false)
     ∧ (∀ binary, binary ∈ BINARIES →
          host_exists h (os_path_join (default "" path) binary) = false
          ∨ host_run h [os_path_join (default "" path) binary; "-version"]
            ≠ Completed 0 →
          b = false)
     ∧ (∀ argv, Ran argv ∈ t1 → host_run h argv ≠ Completed 0 → b = false))
  ∧ (∃ b t1,
       MacOS.check_installed h path t = (Ok b, t ++ t1)
       ∧ (truthy path = true → host_exists h (default "" path) = true →
          ∀ binary, binary ∈ BINARIES →
            host_exists h (os_path_join (default "" path) binary) = false
            ∨ host_access_x h (os_path_join (default "" path) binary) = false
            ∨ host_run h [os_path_join (default "" path) binary; "-version"]
              ≠ Completed 0 →
            b = false)
       ∧ (truthy path && host_exists h (default "" path) = false →
          ∀ binary, binary ∈ BINARIES →
            host_run h [binary; "-version"] ≠ Completed 0 → b = false)
       ∧ (∀ argv, Ran argv ∈ t1 → host_run h argv ≠ Completed 0 → b = false)).
Proof.
  split.
  - destruct (linux_check_installed_spec h path t) as (b & t1 & Heq & Hb & _ & Hfail).
    exists b, t1. split; [done|]. split; [|split; [|done]].
    + intros Hfalse. destruct b; [|done].
      destruct Hb as [Hb _]. destruct (Hb eq_refl) as [? _]. congruence.
    + intros binary Hin Hbad. destruct b; [|done].
      destruct Hb as [Hb _]. destruct (Hb eq_refl) as [_ HF].
      rewrite Forall_forall in HF. destruct (HF binary Hin) as [? ?].
      destruct Hbad; congruence.
  - destruct (truthy path && host_exists h (default "" path)) eqn:Hbranch.
    + apply andb_true_iff in Hbranch as [Htruthy Hexists].
      destruct (macos_check_installed_spec h path t Htruthy Hexists)
        as (b & t1 & Heq & Hb & _ & Hfail).
      exists b, t1. split; [done|]. split; [|split; [|done]].
      * intros _ _ binary Hin Hbad. destruct b; [|done].
        destruct Hb as [Hb _]. pose proof (Hb eq_refl) as HF.
        rewrite Forall_forall in HF. destruct (HF binary Hin) as [[? ?] ?].
        destruct Hbad as [|[|]]; congruence.
      * done.
    + rewrite (macos_check_installed_global h path t Hbranch).
      destruct (macos_global_check_spec h t) as (b & t1 & Heq & Hb & _ & _ & Hfail).
      exists b, t1. split; [done|]. split; [|split; [|done]].
      * intros Htruthy Hexists. rewrite Htruthy, Hexists in Hbranch. done.
      * intros _ binary Hin Hbad. destruct b; [|done].
        destruct Hb as [Hb _]. pose proof (Hb eq_refl) as HF.
        rewrite Forall_forall in HF. by destruct (Hbad (HF binary Hin)).
Qed.

Lemma check_installed_never_raises_witness :
  (∃ b t1, Linux.check_installed Sample.hanging (Some "/opt/ffmpeg") []
           = (Ok b, [] ++ t1) ∧ b = false)
  ∧ (∃ b t1, MacOS.check_installed Sample.hanging (Some "/opt/ffmpeg") []
             = (Ok b, [] ++ t1) ∧ b = false)
  ∧ (∃ b t1, Linux.check_installed Sample.installed None [] = (Ok b, [] ++ t1)
             ∧ b = false)
  ∧ (∃ b t1, MacOS.check_installed Sample.installed None [] = (Ok b, [] ++ t1)
             ∧ b = false).
Proof.
  split; [|split; [|split]].
  - destruct (check_installed_never_raises Sample.hanging (Some "/opt/ffmpeg") [])
      as [(b & t1 & Heq & _ & Hbad & _) _].
    exists b, t1. split; [done|]. apply (Hbad "ffplay"); [by_compute|].
    right. by vm_compute.
  - destruct (check_installed_never_raises Sample.hanging (Some "/opt/ffmpeg") [])
      as [_ (b & t1 & Heq & Hbad & _)].
    exists b, t1. split; [done|].
    apply (Hbad eq_refl eq_refl "ffplay"); [by_compute|].
    right. right. by vm_compute.
  - destruct (check_installed_never_raises Sample.installed None [])
      as [(b & t1 & Heq & Hnone & _) _].
    exists b, t1. split; [done|]. by apply Hnone.
  - destruct (check_installed_never_raises Sample.installed None [])
      as [_ (b & t1 & Heq & _ & Hglobal & _)].
    exists b, t1. split; [done|].
    apply (Hglobal eq_refl "ffmpeg"); [by_compute | by vm_compute].
Defined.

(** ** Paths *)

Lemma relative_to_spec (p base r : path) :
  relative_to p base = Some r ↔ p = base ++ r.
Proof.
  revert p. induction base as [|b base IH]; intros p; simpl.
  - split; congruence.
  - destruct p as [|x p]; [done|]. case_decide as Hbx.
    + subst. rewrite IH. split; congruence.
    + split; [done|]. intros [= ? ?]. done.
Qed.

Lemma relative_to_app (base r : path) : relative_to (base ++ r) base = Some r.
Proof. by apply relative_to_spec. Qed.

Lemma relative_to_None (p base : path) :
  relative_to p base = None ↔ ∀ r, p ≠ base ++ r.
Proof.
  split.
  - intros HN r ->. by rewrite relative_to_app in HN.
  - intros Hne. destruct (relative_to p base) as [r|] eqn:Hr; [|done].
    apply relative_to_spec in Hr. by destruct (Hne r).
Qed.

Lemma under_spec (p q : path) : under p q = true ↔ ∃ r, q = p ++ r.
Proof.
  unfold under. rewrite bool_decide_eq_true. split.
  - intros [r Hr]. exists r. by apply relative_to_spec.
  - intros [r ->]. rewrite relative_to_app. by eexists.
Qed.

Lemma under_false (p q : path) : under p q = false ↔ ∀ r, q ≠ p ++ r.
Proof.
  rewrite <- not_true_iff_false, under_spec. split.
  - intros Hn r ->. apply Hn. by exists r.
  - intros Hn [r ->]. by apply (Hn r).
Qed.

Lemma under_refl (p : path) : under p p = true.
Proof. apply under_spec. exists []. by rewrite app_nil_r. Qed.

(** Two different children of a directory are not inside each other. *)
Lemma under_sibling (p : path) (x y : string) (q : path) :
  x ≠ y → under (p ++ [x]) q = true → under (p ++ [y]) q = false.
Proof.
  intros Hxy [r ->]%under_spec. apply under_false. intros r' Heq.
  rewrite <- !app_assoc in Heq. apply app_inv_head in Heq. by simplify_eq/=.
Qed.

(** ** [uninstall] *)

Lemma rmtree_lookup (p q : path) (s : fs) :
  filter (λ kv, under p kv.1 = false) s !! q
  = if under p q then None else s !! q.
Proof.
  destruct (under p q) eqn:Hu.
  - apply map_lookup_filter_None. right. intros x _. simpl. congruence.
  - destruct (s !! q) as [x|] eqn:Hq.
    + by apply map_lookup_filter_Some.
    + apply map_lookup_filter_None. by left.
Qed.

(** One round of the loop of [uninstall]. *)
Lemma uninstall_step (d : path) (s : fs) :
  is_file s d = false →
  ∃ s', (let! e := os_path_exists d in
         if e then shutil_rmtree d else ret tt) s = (Ok tt, s')
        ∧ (∀ q, s' !! q = if is_dir s d && under d q then None else s !! q)
        ∧ (s !! d = None → s' = s).
Proof.
  unfold is_file, is_dir, bind, os_path_exists, shutil_rmtree, ret.
  destruct (s !! d) as [[m c|]|] eqn:Hd; [done| |]; intros _.
  - rewrite bool_decide_eq_true_2 by by eexists. rewrite Hd.
    eexists. split; [done|]. split; [|done].
    intros q. by rewrite rmtree_lookup.
  - rewrite bool_decide_eq_false_2 by by intros [? ?].
    eexists. split; [done|]. split; [|done]. done.
Qed.

(** C8, as stated, fails when [bin] is a regular file: [os.path.exists]
    holds of it, [shutil.rmtree] raises, and the [lib] directory, which comes
    next, is never removed. *)
Lemma uninstall_counterexample :
  (∃ e s', LinuxHandler.uninstall ["home"] (Absolute Sample.install_path)
             Sample.file_at_bin = (Raise e, s')
           ∧ cls e = NotADirectoryError
           ∧ s' !! ["opt"; "ffmpeg"; "lib"] = Some Dir
           ∧ s' !! ["opt"; "ffmpeg"; "lib"; "libavcodec.so"]
             = Some (File 420 (Bytes "libavcodec")))
  ∧ (∃ e s', MacOSHandler.uninstall ["home"] (Absolute Sample.install_path)
               Sample.file_at_bin = (Raise e, s')
             ∧ cls e = NotADirectoryError
             ∧ s' !! ["opt"; "ffmpeg"; "lib"] = Some Dir
             ∧ s' !! ["opt"; "ffmpeg"; "lib"; "libavcodec.so"]
               = Some (File 420 (Bytes "libavcodec")))
  ∧ Sample.file_at_bin !! ["opt"; "ffmpeg"; "bin"] = Some (File 420 (Bytes "")).
Proof.
  split; [|split; [|done]];
    (eexists _, _; split; [apply outcome_and_state; by vm_compute | by vm_compute]).
Qed.

(** C8 (amended): when neither [bin] nor [lib] in the installation
    directory is a regular file, [uninstall] of both handlers returns; it has
    removed the [bin] and [lib] directories of the installation directory
    with all they hold, when they are there, and has left every other path as
    it was; when neither exists the file system is unchanged. *)
Theorem uninstall_removes_bin_and_lib (cwd : path) (install_path : pathname) (s : fs) :
  let inst := base cwd install_path in
  is_file s (inst ++ ["bin"]) = false →
  is_file s (inst ++ ["lib"]) = false →
  ∃ s',
    LinuxHandler.uninstall cwd install_path s = (Ok tt, s')
    ∧ MacOSHandler.uninstall cwd install_path s = (Ok tt, s')
    ∧ (∀ q, is_dir s (inst ++ ["bin"]) = true →
            under (inst ++ ["bin"]) q = true → s' !! q = None)
    ∧ (∀ q, is_dir s (inst ++ ["lib"]) = true →
            under (inst ++ ["lib"]) q = true → s' !! q = None)
    ∧ (∀ q, under (inst ++ ["bin"]) q = false →
            under (inst ++ ["lib"]) q = false → s' !! q = s !! q)
    ∧ (s !! (inst ++ ["bin"]) = None →
       s !! (inst ++ ["lib"]) = None → s' = s).
Proof.
  intros inst Hbin Hlib.
  unfold LinuxHandler.uninstall, MacOSHandler.uninstall.
  unfold Linux.uninstall, MacOS.uninstall, uninstall_dirs. fold inst. simpl.
  unfold bind at 1 5.
  destruct (uninstall_step (inst ++ ["bin"]) s Hbin)
    as (s1 & -> & Hs1 & Hid1).
  assert (s1 !! (inst ++ ["lib"]) = s !! (inst ++ ["lib"])) as Hl.
  { rewrite Hs1, (under_sibling inst "lib" "bin"); [|done|apply under_refl].
    by rewrite andb_false_r. }
  unfold bind at 1 3.
  destruct (uninstall_step (inst ++ ["lib"]) s1) as (s2 & -> & Hs2 & Hid2).
  { unfold is_file in *. by rewrite Hl. }
  assert (is_dir s1 (inst ++ ["lib"]) = is_dir s (inst ++ ["lib"]))
    as Hdl by (unfold is_dir; by rewrite Hl).
  exists s2. repeat split.
  - intros q Hd Hu. rewrite Hs2, Hs1, Hd, Hu. simpl. by destruct (_ && _).
  - intros q Hd Hu. by rewrite Hs2, Hdl, Hd, Hu.
  - intros q Hub Hul. by rewrite Hs2, Hs1, Hub, Hul, !andb_false_r.
  - intros Hb Hn. rewrite Hid2, Hid1; [done|done|]. by rewrite Hl.
Qed.

Lemma uninstall_removes_bin_and_lib_witness :
  ∃ s', LinuxHandler.uninstall ["tmp"; "dl"] (Relative ["old"]) (Sample.disk (Bytes ""))
        = (Ok tt, s')
        ∧ s' !! ["tmp"; "dl"; "old"; "bin"] = None
        ∧ s' !! ["tmp"; "dl"; "old"; "bin"; "tool"] = None
        ∧ s' !! ["tmp"; "dl"; "old"] = Some Dir
        ∧ s' !! Sample.download_path = Some (File 420 (Bytes "")).
Proof.
  destruct (uninstall_removes_bin_and_lib ["tmp"; "dl"] (Relative ["old"])
              (Sample.disk (Bytes "")))
    as (s' & Hl & _ & Hbin & _ & Hother & _); [by vm_compute | by vm_compute |].
  exists s'. split; [done|].
  split; [apply Hbin; by vm_compute|]. split; [apply Hbin; by vm_compute|].
  split; (rewrite Hother; by vm_compute).
Defined.

(** ** What a computation may do to the file system *)

(** [respects R m]: whatever its outcome, [m] takes a state to one related
    to it by the preorder [R]. *)
Section respects.
Context (R : relation fs) `{!PreOrder R}.

Definition respects {A : Type} (m : M fs A) : Prop := ∀ s, R s (m s).2.

Lemma respects_ret {A : Type} (a : A) : respects (ret a).
Proof. intros s. simpl. reflexivity. Qed.

Lemma respects_raise {A : Type} e : respects (@raise fs A e).
Proof. intros s. simpl. reflexivity. Qed.

Lemma respects_bind {A B : Type} (m : M fs A) (k : A → M fs B) :
  respects m → (∀ a, respects (k a)) → respects (bind m k).
Proof.
  intros Hm Hk s. unfold bind. specialize (Hm s).
  destruct (m s) as [[a|e] s1]; simpl in *; [|done].
  etrans; [exact Hm | apply Hk].
Qed.

Lemma respects_for_each {A : Type} (l : list A) (body : A → M fs unit) :
  (∀ x, respects (body x)) → respects (for_each l body).
Proof.
  intros Hbody. induction l as [|x l IH]; simpl.
  - apply respects_ret.
  - apply respects_bind; [apply Hbody | by intros _].
Qed.

Lemma respects_try_except {A : Type} (body : M fs A) cs handler :
  respects body → (∀ e, respects (handler e)) →
  respects (try_except body cs handler).
Proof.
  intros Hbody Hhandler s. unfold try_except. specialize (Hbody s).
  destruct (body s) as [[a|e] s1]; simpl in *; [done|].
  destruct (isinstance e cs); [|done].
  etrans; [exact Hbody | apply Hhandler].
Qed.

Lemma respects_os_walk fuel top body :
  (∀ root dirs files, respects (body root dirs files)) →
  respects (os_walk fuel top body).
Proof.
  intros Hbody. revert top. induction fuel as [|fuel IH]; intros top s; simpl.
  - destruct (scandir s top) as [[dirs files]|]; simpl; reflexivity.
  - destruct (scandir s top) as [[dirs files]|]; [|simpl; reflexivity].
    apply respects_bind; [apply Hbody|]. intros _.
    apply respects_for_each. intros d. apply IH.
Qed.

Lemma respects_unchanged {A : Type} (m : M fs A) :
  (∀ s, (m s).2 = s) → respects m.
Proof. intros Hm s. rewrite Hm. reflexivity. Qed.

End respects.

Lemma lookup_name_state (cur : path) (xs : list string) (s : fs) :
  (lookup_name cur xs s).2 = s.
Proof.
  revert cur. induction xs as [|x xs IH]; intros cur; simpl; [done|].
  destruct (s !! cur) as [[]|]; simpl; auto.
Qed.

Lemma name_exists_state (cur : path) (xs : list string) (s : fs) :
  (name_exists cur xs s).2 = s.
Proof.
  unfold name_exists, try_except, bind.
  pose proof (lookup_name_state cur xs s) as Hs.
  destruct (lookup_name cur xs s) as [[p|e] s']; simpl in Hs; subst s'; [done|].
  by destruct (isinstance e [OSError]).
Qed.

(** What [tarfile] does to the file system is made of the creation of
    directories, of writes and of changes of mode: it respects every
    preorder that these respect. *)
Definition respects_primitives (R : relation fs) : Prop :=
  (∀ p, respects R (os_makedirs p))
  ∧ (∀ target payload, respects R (write_file target payload))
  ∧ (∀ p mode, respects R (os_chmod p mode))
  ∧ (∀ (s : fs) (p : path), s !! p = None → R s (<[p := Dir]> s)).

Section tarfile_respects.
Context (R : relation fs) `{!PreOrder R}.

Lemma os_mkdir_respects (cur : path) (xs : list string) (x : string) :
  respects_primitives R → respects R (os_mkdir cur xs x).
Proof.
  intros (_ & _ & _ & Hmkdir) s. unfold os_mkdir, bind.
  pose proof (lookup_name_state cur xs s) as Hs.
  destruct (lookup_name cur xs s) as [[d|e] s']; simpl in Hs; subst s'; [|reflexivity].
  destruct (s !! d) as [[]|]; simpl; try reflexivity.
  destruct (_ || _) eqn:Hex; simpl; [reflexivity|].
  apply Hmkdir. apply orb_false_iff in Hex as [_ Hex].
  case_bool_decide as Hsome; [done|]. by apply eq_None_not_Some.
Qed.

Lemma makedirs_name_respects (cur : path) (rxs : list string) :
  respects_primitives R → respects R (makedirs_name cur rxs).
Proof.
  intros HR. induction rxs as [|tail rhead IH]; simpl.
  - apply respects_bind; [apply _|by apply respects_unchanged|].
    intros [|]; [apply respects_raise; apply _ | apply HR].
  - apply respects_bind;
      [apply _|apply respects_unchanged; [apply _|apply name_exists_state]|].
    intros [|]; [by apply os_mkdir_respects|].
    apply respects_bind; [apply _| |].
    + apply respects_try_except; [apply _|apply IH|].
      intros e. apply respects_ret; apply _.
    + intros _. case_bool_decide;
        [apply respects_ret; apply _|by apply os_mkdir_respects].
Qed.

Lemma open_name_respects (cur : path) (xs : list string) (x payload : string) :
  respects_primitives R → respects R (open_name cur xs x payload).
Proof.
  intros HR. unfold open_name.
  apply respects_bind;
    [apply _|apply respects_unchanged; [apply _|apply lookup_name_state]|].
  intros d. case_bool_decide.
  - apply respects_unchanged; [apply _|]. intros s. by destruct (s !! d) as [[]|].
  - apply respects_bind; [apply _|apply HR|]. intros _. apply respects_ret; apply _.
Qed.

Lemma tarfile_extract_respects (dest : path) (tarinfo : member) :
  respects_primitives R → respects R (tarfile_extract dest tarinfo).
Proof.
  intros HR. unfold tarfile_extract.
  destruct (rev (components (name tarinfo))) as [|x rupperdirs].
  - destruct (kind tarinfo); [apply respects_raise | apply respects_ret]; apply _.
  - apply respects_bind; [apply _| |].
    + apply respects_bind;
        [apply _|apply respects_unchanged; [apply _|apply name_exists_state]|].
      intros [|]; [apply respects_ret; apply _ | by apply makedirs_name_respects].
    + intros _. destruct (kind tarinfo) as [mode payload|mode].
      * apply respects_bind; [apply _|by apply open_name_respects|].
        intros target. apply HR.
      * apply respects_try_except; [apply _|by apply os_mkdir_respects|].
        intros e. apply respects_ret; apply _.
Qed.

Lemma restore_directory_mode_respects (dest : path) (tarinfo : member) :
  respects_primitives R → respects R (restore_directory_mode dest tarinfo).
Proof.
  intros HR. unfold restore_directory_mode.
  destruct (kind tarinfo) as [mode payload|mode]; [apply respects_ret; apply _|].
  apply respects_try_except; [apply _| |].
  - apply respects_bind;
      [apply _|apply respects_unchanged; [apply _|apply lookup_name_state]|].
    intros dirpath. apply HR.
  - intros e. apply respects_ret; apply _.
Qed.

Lemma tarfile_extractall_respects (dest : path) (members : list member) :
  respects_primitives R → respects R (tarfile_extractall dest members).
Proof.
  intros HR. unfold tarfile_extractall. apply respects_bind; [apply _| |].
  - apply respects_for_each; [apply _|]. intros tarinfo.
    by apply tarfile_extract_respects.
  - intros _. apply respects_for_each; [apply _|]. intros tarinfo.
    by apply restore_directory_mode_respects.
Qed.

End tarfile_respects.

(** Directories stay directories. *)
Definition dirs_preserved (s s' : fs) : Prop :=
  ∀ p, s !! p = Some Dir → s' !! p = Some Dir.

Global Instance dirs_preserved_preorder : PreOrder dirs_preserved.
Proof. split; [by intros s p | intros s1 s2 s3 H12 H23 p Hp; by apply H23, H12]. Qed.

(** Regular files stay regular files (their mode and content may change). *)
Definition files_preserved (s s' : fs) : Prop :=
  ∀ p, is_file s p = true → is_file s' p = true.

Global Instance files_preserved_preorder : PreOrder files_preserved.
Proof. split; [by intros s p | intros s1 s2 s3 H12 H23 p Hp; by apply H23, H12]. Qed.

Lemma is_dir_true (s : fs) p : is_dir s p = true ↔ s !! p = Some Dir.
Proof. unfold is_dir. by destruct (s !! p) as [[]|]. Qed.

Lemma is_file_true (s : fs) p : is_file s p = true ↔ ∃ m c, s !! p = Some (File m c).
Proof.
  unfold is_file. destruct (s !! p) as [[m c|]|]; split; try done; eauto.
  - by intros (? & ? & ?).
  - by intros (? & ? & ?).
Qed.

Lemma is_file_not_dir (s : fs) p : is_file s p = true → is_dir s p = false.
Proof. unfold is_file, is_dir. by destruct (s !! p) as [[]|]. Qed.

Section dirs_preserved.

Lemma mkdir_exist_ok_dirs goal q : respects dirs_preserved (mkdir_exist_ok goal q).
Proof.
  intros s p Hp. unfold mkdir_exist_ok.
  destruct (s !! q) as [[m c|]|] eqn:Hq; simpl; try done.
  destruct (decide (q = p)) as [->|Hne]; [congruence|].
  by rewrite lookup_insert_ne.
Qed.

Lemma os_makedirs_dirs p : respects dirs_preserved (os_makedirs p).
Proof. apply respects_for_each; [apply _|]. intros q. apply mkdir_exist_ok_dirs. Qed.

Lemma shutil_move_dirs src dst : respects dirs_preserved (shutil_move src dst).
Proof.
  intros s p Hp. unfold shutil_move, os_rename.
  destruct (s !! src) as [[m c|]|] eqn:Hsrc; simpl; try done.
  assert (src ≠ p) as Hsp by congruence.
  destruct (is_dir s dst) eqn:Hdst.
  - case_bool_decide as Hreal; simpl; [done|].
    destruct (is_dir s (os_path_dirname _)); simpl; [|done].
    rewrite lookup_insert_ne, lookup_delete_ne; [done..|].
    intros <-. apply Hreal. by eexists.
  - destruct (is_dir s (os_path_dirname _)); simpl; [|done].
    rewrite lookup_insert_ne, lookup_delete_ne; [done..|].
    intros <-. apply is_dir_true in Hp. congruence.
Qed.

Lemma os_chmod_dirs p mode : respects dirs_preserved (os_chmod p mode).
Proof.
  intros s q Hq. unfold os_chmod.
  destruct (s !! p) as [[m c|]|] eqn:Hp; simpl; try done.
  rewrite lookup_insert_ne; [done|]. congruence.
Qed.

Lemma os_remove_dirs p : respects dirs_preserved (os_remove p).
Proof.
  intros s q Hq. unfold os_remove.
  destruct (s !! p) as [[m c|]|] eqn:Hp; simpl; try done.
  rewrite lookup_delete_ne; [done|]. congruence.
Qed.

Lemma write_file_dirs target payload :
  respects dirs_preserved (write_file target payload).
Proof.
  intros s q Hq. unfold write_file.
  destruct (s !! target) as [[m c|]|] eqn:Hp; simpl; try done;
    destruct (s !! os_path_dirname target) as [[]|]; simpl; try done;
    rewrite lookup_insert_ne; try done; congruence.
Qed.

Lemma zipfile_extract_dirs dest m :
  respects dirs_preserved (zipfile_extract dest m).
Proof.
  unfold zipfile_extract. destruct (kind m); [|apply os_makedirs_dirs].
  apply respects_bind; [apply _|apply os_makedirs_dirs|].
  intros _. apply write_file_dirs.
Qed.

Lemma new_dir_dirs (s : fs) (p : path) :
  s !! p = None → dirs_preserved s (<[p := Dir]> s).
Proof. intros Hp q Hq. rewrite lookup_insert_ne; [done|]. congruence. Qed.

Lemma primitives_dirs : respects_primitives dirs_preserved.
Proof.
  split; [apply os_makedirs_dirs|]. split; [apply write_file_dirs|].
  split; [apply os_chmod_dirs | apply new_dir_dirs].
Qed.

Lemma tarfile_extract_dirs dest m : respects dirs_preserved (tarfile_extract dest m).
Proof. apply tarfile_extract_respects; [apply _|apply primitives_dirs]. Qed.

Lemma restore_directory_mode_dirs dest m :
  respects dirs_preserved (restore_directory_mode dest m).
Proof. apply restore_directory_mode_respects; [apply _|apply primitives_dirs]. Qed.

Lemma tarfile_extractall_dirs dest members :
  respects dirs_preserved (tarfile_extractall dest members).
Proof. apply tarfile_extractall_respects; [apply _|apply primitives_dirs]. Qed.

Lemma visit_dirs ex inst root dirs files :
  respects dirs_preserved (visit ex inst root dirs files).
Proof.
  unfold visit. destruct (relative_to root ex); [|apply respects_raise; apply _].
  repeat case_bool_decide.
  - apply respects_bind; [apply _|apply os_makedirs_dirs|]. intros _.
    apply respects_for_each; [apply _|]. intros file.
    apply respects_bind; [apply _|apply shutil_move_dirs|]. intros _.
    apply os_chmod_dirs.
  - apply respects_bind; [apply _|apply os_makedirs_dirs|]. intros _.
    apply respects_for_each; [apply _|]. intros file. apply shutil_move_dirs.
  - apply respects_ret; apply _.
Qed.

Lemma move_binaries_dirs dl inst : respects dirs_preserved (move_binaries dl inst).
Proof.
  intros s. unfold move_binaries.
  apply respects_os_walk; [apply _|]. intros. apply visit_dirs.
Qed.

Lemma clean_up_dirs dl : respects dirs_preserved (clean_up dl).
Proof.
  unfold clean_up. apply respects_bind; [apply _| |].
  - intros s. simpl. reflexivity.
  - intros [|]; [apply os_remove_dirs | apply respects_ret; apply _].
Qed.

Lemma linux_extract_dirs dl : respects dirs_preserved (Linux.extract dl).
Proof.
  unfold Linux.extract. apply respects_bind; [apply _| |].
  - intros s. unfold Linux.tarfile_open.
    destruct (s !! dl) as [[? []|]|]; simpl; reflexivity.
  - intros tar. destruct (filter _ tar) as [|member members];
      [apply respects_raise; apply _|].
    apply tarfile_extractall_dirs.
Qed.

Lemma macos_extract_dirs dl : respects dirs_preserved (MacOS.extract dl).
Proof.
  unfold MacOS.extract. apply respects_bind; [apply _| |].
  - intros s. unfold MacOS.zipfile_open.
    destruct (s !! dl) as [[? []|]|]; simpl; reflexivity.
  - intros infolist. apply respects_for_each; [apply _|]. intros m.
    destruct (selected _); [apply zipfile_extract_dirs | apply respects_ret; apply _].
Qed.

Lemma linux_install_dirs dl inst : respects dirs_preserved (Linux.install dl inst).
Proof.
  unfold Linux.install. apply respects_try_except; [apply _| |].
  - apply respects_bind; [apply _|apply linux_extract_dirs|]. intros _.
    apply respects_bind; [apply _|apply move_binaries_dirs|]. intros _.
    apply clean_up_dirs.
  - intros e. apply respects_raise; apply _.
Qed.

Lemma macos_install_dirs dl inst : respects dirs_preserved (MacOS.install dl inst).
Proof.
  unfold MacOS.install.
  apply respects_bind; [apply _|apply os_makedirs_dirs|]. intros _.
  apply respects_try_except; [apply _| |].
  - apply respects_bind; [apply _|apply macos_extract_dirs|]. intros _.
    apply respects_bind; [apply _|apply move_binaries_dirs|]. intros _.
    apply clean_up_dirs.
  - intros e. apply respects_raise; apply _.
Qed.

End dirs_preserved.

(** ** [install]: failures before the move *)

Lemma ancestors_self (p : path) : p ∈ ancestors p.
Proof.
  induction p as [|x p IH]; simpl; [by left|].
  right. apply list_elem_of_fmap. by exists p.
Qed.

Lemma ancestors_length (q p : path) : q ∈ ancestors p → (length q ≤ length p)%nat.
Proof.
  revert q. induction p as [|x p IH]; simpl; intros q.
  - intros ->%list_elem_of_singleton. done.
  - intros [->|Hin]%elem_of_cons; [simpl; lia|].
    apply list_elem_of_fmap in Hin as (q' & -> & Hq'). simpl.
    specialize (IH q' Hq'). lia.
Qed.

Lemma for_each_mkdir_ok (goal : path) (l : list path) (s s1 : fs) :
  for_each l (mkdir_exist_ok goal) s = (Ok tt, s1) →
  ∀ q, q ∈ l → s1 !! q = Some Dir.
Proof.
  revert s. induction l as [|x l IH]; intros s Hrun q Hq.
  - by apply elem_of_nil in Hq.
  - simpl in Hrun. unfold bind in Hrun.
    destruct (mkdir_exist_ok goal x s) as [[[]|e] s0] eqn:Hx; [|done].
    apply elem_of_cons in Hq as [->|Hq]; [|by eapply IH].
    assert (s0 !! x = Some Dir) as Hdir.
    { unfold mkdir_exist_ok in Hx.
      destruct (s !! x) as [[m c|]|] eqn:Hsx; simplify_eq; [done|].
      apply lookup_insert_eq. }
    pose proof (respects_for_each dirs_preserved l (mkdir_exist_ok goal)
                  (mkdir_exist_ok_dirs goal) s0) as Hpres.
    rewrite Hrun in Hpres. by apply Hpres.
Qed.

(** When [os.makedirs(p, exist_ok=True)] returns, [p] is a directory. *)
Lemma os_makedirs_is_dir (p : path) (s s1 : fs) :
  os_makedirs p s = (Ok tt, s1) → is_dir s1 p = true.
Proof.
  intros Hrun. apply is_dir_true.
  eapply for_each_mkdir_ok; [exact Hrun | apply ancestors_self].
Qed.



(** [LinuxHandler.install] on an archive without a selected member: the
    "no binaries" error, and nothing has been touched. *)
Lemma linux_install_without_binaries (download_path install_path : path) (s : fs)
    mode members :
  s !! download_path = Some (File mode (TarXz members)) →
  filter (λ m, selected (name m)) members = [] →
  Linux.install download_path install_path s
  = (Raise (Exn RuntimeError
             "Failed to install FFmpeg: No FFmpeg binaries found in archive"), s).
Proof.
  intros Hdl Hnone.
  unfold Linux.install, try_except, bind, Linux.extract, bind, Linux.tarfile_open.
  by rewrite Hdl, Hnone.
Qed.

Lemma linux_install_without_binaries_witness :
  Linux.install Sample.download_path Sample.install_path
    (Sample.disk (TarXz Sample.doc_only))
  = (Raise (Exn RuntimeError
             "Failed to install FFmpeg: No FFmpeg binaries found in archive"),
     Sample.disk (TarXz Sample.doc_only)).
Proof.
  apply (linux_install_without_binaries _ _ _ 420 Sample.doc_only); by vm_compute.
Defined.

(** C2 holds for [LinuxHandler] ([linux_install_without_binaries]) and fails
    for [MacOSHandler], which has no such check: on an archive without a
    selected member it extracts nothing, runs the move and the clean-up, and
    returns normally; with a [bin] directory already in the download
    directory it even creates [install_path/bin]. *)
Theorem macos_install_without_binaries :
  filter (λ m, selected (name m)) Sample.doc_only = []
  ∧ (∃ s', MacOS.install Sample.download_path Sample.install_path
             (Sample.clean_disk (ZipArchive Sample.doc_only)) = (Ok tt, s')
           ∧ s' !! Sample.download_path = None)
  ∧ (∃ s', MacOS.install Sample.download_path Sample.install_path
             (Sample.disk (ZipArchive Sample.doc_only)) = (Ok tt, s')
           ∧ s' !! (Sample.install_path ++ ["bin"]) = Some Dir).
Proof.
  split; [by vm_compute|]. split.
  - eexists. split; [apply outcome_and_state; by vm_compute|]. by vm_compute.
  - eexists. split; [apply outcome_and_state; by vm_compute|]. by vm_compute.
Qed.



(** ** Listing a directory *)

Lemma NoDup_omap_inj {A B : Type} (f : A → option B) (l : list A) :
  NoDup l →
  (∀ x y z, x ∈ l → y ∈ l → f x = Some z → f y = Some z → x = y) →
  NoDup (omap f l).
Proof.
  induction 1 as [|x l Hx Hl IH]; intros Hinj; simpl; [constructor|].
  destruct (f x) as [z|] eqn:Hfx.
  - constructor.
    + intros (y & Hy & Hfy)%list_elem_of_omap.
      assert (x = y) as -> by (eapply Hinj; [by left|by right|done..]). done.
    + apply IH. intros ?????. apply Hinj; by right.
  - apply IH. intros ?????. apply Hinj; by right.
Qed.

Lemma elem_of_entries (s : fs) (top : path) x n :
  (x, n) ∈ entries s top ↔ s !! (top ++ [x]) = Some n.
Proof.
  unfold entries. rewrite list_elem_of_omap. split.
  - intros ([p n'] & Hin & Hg). apply elem_of_map_to_list in Hin. simpl in Hg.
    destruct (relative_to p top) as [[|y [|]]|] eqn:Hrel; simplify_eq.
    apply relative_to_spec in Hrel. by subst.
  - intros Hs. exists (top ++ [x], n). split; [by apply elem_of_map_to_list|].
    simpl. by rewrite relative_to_app.
Qed.

Lemma NoDup_entries (s : fs) (top : path) : NoDup (entries s top).
Proof.
  apply NoDup_omap_inj; [apply NoDup_map_to_list|].
  intros [p1 n1] [p2 n2] [x n] H1 H2 Hg1 Hg2. simpl in *.
  destruct (relative_to p1 top) as [[|y1 [|]]|] eqn:Hr1; simplify_eq.
  destruct (relative_to p2 top) as [[|y2 [|]]|] eqn:Hr2; simplify_eq.
  apply relative_to_spec in Hr1, Hr2. by subst.
Qed.

(** What [os.walk] sees when it lists [top]. *)
Lemma scandir_spec (s : fs) (top : path) dirs files :
  scandir s top = Some (dirs, files) →
  is_dir s top = true
  ∧ NoDup dirs ∧ NoDup files
  ∧ (∀ x, x ∈ dirs ↔ s !! (top ++ [x]) = Some Dir)
  ∧ (∀ f, f ∈ files ↔ is_file s (top ++ [f]) = true).
Proof.
  unfold scandir. destruct (is_dir s top) eqn:Htop; [|done].
  intros [= <- <-]. split; [done|].
  assert (∀ x n1 n2, (x, n1) ∈ entries s top → (x, n2) ∈ entries s top → n1 = n2)
    as Hfun.
  { intros x n1 n2 H1%elem_of_entries H2%elem_of_entries. congruence. }
  unfold dir_names, file_names. repeat split.
  - apply NoDup_omap_inj; [apply NoDup_entries|].
    intros [x1 [|]] [x2 [|]] z H1 H2 ??; by simplify_eq/=.
  - apply NoDup_omap_inj; [apply NoDup_entries|].
    intros [x1 [m1 c1|]] [x2 [m2 c2|]] z H1 H2 ??; simplify_eq/=.
    by rewrite (Hfun _ _ _ H1 H2).
  - intros ([x' [|]] & Hin & ?)%list_elem_of_omap; simplify_eq/=.
    by apply elem_of_entries.
  - intros Hx. apply list_elem_of_omap. exists (x, Dir).
    split; [by apply elem_of_entries | done].
  - intros ([x' [m c|]] & Hin & ?)%list_elem_of_omap; simplify_eq/=.
    apply is_file_true. exists m, c. by apply elem_of_entries.
  - intros (m & c & Hf)%is_file_true. apply list_elem_of_omap.
    exists (f, File m c). split; [by apply elem_of_entries | done].
Qed.

Lemma scandir_None (s : fs) (top : path) :
  scandir s top = None ↔ is_dir s top = false.
Proof. unfold scandir. by destruct (is_dir s top). Qed.

(** ** [os.makedirs] *)

Lemma for_each_mkdir_spec (goal : path) (l : list path) (s : fs) :
  (∀ q, q ∈ l → is_file s q = false) →
  ∃ s', for_each l (mkdir_exist_ok goal) s = (Ok tt, s')
        ∧ ∀ p, s' !! p = s !! p
               ∨ (s !! p = None ∧ s' !! p = Some Dir ∧ p ∈ l).
Proof.
  revert s. induction l as [|q l IH]; intros s Hfree; simpl.
  - exists s. split; [done|]. by left.
  - unfold bind.
    assert (is_file s q = false) as Hq by (apply Hfree; by left).
    unfold is_file in Hq.
    destruct (s !! q) as [[m c|]|] eqn:Hsq; [done| |].
    + assert (mkdir_exist_ok goal q s = (Ok tt, s)) as ->
        by (unfold mkdir_exist_ok; by rewrite Hsq).
      destruct (IH s) as (s' & -> & Hs'); [intros; apply Hfree; by right|].
      exists s'. split; [done|]. intros p.
      destruct (Hs' p) as [?|(? & ? & ?)]; [by left|].
      right. repeat split; [done..|by right].
    + assert (mkdir_exist_ok goal q s = (Ok tt, <[q := Dir]> s)) as ->
        by (unfold mkdir_exist_ok; by rewrite Hsq).
      destruct (IH (<[q := Dir]> s)) as (s' & -> & Hs').
      { intros q' Hq'. unfold is_file.
        destruct (decide (q = q')) as [->|Hne].
        - by rewrite lookup_insert_eq.
        - rewrite lookup_insert_ne by done. apply Hfree. by right. }
      exists s'. split; [done|]. intros p.
      destruct (decide (q = p)) as [->|Hne].
      * right. destruct (Hs' p) as [Hp|(Hp & _ & _)];
          rewrite lookup_insert_eq in Hp; [|done].
        repeat split; [done..|by left].
      * destruct (Hs' p) as [Hp|(Hp & ? & ?)];
          rewrite lookup_insert_ne in Hp by done; [by left|].
        right. repeat split; [done..|by right].
Qed.

(** [os.makedirs(p, exist_ok=True)] succeeds when no regular file is in the
    way; it adds the missing directories and changes nothing else. *)
Lemma os_makedirs_spec (p : path) (s : fs) :
  (∀ q, q ∈ ancestors p → is_file s q = false) →
  ∃ s', os_makedirs p s = (Ok tt, s')
        ∧ is_dir s' p = true
        ∧ ∀ q, s' !! q = s !! q
               ∨ (s !! q = None ∧ s' !! q = Some Dir ∧ q ∈ ancestors p).
Proof.
  intros Hfree. destruct (for_each_mkdir_spec p (ancestors p) s Hfree)
    as (s' & Hrun & Hs').
  exists s'. split; [done|]. split; [|done]. by eapply os_makedirs_is_dir.
Qed.

(** Creating a directory that is there changes nothing. *)
Lemma os_makedirs_idempotent (p : path) (s s' : fs) :
  os_makedirs p s = (Ok tt, s') → os_makedirs p s' = (Ok tt, s').
Proof.
  intros Hrun. unfold os_makedirs in *.
  pose proof (for_each_mkdir_ok p (ancestors p) s s' Hrun) as Hdirs.
  clear Hrun. induction (ancestors p) as [|q l IH]; simpl; [done|].
  unfold bind.
  assert (mkdir_exist_ok p q s' = (Ok tt, s')) as ->.
  { unfold mkdir_exist_ok. rewrite (Hdirs q); [done | by left]. }
  apply IH. intros q' Hq'. apply Hdirs. by right.
Qed.

(** ** The move of the binaries *)

Definition SUBDIRS : list string := ["bin"; "lib"].

(** The mode a moved file ends with: [bin] files are made executable. *)
Definition final_mode (sub : string) (mode : Z) : Z :=
  if bool_decide (sub = "bin") then mode_0o755 else mode.

(** Every directory from [top] down to [top ++ rel] is there. *)
Fixpoint walkable (s : fs) (top rel : path) : bool :=
  is_dir s top
  && match rel with
     | [] => true
     | x :: rel' => walkable s (top ++ [x]) rel'
     end.

(** [d] is a directory below [extracted_dir] whose name, relative to it, is
    [sub]. *)
Definition source_dir (extracted_dir : path) (sub : string) (d : path) : Prop :=
  ∃ rel, relative_to d extracted_dir = Some rel ∧ path_name rel = sub.

(** Nothing is in the way at the destination: no regular file where
    [install_path/bin] or [install_path/lib] or one of their parents has to
    be, and no directory directly inside the two. *)
Definition destination_free (install_path : path) (s : fs) : bool :=
  forallb (λ sub,
    forallb (λ q, negb (is_file s q)) (ancestors (install_path ++ [sub]))
    && bool_decide (dir_names (entries s (install_path ++ [sub])) = []))
    SUBDIRS.

Definition bounded (B : nat) (s : fs) : Prop :=
  ∀ p, is_Some (s !! p) → (length p ≤ B)%nat.

Section move.
Context (ex inst : path).

(** [n] is what a file named [f] of a [sub] directory of [s] becomes in
    [install_path/sub]. *)
Definition landed (sub : string) (s : fs) (f : string) (n : node) : Prop :=
  ∃ d m c, source_dir ex sub d
           ∧ s !! (d ++ [f]) = Some (File m c)
           ∧ n = File (final_mode sub m) c.

(** What the move may do to the file system between two of its steps. *)
Record step (s s' : fs) : Prop := Step {
  step_dirs : ∀ p, s !! p = Some Dir → s' !! p = Some Dir;
  step_new_dirs : ∀ p, s' !! p = Some Dir →
    s !! p = Some Dir ∨ ∃ sub, sub ∈ SUBDIRS ∧ p ∈ ancestors (inst ++ [sub]);
  step_files : ∀ p m c, s' !! p = Some (File m c) →
    s !! p = Some (File m c)
    ∨ ∃ sub f, sub ∈ SUBDIRS ∧ p = inst ++ [sub; f] ∧ landed sub s f (File m c);
  step_dest : ∀ sub f, sub ∈ SUBDIRS →
    is_file s (inst ++ [sub; f]) = true → is_file s' (inst ++ [sub; f]) = true
}.

Definition safe (s : fs) : Prop :=
  (∀ sub q, sub ∈ SUBDIRS → q ∈ ancestors (inst ++ [sub]) → is_file s q = false)
  ∧ (∀ sub f, sub ∈ SUBDIRS → is_dir s (inst ++ [sub; f]) = false).

Lemma subdirs_nonempty sub : sub ∈ SUBDIRS → sub ≠ "".
Proof. unfold SUBDIRS. set_unfold. intuition congruence. Qed.

Lemma path_name_snoc (p : path) x : path_name (p ++ [x]) = x.
Proof. apply List.last_last. Qed.

Lemma path_name_app (p q : path) : q ≠ [] → path_name (p ++ q) = path_name q.
Proof.
  intros Hq. destruct (exists_last Hq) as (q' & x & ->).
  by rewrite app_assoc, !path_name_snoc.
Qed.

Lemma source_dir_name sub d : sub ≠ "" → source_dir ex sub d → path_name d = sub.
Proof.
  intros Hsub (rel & Hrel%relative_to_spec & Hname). subst d.
  rewrite path_name_app; [done|]. intros ->. by simpl in Hname.
Qed.

Lemma source_dir_not_root sub : sub ≠ "" → ¬ source_dir ex sub ex.
Proof.
  intros Hsub (rel & Hrel%relative_to_spec & Hname).
  rewrite <- (app_nil_r ex) in Hrel at 1. apply app_inv_head in Hrel.
  subst rel. by simpl in Hname.
Qed.

Lemma dest_snoc sub f : inst ++ [sub; f] = (inst ++ [sub]) ++ [f].
Proof. by rewrite <- app_assoc. Qed.

Lemma dest_inj sub f sub' f' :
  inst ++ [sub; f] = inst ++ [sub'; f'] → sub = sub' ∧ f = f'.
Proof. intros H%app_inv_head. by simplify_eq. Qed.

(** A file of a source directory that sits at a destination path sits in
    the destination directory of its own kind. *)
Lemma source_at_dest sub d f sub' f' :
  sub ∈ SUBDIRS → source_dir ex sub d →
  d ++ [f] = inst ++ [sub'; f'] → d = inst ++ [sub] ∧ sub' = sub ∧ f' = f.
Proof.
  intros Hsub Hd Heq. rewrite dest_snoc in Heq.
  apply app_inj_tail in Heq as [-> ->].
  apply source_dir_name in Hd; [|by apply subdirs_nonempty].
  rewrite path_name_snoc in Hd. by subst.
Qed.

Lemma dest_not_ancestor sub f sub' : inst ++ [sub; f] ∉ ancestors (inst ++ [sub']).
Proof.
  intros H%ancestors_length. rewrite !length_app in H. simpl in H. lia.
Qed.

Lemma final_mode_idemp sub m : final_mode sub (final_mode sub m) = final_mode sub m.
Proof. unfold final_mode. by case_bool_decide. Qed.

Lemma landed_mono sub s s' f n :
  sub ∈ SUBDIRS → step s s' → landed sub s' f n → landed sub s f n.
Proof.
  intros Hsub Hstep (d & m & c & Hd & Hf & ->).
  destruct (step_files _ _ Hstep _ _ _ Hf)
    as [Hs | (sub' & f' & Hsub' & Heq & (d1 & m1 & c1 & Hd1 & Hf1 & Hn))].
  - by exists d, m, c.
  - destruct (source_at_dest _ _ _ _ _ Hsub Hd Heq) as (_ & -> & ->).
    simplify_eq. exists d1, m1, c1. by rewrite final_mode_idemp.
Qed.

Global Instance step_preorder : PreOrder step.
Proof.
  split.
  - intros s. split; auto.
  - intros s1 s2 s3 H12 H23. split.
    + intros p Hp. by apply H23, H12.
    + intros p Hp. destruct (step_new_dirs _ _ H23 _ Hp) as [Hp2|?]; [|by right].
      by apply (step_new_dirs _ _ H12).
    + intros p m c Hp.
      destruct (step_files _ _ H23 _ _ _ Hp) as [Hp2|(sub & f & Hsub & -> & Hl)].
      * by apply (step_files _ _ H12).
      * right. exists sub, f. repeat split; [done|]. by eapply landed_mono.
    + intros sub f Hsub Hf. by apply H23, H12.
Qed.

Lemma safe_step s s' : safe s → step s s' → safe s'.
Proof.
  intros [Hfree Hnodir] Hstep. split.
  - intros sub q Hsub Hq. destruct (is_file s' q) eqn:Hfile; [|done].
    apply is_file_true in Hfile as (m & c & Hfile).
    destruct (step_files _ _ Hstep _ _ _ Hfile) as [Hs|(sub' & f & _ & -> & _)].
    + specialize (Hfree sub q Hsub Hq). unfold is_file in Hfree.
      by rewrite Hs in Hfree.
    + by apply dest_not_ancestor in Hq.
  - intros sub f Hsub. destruct (is_dir s' _) eqn:Hdir; [|done].
    apply is_dir_true in Hdir.
    destruct (step_new_dirs _ _ Hstep _ Hdir) as [Hs|(sub' & _ & Hq)].
    + apply is_dir_true in Hs. by rewrite Hnodir in Hs.
    + by apply dest_not_ancestor in Hq.
Qed.

Lemma bounded_step B s s' :
  (length inst + 2 ≤ B)%nat → bounded B s → step s s' → bounded B s'.
Proof.
  intros HB Hb Hstep p [[m c|] Hp].
  - destruct (step_files _ _ Hstep _ _ _ Hp) as [Hs|(sub & f & _ & -> & _)].
    + apply Hb. by eexists.
    + rewrite length_app. simpl. lia.
  - destruct (step_new_dirs _ _ Hstep _ Hp) as [Hs|(sub & _ & Hq)].
    + apply Hb. by eexists.
    + apply ancestors_length in Hq. rewrite length_app in Hq. simpl in Hq. lia.
Qed.

(** A file that has landed stays, or is replaced by another that landed. *)
Lemma landed_persist sub f s0 s1 s2 :
  sub ∈ SUBDIRS → step s0 s1 → step s1 s2 →
  (∃ n, s1 !! (inst ++ [sub; f]) = Some n ∧ landed sub s0 f n) →
  ∃ n, s2 !! (inst ++ [sub; f]) = Some n ∧ landed sub s0 f n.
Proof.
  intros Hsub H01 H12 (n & Hn & Hl).
  assert (is_file s2 (inst ++ [sub; f]) = true) as (m & c & Hf)%is_file_true.
  { apply (step_dest _ _ H12); [done|]. apply is_file_true.
    destruct Hl as (? & ? & ? & _ & _ & ->). by eauto. }
  exists (File m c). split; [done|].
  destruct (step_files _ _ H12 _ _ _ Hf) as [Hs|(sub' & f' & Hsub' & Heq & Hl')].
  - by simplify_eq.
  - apply dest_inj in Heq as [<- <-]. by eapply landed_mono.
Qed.

(** A path that is free stays free, unless the move needs it. *)
Lemma gone_persist p s s' :
  step s s' → s !! p = None →
  (∀ sub, sub ∈ SUBDIRS → p ∉ ancestors (inst ++ [sub])) →
  (∀ sub f, sub ∈ SUBDIRS → p ≠ inst ++ [sub; f]) →
  s' !! p = None.
Proof.
  intros Hstep Hp Hanc Hdest. destruct (s' !! p) as [[m c|]|] eqn:Hp'; [| |done].
  - destruct (step_files _ _ Hstep _ _ _ Hp') as [?|(sub & f & ? & ? & _)];
      [congruence|]. by destruct (Hdest sub f).
  - destruct (step_new_dirs _ _ Hstep _ Hp') as [?|(sub & ? & ?)];
      [congruence|]. by destruct (Hanc sub).
Qed.

(** *** One file *)

Lemma shutil_move_file (src dst : path) (m : Z) (c : content) (s : fs) :
  s !! src = Some (File m c) → is_dir s dst = false →
  is_dir s (os_path_dirname dst) = true →
  shutil_move src dst s = (Ok tt, <[dst := File m c]> (delete src s)).
Proof.
  intros Hsrc Hdst Hparent. unfold shutil_move, os_rename.
  by rewrite Hsrc, Hdst, Hparent.
Qed.

Lemma shutil_move_chmod (src dst : path) (m : Z) (c : content) (mode : Z) (s : fs) :
  s !! src = Some (File m c) → is_dir s dst = false →
  is_dir s (os_path_dirname dst) = true →
  (shutil_move src dst ;;; os_chmod dst mode) s
  = (Ok tt, <[dst := File mode c]> (delete src s)).
Proof.
  intros Hsrc Hdst Hparent. unfold bind.
  rewrite (shutil_move_file _ _ m c) by done.
  unfold os_chmod. rewrite lookup_insert_eq. by rewrite insert_insert_eq.
Qed.

Lemma dirname_dest sub f : os_path_dirname (inst ++ [sub; f]) = inst ++ [sub].
Proof. rewrite dest_snoc. apply removelast_last. Qed.

Lemma moved_step (sub : string) (root : path) (f : string) (m : Z) (c : content)
    (s : fs) :
  sub ∈ SUBDIRS → source_dir ex sub root → safe s →
  s !! (root ++ [f]) = Some (File m c) →
  step s (<[inst ++ [sub; f] := File (final_mode sub m) c]> (delete (root ++ [f]) s)).
Proof.
  intros Hsub Hroot [Hfree Hnodir] Hsrc. split.
  - intros p Hp. rewrite lookup_insert_ne, lookup_delete_ne; [done| |].
    + congruence.
    + intros <-. apply is_dir_true in Hp. by rewrite Hnodir in Hp.
  - intros p Hp. left. destruct (decide (inst ++ [sub; f] = p)) as [<-|Hne].
    + by rewrite lookup_insert_eq in Hp.
    + rewrite lookup_insert_ne in Hp by done.
      by apply lookup_delete_Some in Hp as [_ ?].
  - intros p m' c' Hp. destruct (decide (inst ++ [sub; f] = p)) as [<-|Hne].
    + rewrite lookup_insert_eq in Hp. injection Hp as <- <-.
      right. exists sub, f. repeat split; [done|]. by exists root, m, c.
    + rewrite lookup_insert_ne in Hp by done.
      apply lookup_delete_Some in Hp as [_ ?]. by left.
  - intros sub' f' Hsub' Hfile. unfold is_file.
    destruct (decide (inst ++ [sub; f] = inst ++ [sub'; f'])) as [<-|Hne].
    + by rewrite lookup_insert_eq.
    + rewrite lookup_insert_ne, lookup_delete_ne; [done| |done].
      intros Heq. apply Hne.
      destruct (source_at_dest _ _ _ _ _ Hsub Hroot Heq) as (_ & -> & ->). done.
Qed.

(** *** One directory *)

Lemma move_loop (sub : string) (root : path) (body : string → M fs unit) :
  sub ∈ SUBDIRS → source_dir ex sub root →
  (∀ (f : string) (m : Z) (c : content) (s : fs),
     s !! (root ++ [f]) = Some (File m c) →
     is_dir s (inst ++ [sub; f]) = false → is_dir s (inst ++ [sub]) = true →
     body f s = (Ok tt, <[inst ++ [sub; f] := File (final_mode sub m) c]>
                          (delete (root ++ [f]) s))) →
  ∀ (files : list string) (s : fs),
    safe s → is_dir s (inst ++ [sub]) = true → NoDup files →
    (∀ f, f ∈ files → is_file s (root ++ [f]) = true) →
    ∃ s', for_each files body s = (Ok tt, s')
          ∧ step s s'
          ∧ (∀ f, f ∈ files →
               ∃ n, s' !! (inst ++ [sub; f]) = Some n ∧ landed sub s f n)
          ∧ (∀ f, f ∈ files → root ≠ inst ++ [sub] → s' !! (root ++ [f]) = None)
          ∧ (∀ p, (∀ f, f ∈ files → p ≠ root ++ [f]) →
                  (∀ f, f ∈ files → p ≠ inst ++ [sub; f]) → s' !! p = s !! p).
Proof.
  intros Hsub Hroot Hbody files.
  induction files as [|f files IH]; intros s Hsafe Hdir Hnodup Hfiles; simpl.
  - exists s. split; [done|]. split; [reflexivity|].
    repeat split; try done; intros f0 Hf0; by apply elem_of_nil in Hf0.
  - apply NoDup_cons in Hnodup as [Hf Hnodup].
    assert (is_file s (root ++ [f]) = true) as (m & c & Hsrc)%is_file_true
      by (apply Hfiles; by left).
    unfold bind. rewrite (Hbody f m c s Hsrc); [|by apply Hsafe|done].
    set (s1 := <[inst ++ [sub; f] := File (final_mode sub m) c]>
                 (delete (root ++ [f]) s)).
    assert (step s s1) as Hstep1 by by apply moved_step.
    assert (∀ f', f' ∈ files → inst ++ [sub; f] ≠ root ++ [f']) as Hdst_src.
    { intros f' Hf' Heq. symmetry in Heq.
      destruct (source_at_dest _ _ _ _ _ Hsub Hroot Heq) as (_ & _ & ->). done. }
    destruct (IH s1) as (s' & -> & Hstep2 & Hmain & Hgone & Hframe).
    { by eapply safe_step. }
    { apply is_dir_true. apply (step_dirs _ _ Hstep1). by apply is_dir_true. }
    { done. }
    { intros f' Hf'.
      assert (is_file s (root ++ [f']) = true) as Hs by (apply Hfiles; by right).
      unfold is_file, s1 in *.
      destruct (decide (inst ++ [sub; f] = root ++ [f'])) as [<-|Hne].
      - by rewrite lookup_insert_eq.
      - rewrite lookup_insert_ne, lookup_delete_ne; [done| |done].
        intros [= ->]%app_inv_head. done. }
    exists s'. split; [done|]. split; [by etrans|]. repeat split.
    + intros f0 [->|Hf0]%elem_of_cons.
      * exists (File (final_mode sub m) c). split; [|by exists root, m, c].
        rewrite Hframe; [by apply lookup_insert_eq|done|].
        intros f' Hf' [_ ->]%dest_inj. done.
      * destruct (Hmain f0 Hf0) as (n & Hn & Hl). exists n. split; [done|].
        by eapply landed_mono.
    + intros f0 [->|Hf0]%elem_of_cons Hne; [|by apply Hgone].
      rewrite Hframe.
      * unfold s1. rewrite lookup_insert_ne, lookup_delete_eq; [done|].
        intros Heq. symmetry in Heq.
        by destruct (source_at_dest _ _ _ _ _ Hsub Hroot Heq) as (? & _).
      * intros f' Hf' [= ->]%app_inv_head. done.
      * intros f' Hf' Heq.
        by destruct (source_at_dest _ _ _ _ _ Hsub Hroot Heq) as (? & _).
    + intros p Hsrc_ne Hdst_ne. rewrite Hframe.
      * unfold s1. rewrite lookup_insert_ne, lookup_delete_ne; [done|..].
        -- intros <-. by apply (Hsrc_ne f); [left|].
        -- intros <-. by apply (Hdst_ne f); [left|].
      * intros f' Hf'. apply Hsrc_ne. by right.
      * intros f' Hf'. apply Hdst_ne. by right.
Qed.

Lemma makedirs_step (sub : string) (s : fs) :
  sub ∈ SUBDIRS → safe s →
  ∃ s', os_makedirs (inst ++ [sub]) s = (Ok tt, s')
        ∧ step s s'
        ∧ is_dir s' (inst ++ [sub]) = true
        ∧ (∀ p m c, s' !! p = Some (File m c) ↔ s !! p = Some (File m c)).
Proof.
  intros Hsub [Hfree Hnodir].
  destruct (os_makedirs_spec (inst ++ [sub]) s) as (s' & Hrun & Hdir & Hs').
  { intros q Hq. by apply (Hfree sub). }
  exists s'. split; [done|].
  assert (∀ p m c, s' !! p = Some (File m c) ↔ s !! p = Some (File m c)) as Hfiles.
  { intros p m c. destruct (Hs' p) as [->|(Hnone & Hnew & _)]; [done|].
    rewrite Hnone, Hnew. done. }
  split; [|done]. split.
  - intros p Hp. destruct (Hs' p) as [->|(? & ? & _)]; congruence.
  - intros p Hp. destruct (Hs' p) as [<-|(? & ? & ?)]; [by left|].
    right. by exists sub.
  - intros p m c Hp. left. by apply Hfiles.
  - intros sub' f Hsub' (m & c & Hf)%is_file_true. apply is_file_true.
    exists m, c. by apply Hfiles.
Qed.

Lemma child_dec (p d : path) : (∃ f, p = d ++ [f]) ∨ (∀ f, p ≠ d ++ [f]).
Proof.
  destruct (relative_to p d) as [[|f [|g r]]|] eqn:Hrel.
  - right. intros f ->. by rewrite relative_to_app in Hrel.
  - left. exists f. by apply relative_to_spec.
  - right. intros f' ->. by rewrite relative_to_app in Hrel.
  - right. intros f ->. by rewrite relative_to_app in Hrel.
Qed.

(** [os.makedirs(install_path/sub)] and the loop over the files of a
    [sub] directory. *)
Lemma visit_branch (sub : string) (top : path) (body : string → M fs unit)
    (files : list string) (s : fs) :
  sub ∈ SUBDIRS → source_dir ex sub top →
  (∀ (f : string) (m : Z) (c : content) (s : fs),
     s !! (top ++ [f]) = Some (File m c) →
     is_dir s (inst ++ [sub; f]) = false → is_dir s (inst ++ [sub]) = true →
     body f s = (Ok tt, <[inst ++ [sub; f] := File (final_mode sub m) c]>
                          (delete (top ++ [f]) s))) →
  safe s → NoDup files →
  (∀ f, f ∈ files ↔ is_file s (top ++ [f]) = true) →
  ∃ s', (os_makedirs (inst ++ [sub]) ;;; for_each files body) s = (Ok tt, s')
        ∧ step s s'
        ∧ (∀ p, is_file s p = true → is_file s' p = true ∨ ∃ f, p = top ++ [f])
        ∧ is_dir s' (inst ++ [sub]) = true
        ∧ (∀ f, is_file s (top ++ [f]) = true →
             (∃ n, s' !! (inst ++ [sub; f]) = Some n ∧ landed sub s f n)
             ∧ (top ≠ inst ++ [sub] → s' !! (top ++ [f]) = None)).
Proof.
  intros Hsub Htop Hbody Hsafe Hnodup Hfiles. unfold bind.
  destruct (makedirs_step sub s Hsub Hsafe) as (s0 & -> & Hstep0 & Hdir0 & Hfiles0).
  assert (∀ p, is_file s0 p = is_file s p) as Hsame.
  { intros p. unfold is_file.
    destruct (s0 !! p) as [[m c|]|] eqn:H0.
    - apply Hfiles0 in H0. by rewrite H0.
    - destruct (s !! p) as [[m c|]|] eqn:Hp; [|done..].
      apply Hfiles0 in Hp. congruence.
    - destruct (s !! p) as [[m c|]|] eqn:Hp; [|done..].
      apply Hfiles0 in Hp. congruence. }
  destruct (move_loop sub top body Hsub Htop Hbody files s0)
    as (s' & -> & Hstep1 & Hmain & Hgone & Hframe).
  { by eapply safe_step. }
  { done. }
  { done. }
  { intros f Hf. rewrite Hsame. by apply Hfiles. }
  assert (step s s') as Hstep by by etrans.
  exists s'. split; [done|]. split; [done|]. split; [|split].
  - intros p Hp. destruct (child_dec p top) as [?|Hnot_src]; [by right|]. left.
    destruct (child_dec p (inst ++ [sub])) as [[f ->]|Hnot_dst].
    + rewrite <- dest_snoc in *. by apply (step_dest _ _ Hstep).
    + unfold is_file. rewrite Hframe.
      * fold (is_file s0 p). by rewrite Hsame.
      * intros f _. apply Hnot_src.
      * intros f _. rewrite dest_snoc. apply Hnot_dst.
  - apply is_dir_true, (step_dirs _ _ Hstep1). by apply is_dir_true.
  - intros f Hf. assert (f ∈ files) as Hin by by apply Hfiles. split.
    + destruct (Hmain f Hin) as (n & Hn & Hl). exists n. split; [done|].
      by apply (landed_mono sub s s0).
    + intros Hne. by apply Hgone.
Qed.

Lemma body_bin_spec (top : path) (f : string) (m : Z) (c : content) (s : fs) :
  s !! (top ++ [f]) = Some (File m c) →
  is_dir s (inst ++ ["bin"; f]) = false → is_dir s (inst ++ ["bin"]) = true →
  (shutil_move (top ++ [f]) (inst ++ ["bin"; f]) ;;;
   os_chmod (inst ++ ["bin"; f]) mode_0o755) s
  = (Ok tt, <[inst ++ ["bin"; f] := File (final_mode "bin" m) c]>
              (delete (top ++ [f]) s)).
Proof.
  intros Hsrc Hdst Hdir.
  rewrite (shutil_move_chmod _ _ m c); [done..|]. by rewrite dirname_dest.
Qed.

Lemma body_lib_spec (top : path) (f : string) (m : Z) (c : content) (s : fs) :
  s !! (top ++ [f]) = Some (File m c) →
  is_dir s (inst ++ ["lib"; f]) = false → is_dir s (inst ++ ["lib"]) = true →
  shutil_move (top ++ [f]) (inst ++ ["lib"; f]) s
  = (Ok tt, <[inst ++ ["lib"; f] := File (final_mode "lib" m) c]>
              (delete (top ++ [f]) s)).
Proof.
  intros Hsrc Hdst Hdir.
  rewrite (shutil_move_file _ _ m c); [done..|]. by rewrite dirname_dest.
Qed.

(** The body of the walk at one directory. *)
Lemma visit_spec (top : path) (dirs files : list string) (s : fs) :
  safe s → under ex top = true → NoDup files →
  (∀ f, f ∈ files ↔ is_file s (top ++ [f]) = true) →
  ∃ s', visit ex inst top dirs files s = (Ok tt, s')
        ∧ step s s'
        ∧ (∀ p, is_file s p = true → is_file s' p = true ∨ ∃ f, p = top ++ [f])
        ∧ (∀ sub f, sub ∈ SUBDIRS → source_dir ex sub top →
             is_file s (top ++ [f]) = true →
             (∃ n, s' !! (inst ++ [sub; f]) = Some n ∧ landed sub s f n)
             ∧ (top ≠ inst ++ [sub] → s' !! (top ++ [f]) = None)
             ∧ is_dir s' (inst ++ [sub]) = true).
Proof.
  intros Hsafe [rel Hrel]%under_spec Hnodup Hfiles.
  apply (proj2 (relative_to_spec _ _ _)) in Hrel.
  assert (∀ sub, source_dir ex sub top → sub = path_name rel) as Hname.
  { intros sub (rel' & Hrel' & <-). congruence. }
  unfold visit. rewrite Hrel. cbv zeta.
  case_bool_decide as Hbin; [|case_bool_decide as Hlib].
  - rewrite Hbin.
    assert ("bin" ∈ SUBDIRS) as Hsub by (unfold SUBDIRS; set_unfold; tauto).
    assert (source_dir ex "bin" top) as Htop by by exists rel.
    destruct (visit_branch "bin" top _ files s Hsub Htop (body_bin_spec top)
                Hsafe Hnodup Hfiles)
      as (s' & Hrun & Hstep & Hframe & Hdir & Hmain).
    exists s'. split; [exact Hrun|]. split; [done|]. split; [done|].
    intros sub f _ ->%Hname Hf. rewrite Hbin.
    destruct (Hmain f Hf) as [? ?]. done.
  - rewrite Hlib.
    assert ("lib" ∈ SUBDIRS) as Hsub by (unfold SUBDIRS; set_unfold; tauto).
    assert (source_dir ex "lib" top) as Htop by by exists rel.
    destruct (visit_branch "lib" top _ files s Hsub Htop (body_lib_spec top)
                Hsafe Hnodup Hfiles)
      as (s' & Hrun & Hstep & Hframe & Hdir & Hmain).
    exists s'. split; [exact Hrun|]. split; [done|]. split; [done|].
    intros sub f _ ->%Hname Hf. rewrite Hlib.
    destruct (Hmain f Hf) as [? ?]. done.
  - exists s. split; [done|]. split; [reflexivity|]. split; [by left|].
    intros sub f Hsub ->%Hname _. exfalso.
    unfold SUBDIRS in Hsub. set_unfold. tauto.
Qed.

(** *** The whole tree *)

Lemma walkable_is_dir (s : fs) (top rel : path) :
  walkable s top rel = true → is_dir s top = true.
Proof. destruct rel; simpl; by intros [? _]%andb_true_iff. Qed.

Lemma walkable_step (s s' : fs) (top rel : path) :
  step s s' → walkable s top rel = true → walkable s' top rel = true.
Proof.
  intros Hstep. revert top. induction rel as [|x rel IH]; intros top; simpl.
  - rewrite !andb_true_r, !is_dir_true. apply (step_dirs _ _ Hstep).
  - rewrite !andb_true_iff, !is_dir_true. intros [Htop Hrest].
    split; [by apply (step_dirs _ _ Hstep) | by apply IH].
Qed.

Lemma under_trans (p q r : path) :
  under p q = true → under q r = true → under p r = true.
Proof.
  intros [a ->]%under_spec [b ->]%under_spec. apply under_spec.
  exists (a ++ b). by rewrite app_assoc.
Qed.

Lemma under_child (p : path) x : under p (p ++ [x]) = true.
Proof. apply under_spec. by exists [x]. Qed.

(** What the walk of the tree below [top] achieves for the files of its
    [bin] and [lib] directories. *)
Definition walk_main (top : path) (s s' : fs) : Prop :=
  ∀ sub rel f, sub ∈ SUBDIRS → walkable s top rel = true →
    source_dir ex sub (top ++ rel) → is_file s ((top ++ rel) ++ [f]) = true →
    (∃ n, s' !! (inst ++ [sub; f]) = Some n ∧ landed sub s f n)
    ∧ (top ++ rel ≠ inst ++ [sub] → s' !! ((top ++ rel) ++ [f]) = None)
    ∧ is_dir s' (inst ++ [sub]) = true.

Definition walk_post (top : path) (s s' : fs) : Prop :=
  step s s'
  ∧ (∀ p, is_file s p = true →
       is_file s' p = true ∨ ∃ d f, p = d ++ [f] ∧ under top d = true)
  ∧ walk_main top s s'.

Definition walk_ok (n : nat) : Prop :=
  ∀ (top : path) (s : fs) (B : nat),
    safe s → under ex top = true → bounded B s →
    (length inst + 2 ≤ B)%nat → (B < n + length top)%nat →
    ∃ s', os_walk n top (visit ex inst) s = (Ok tt, s') ∧ walk_post top s s'.

(** A source file is neither on the way to the destination nor, unless
    its directory is the destination, at a destination path. *)
Lemma source_gone_persist (sub : string) (d : path) (f : string) (s0 s s' : fs) :
  sub ∈ SUBDIRS → safe s0 → source_dir ex sub d →
  is_file s0 (d ++ [f]) = true → d ≠ inst ++ [sub] →
  step s s' → s !! (d ++ [f]) = None → s' !! (d ++ [f]) = None.
Proof.
  intros Hsub [Hfree _] Hd Hfile Hne Hstep Hnone.
  eapply gone_persist; [exact Hstep|done|..].
  - intros sub' Hsub' Hanc. by rewrite (Hfree sub' _ Hsub' Hanc) in Hfile.
  - intros sub' f' Hsub' Heq.
    by destruct (source_at_dest _ _ _ _ _ Hsub Hd Heq) as (? & _).
Qed.

(** What has been achieved is not undone by the rest of the walk. *)
Lemma walk_main_persist (top : path) (s0 s1 s2 : fs) :
  safe s0 → step s0 s1 → step s1 s2 →
  walk_main top s0 s1 → walk_main top s0 s2.
Proof.
  intros Hsafe H01 H12 Hmain sub rel f Hsub Hwalk Hsrc Hfile.
  destruct (Hmain sub rel f Hsub Hwalk Hsrc Hfile) as (Hl & Hgone & Hdir).
  split; [|split].
  - by apply (landed_persist sub f s0 s1 s2).
  - intros Hne. by apply (source_gone_persist sub _ f s0 s1 s2); [..|apply Hgone].
  - apply is_dir_true, (step_dirs _ _ H12). by apply is_dir_true.
Qed.

(** The loop of the walk over the sub-directories of [top]. *)
Lemma children_spec (n : nat) (top : path) :
  walk_ok n →
  ∀ (ds : list string) (s : fs) (B : nat),
    safe s → under ex top = true → bounded B s →
    (length inst + 2 ≤ B)%nat → (B < n + length top + 1)%nat → NoDup ds →
    ∃ s', for_each ds (λ d, os_walk n (top ++ [d]) (visit ex inst)) s = (Ok tt, s')
          ∧ step s s'
          ∧ (∀ p, is_file s p = true →
               is_file s' p = true ∨ ∃ d f, p = d ++ [f] ∧ under top d = true)
          ∧ (∀ x, x ∈ ds → walk_main (top ++ [x]) s s').
Proof.
  intros Hwalk ds.
  induction ds as [|x ds IH]; intros s B Hsafe Hunder Hb HB Hfuel Hnodup; simpl.
  - exists s. split; [done|]. split; [reflexivity|]. split; [by left|].
    intros x Hx. by apply elem_of_nil in Hx.
  - apply NoDup_cons in Hnodup as [Hx Hnodup].
    destruct (Hwalk (top ++ [x]) s B) as (s1 & Hrun1 & Hstep1 & Hframe1 & Hmain1);
      [done| |done|done| |].
    { eapply under_trans; [exact Hunder | apply under_child]. }
    { rewrite length_app. simpl. lia. }
    assert (safe s1) as Hsafe1 by by eapply safe_step.
    destruct (IH s1 B) as (s' & Hrun2 & Hstep2 & Hframe2 & Hmain2);
      [done|done| |done|done|done|].
    { by eapply bounded_step. }
    unfold bind. rewrite Hrun1. exists s'. split; [exact Hrun2|].
    split; [by etrans|]. split.
    + intros p Hp. destruct (Hframe1 p Hp) as [Hp1|(d & f & -> & Hd)].
      * by apply Hframe2.
      * right. exists d, f. split; [done|].
        eapply under_trans; [apply under_child | exact Hd].
    + intros x0 [->|Hx0]%elem_of_cons.
      * by apply (walk_main_persist _ s s1 s').
      * intros sub rel f Hsub Hwalkable Hsrc Hfile.
        assert (is_file s1 (((top ++ [x0]) ++ rel) ++ [f]) = true) as Hfile1.
        { destruct (Hframe1 _ Hfile) as [?|(d & f' & Heq & Hd)]; [done|].
          apply app_inj_tail in Heq as [<- _].
          rewrite (under_sibling top x0 x) in Hd; [done|congruence|].
          apply under_spec. by exists rel. }
        destruct (Hmain2 x0 Hx0 sub rel f Hsub) as ((n0 & Hn0 & Hl) & Hgone & Hdir);
          [by eapply walkable_step|done|done|].
        split; [|done]. exists n0. split; [done|].
        by apply (landed_mono sub s s1).
Qed.

Lemma walk_spec (n : nat) : walk_ok n.
Proof.
  induction n as [|n IH]; intros top s B Hsafe Hunder Hb HB Hfuel; simpl;
    destruct (scandir s top) as [[dirs files]|] eqn:Hscan.
  - apply scandir_spec in Hscan as (Hdir & _). apply is_dir_true in Hdir.
    assert (length top ≤ B)%nat by (apply Hb; by eexists). lia.
  - exists s. split; [done|]. split; [reflexivity|]. split; [by left|].
    intros sub rel f _ Hwalkable%walkable_is_dir.
    apply scandir_None in Hscan. congruence.
  - apply scandir_spec in Hscan as (Hdir & Hnd_dirs & Hnd_files & Hdirs & Hfiles).
    destruct (visit_spec top dirs files s Hsafe Hunder Hnd_files Hfiles)
      as (s1 & Hrun1 & Hstep1 & Hframe1 & Hmain1).
    assert (safe s1) as Hsafe1 by by eapply safe_step.
    destruct (children_spec n top IH dirs s1 B)
      as (s' & Hrun2 & Hstep2 & Hframe2 & Hmain2); [done|done| |done|lia|done|].
    { by eapply bounded_step. }
    unfold bind. rewrite Hrun1. exists s'. split; [exact Hrun2|].
    split; [by etrans|]. split.
    + intros p Hp. destruct (Hframe1 p Hp) as [Hp1|[f ->]].
      * by apply Hframe2.
      * right. exists top, f. split; [done | apply under_refl].
    + intros sub [|x rel] f Hsub Hwalkable Hsrc Hfile.
      * rewrite app_nil_r in *.
        destruct (Hmain1 sub f Hsub Hsrc Hfile) as (Hl & Hgone & Hdir1).
        split; [|split].
        -- by apply (landed_persist sub f s s1 s').
        -- intros Hne.
           by apply (source_gone_persist sub _ f s s1 s'); [..|apply Hgone].
        -- apply is_dir_true, (step_dirs _ _ Hstep2). by apply is_dir_true.
      * assert (top ++ x :: rel = (top ++ [x]) ++ rel) as Heq
          by by rewrite <- app_assoc.
        rewrite Heq in *. simpl in Hwalkable.
        apply andb_true_iff in Hwalkable as [_ Hwalkable].
        assert (x ∈ dirs) as Hx.
        { apply Hdirs, is_dir_true. by eapply walkable_is_dir. }
        assert (is_file s1 (((top ++ [x]) ++ rel) ++ [f]) = true) as Hfile1.
        { destruct (Hframe1 _ Hfile) as [?|(f' & Heq')]; [done|].
          apply app_inj_tail in Heq' as [Heq' _].
          apply (f_equal length) in Heq'. rewrite !length_app in Heq'.
          simpl in Heq'. lia. }
        destruct (Hmain2 x Hx sub rel f Hsub) as ((n0 & Hn0 & Hl) & Hgone & Hdir1);
          [by eapply walkable_step|done|done|].
        split; [|done]. exists n0. split; [done|].
        by apply (landed_mono sub s s1).
  - exists s. split; [done|]. split; [reflexivity|]. split; [by left|].
    intros sub rel f _ Hwalkable%walkable_is_dir.
    apply scandir_None in Hscan. congruence.
Qed.

End move.

(** ** [move_binaries] as a whole *)

Lemma depth_bound (s : fs) : bounded (depth s) s.
Proof.
  intros p [n Hp]. unfold depth. apply max_list_elem_of_le.
  apply list_elem_of_fmap. exists (p, n). split; [done|].
  by apply elem_of_map_to_list.
Qed.

Lemma elem_of_dir_names (s : fs) (top : path) x :
  x ∈ dir_names (entries s top) ↔ s !! (top ++ [x]) = Some Dir.
Proof.
  unfold dir_names. rewrite list_elem_of_omap. split.
  - intros ([x' [|]] & Hin & ?); simplify_eq/=. by apply elem_of_entries.
  - intros Hx. exists (x, Dir). split; [by apply elem_of_entries | done].
Qed.

Lemma destination_free_safe (inst : path) (s : fs) :
  destination_free inst s = true → safe inst s.
Proof.
  unfold destination_free. rewrite forallb_forall. intros Hfree. split.
  - intros sub q Hsub Hq.
    specialize (Hfree sub (proj1 (list_elem_of_In _ _) Hsub)).
    apply andb_true_iff in Hfree as [Hfree _].
    rewrite forallb_forall in Hfree.
    specialize (Hfree q (proj1 (list_elem_of_In _ _) Hq)).
    by apply negb_true_iff in Hfree.
  - intros sub f Hsub.
    specialize (Hfree sub (proj1 (list_elem_of_In _ _) Hsub)).
    apply andb_true_iff in Hfree as [_ Hnodir%bool_decide_eq_true].
    destruct (is_dir s (inst ++ [sub; f])) eqn:Hdir; [|done].
    apply is_dir_true in Hdir. rewrite dest_snoc in Hdir.
    apply elem_of_dir_names in Hdir. rewrite Hnodir in Hdir.
    by apply elem_of_nil in Hdir.
Qed.

(** The move succeeds when the destination is free, and then every file of
    every [bin] and [lib] directory below the download directory has landed
    in [install_path]. *)
Lemma move_binaries_spec (download_path install_path : path) (s : fs) :
  destination_free install_path s = true →
  ∃ s', move_binaries download_path install_path s = (Ok tt, s')
        ∧ step (os_path_dirname download_path) install_path s s'
        ∧ walk_main (os_path_dirname download_path) install_path
            (os_path_dirname download_path) s s'.
Proof.
  intros Hfree%destination_free_safe.
  unfold move_binaries, walk_fuel.
  destruct (walk_spec (os_path_dirname download_path) install_path
              (S (Nat.max (depth s) (length install_path + 3)))
              (os_path_dirname download_path) s
              (Nat.max (depth s) (length install_path + 2)))
    as (s' & Hrun & Hstep & _ & Hmain).
  - done.
  - apply under_refl.
  - intros p Hp. pose proof (depth_bound s p Hp). lia.
  - lia.
  - lia.
  - by exists s'.
Qed.

Lemma subdirs_bin : "bin" ∈ SUBDIRS.
Proof. unfold SUBDIRS. set_unfold. tauto. Qed.

Lemma subdirs_lib : "lib" ∈ SUBDIRS.
Proof. unfold SUBDIRS. set_unfold. tauto. Qed.

(** [walk_main] at the root of the walk, with the paths spelled out. *)
Lemma walk_main_root (ex inst : path) (s s' : fs) (sub : string) (rel : path)
    (f : string) (m : Z) (c : content) :
  walk_main ex inst ex s s' → sub ∈ SUBDIRS →
  path_name rel = sub → walkable s ex rel = true →
  s !! (ex ++ rel ++ [f]) = Some (File m c) →
  is_dir s' (inst ++ [sub]) = true
  ∧ (∃ rel' m' c',
       path_name rel' = sub
       ∧ s !! (ex ++ rel' ++ [f]) = Some (File m' c')
       ∧ s' !! (inst ++ [sub; f]) = Some (File (final_mode sub m') c'))
  ∧ (ex ++ rel ≠ inst ++ [sub] → s' !! (ex ++ rel ++ [f]) = None).
Proof.
  intros Hmain Hsub Hname Hwalkable Hfile. rewrite app_assoc in Hfile.
  destruct (Hmain sub rel f Hsub Hwalkable) as ((n & Hn & Hl) & Hgone & Hdir).
  { exists rel. split; [apply relative_to_app | done]. }
  { apply is_file_true. by eauto. }
  split; [done|]. split.
  - destruct Hl as (d & m' & c' & (rel' & Hrel'%relative_to_spec & Hname') & Hd & ->).
    subst d. exists rel', m', c'. by rewrite app_assoc.
  - by rewrite app_assoc.
Qed.

(** *** Path names *)

Lemma dirname_not_empty (n : pathname) : dirname n ≠ Relative [] → n ≠ Relative [].
Proof. intros Hn ->. by apply Hn. Qed.

Lemma resolve_Some (cwd : path) (n : pathname) :
  n ≠ Relative [] → resolve cwd n = Some (base cwd n).
Proof. by destruct n as [p|[|x p]]. Qed.

Lemma base_dirname (cwd : path) (n : pathname) :
  n ≠ Relative [] → base cwd (dirname n) = os_path_dirname (base cwd n).
Proof.
  destruct n as [p|p]; simpl; [done|]. intros Hp. unfold os_path_dirname.
  rewrite removelast_app; [done|]. by intros ->.
Qed.

(** With a directory part in [download_path], the move phase on path names
    is the move phase on the resolved paths. *)
Lemma find_and_move_resolved (cwd : path) (download_path install_path : pathname) :
  dirname download_path ≠ Relative [] →
  find_and_move cwd download_path install_path
  = move_binaries (base cwd download_path) (base cwd install_path).
Proof. intros Hdir. unfold find_and_move. by rewrite (resolve_Some _ _ Hdir). Qed.

Lemma linux_install_resolved (cwd : path) (download_path install_path : pathname) :
  dirname download_path ≠ Relative [] →
  LinuxHandler.install cwd download_path install_path
  = Linux.install (base cwd download_path) (base cwd install_path).
Proof.
  intros Hdir. unfold LinuxHandler.install, clean_up_name.
  rewrite (find_and_move_resolved _ _ _ Hdir).
  by rewrite (resolve_Some _ _ (dirname_not_empty _ Hdir)).
Qed.

Lemma macos_install_resolved (cwd : path) (download_path install_path : pathname) :
  dirname download_path ≠ Relative [] → install_path ≠ Relative [] →
  MacOSHandler.install cwd download_path install_path
  = MacOS.install (base cwd download_path) (base cwd install_path).
Proof.
  intros Hdir Hinst. unfold MacOSHandler.install, clean_up_name.
  rewrite (find_and_move_resolved _ _ _ Hdir).
  by rewrite (resolve_Some _ _ (dirname_not_empty _ Hdir)), (resolve_Some _ _ Hinst).
Qed.

(** C5, as stated, fails on four kinds of input.  With a bare file name
    as [download_path] the walk starts from the empty name and visits
    nothing: the files of [pkg/bin] in the working directory stay where they
    are.  With a directory in the way at [install_path/bin/ffmpeg],
    [shutil.move] moves the file into that directory, and [os.chmod] changes
    the mode of the directory, not of the file.  With a regular file at
    [install_path/bin], [os.makedirs] raises and nothing is moved.  When the
    download directory itself is named [bin], its own files are not moved:
    the name of a directory is taken relative to the download directory, and
    that of the download directory is empty. *)
Lemma move_binaries_counterexample :
  (find_and_move ["tmp"; "dl"] (Relative ["ffmpeg.archive"])
     (Absolute Sample.install_path) (Sample.extracted (Bytes ""))
   = (Ok tt, Sample.extracted (Bytes ""))
   ∧ Sample.extracted (Bytes "") !! ["tmp"; "dl"; "pkg"; "bin"; "ffmpeg"]
     = Some (File 420 (Bytes "ffmpeg")))
  ∧ (∃ s', find_and_move ["tmp"; "dl"] (Absolute Sample.download_path)
             (Absolute Sample.install_path) Sample.blocked = (Ok tt, s')
           ∧ s' !! ["opt"; "ffmpeg"; "bin"; "ffmpeg"] = Some Dir
           ∧ s' !! ["opt"; "ffmpeg"; "bin"; "ffmpeg"; "ffmpeg"]
             = Some (File 420 (Bytes "ffmpeg")))
  ∧ (∃ e s', find_and_move ["tmp"; "dl"] (Absolute Sample.download_path)
               (Absolute Sample.install_path) Sample.file_in_the_way = (Raise e, s')
             ∧ cls e = FileExistsError
             ∧ s' !! ["opt"; "ffmpeg"; "bin"] = Some (File 420 (Bytes ""))
             ∧ s' !! ["tmp"; "dl"; "pkg"; "bin"; "ffmpeg"]
               = Some (File 420 (Bytes "ffmpeg")))
  ∧ find_and_move ["home"] (Absolute ["srv"; "bin"; "ffmpeg.archive"])
      (Absolute Sample.install_path) Sample.download_in_bin
    = (Ok tt, Sample.download_in_bin).
Proof.
  split; [done|]. split; [|split].
  - eexists. split; [apply outcome_and_state; by vm_compute|]. by vm_compute.
  - eexists _, _. split; [apply outcome_and_state; by vm_compute|]. by vm_compute.
  - done.
Qed.

(** The move phase on resolved paths. *)
Lemma move_binaries_flattens_resolved (download_path install_path : path) (s : fs) :
  let extracted_dir := os_path_dirname download_path in
  destination_free install_path s = true →
  ∃ s',
    move_binaries download_path install_path s = (Ok tt, s')
    ∧ (∀ sub rel f m c,
         sub ∈ SUBDIRS →
         path_name rel = sub → walkable s extracted_dir rel = true →
         s !! (extracted_dir ++ rel ++ [f]) = Some (File m c) →
         is_dir s' (install_path ++ [sub]) = true
         ∧ (∃ rel' m' c',
              path_name rel' = sub
              ∧ s !! (extracted_dir ++ rel' ++ [f]) = Some (File m' c')
              ∧ s' !! (install_path ++ [sub; f]) = Some (File (final_mode sub m') c'))
         ∧ (extracted_dir ++ rel ≠ install_path ++ [sub] →
            s' !! (extracted_dir ++ rel ++ [f]) = None)).
Proof.
  intros ex Hfree.
  destruct (move_binaries_spec download_path install_path s Hfree)
    as (s' & Hrun & _ & Hmain).
  exists s'. split; [done|].
  intros sub rel f m c Hsub Hname Hwalkable Hfile.
  by apply (walk_main_root ex install_path s s' sub rel f m c Hmain Hsub).
Qed.

(** C5 (amended): when [download_path] has a directory part and nothing is
    in the way at the destination, the move phase of [install] succeeds, and
    for every directory below the download directory whose name is [bin], at
    any depth, every file directly inside it has been moved:
    [install_path/bin] is a directory, it holds a file of that name with mode
    [0o755] and the content of a file of that name from one of the [bin]
    directories (from this one when no other has the name), and the file is
    gone from where it was.  The same holds for [lib] and
    [install_path/lib], with the mode the file had. *)
Theorem move_binaries_flattens (cwd : path) (download_path install_path : pathname)
    (s : fs) :
  let extracted_dir := base cwd (dirname download_path) in
  let inst := base cwd install_path in
  dirname download_path ≠ Relative [] →
  destination_free inst s = true →
  ∃ s',
    find_and_move cwd download_path install_path s = (Ok tt, s')
    ∧ (∀ rel f m c,
         path_name rel = "bin" → walkable s extracted_dir rel = true →
         s !! (extracted_dir ++ rel ++ [f]) = Some (File m c) →
         is_dir s' (inst ++ ["bin"]) = true
         ∧ (∃ rel' m' c',
              path_name rel' = "bin"
              ∧ s !! (extracted_dir ++ rel' ++ [f]) = Some (File m' c')
              ∧ s' !! (inst ++ ["bin"; f]) = Some (File mode_0o755 c'))
         ∧ (extracted_dir ++ rel ≠ inst ++ ["bin"] →
            s' !! (extracted_dir ++ rel ++ [f]) = None))
    ∧ (∀ rel f m c,
         path_name rel = "lib" → walkable s extracted_dir rel = true →
         s !! (extracted_dir ++ rel ++ [f]) = Some (File m c) →
         is_dir s' (inst ++ ["lib"]) = true
         ∧ (∃ rel' m' c',
              path_name rel' = "lib"
              ∧ s !! (extracted_dir ++ rel' ++ [f]) = Some (File m' c')
              ∧ s' !! (inst ++ ["lib"; f]) = Some (File m' c'))
         ∧ (extracted_dir ++ rel ≠ inst ++ ["lib"] →
            s' !! (extracted_dir ++ rel ++ [f]) = None)).
Proof.
  intros ex inst Hdir Hfree. subst ex.
  rewrite (find_and_move_resolved _ _ _ Hdir),
    (base_dirname _ _ (dirname_not_empty _ Hdir)).
  destruct (move_binaries_flattens_resolved (base cwd download_path) inst s Hfree)
    as (s' & Hrun & Hmoved).
  exists s'. split; [done|]. split.
  - intros rel f m c. apply (Hmoved "bin"), subdirs_bin.
  - intros rel f m c. apply (Hmoved "lib"), subdirs_lib.
Qed.

Lemma move_binaries_flattens_witness :
  ∃ s',
    find_and_move ["home"] (Absolute Sample.download_path) (Absolute Sample.install_path)
      (Sample.extracted (Bytes "")) = (Ok tt, s')
    ∧ is_dir s' ["opt"; "ffmpeg"; "bin"] = true
    ∧ (∃ c, s' !! ["opt"; "ffmpeg"; "bin"; "ffmpeg"] = Some (File mode_0o755 c))
    ∧ s' !! ["tmp"; "dl"; "pkg"; "bin"; "ffmpeg"] = None
    ∧ (∃ m c, s' !! ["opt"; "ffmpeg"; "lib"; "libavcodec.so"] = Some (File m c)).
Proof.
  destruct (move_binaries_flattens ["home"] (Absolute Sample.download_path)
              (Absolute Sample.install_path) (Sample.extracted (Bytes "")))
    as (s' & Hrun & Hbin & Hlib); [done | by vm_compute |].
  exists s'. split; [done|].
  destruct (Hbin ["pkg"; "bin"] "ffmpeg" 420 (Bytes "ffmpeg"))
    as (Hdir & (rel' & m' & c' & _ & _ & Hdst) & Hgone); [by vm_compute..|].
  destruct (Hlib ["pkg"; "lib"] "libavcodec.so" 420 (Bytes "libavcodec"))
    as (_ & (rel & m & c & Hname & Hsrc & Hdst') & _); [by vm_compute..|].
  split; [done|]. split; [by exists c'|]. split; [by apply Hgone|].
  exists m, c. exact Hdst'.
Defined.

(** ** [install] as a whole *)

Section files_preserved.

Lemma mkdir_exist_ok_files (goal q : path) :
  respects files_preserved (mkdir_exist_ok goal q).
Proof.
  intros s p Hp. unfold mkdir_exist_ok.
  destruct (s !! q) as [[m c|]|] eqn:Hq; simpl; try done.
  unfold is_file in *. destruct (decide (q = p)) as [->|Hne].
  - by rewrite Hq in Hp.
  - by rewrite lookup_insert_ne.
Qed.

Lemma os_makedirs_files (p : path) : respects files_preserved (os_makedirs p).
Proof. apply respects_for_each; [apply _|]. intros q. apply mkdir_exist_ok_files. Qed.

Lemma write_file_files (target : path) (payload : string) :
  respects files_preserved (write_file target payload).
Proof.
  intros s q Hq. unfold write_file.
  destruct (s !! target) as [[m c|]|] eqn:Hp; simpl; try done;
    destruct (s !! os_path_dirname target) as [[]|]; simpl; try done;
    unfold is_file in *;
    (destruct (decide (target = q)) as [->|Hne];
      [by rewrite lookup_insert_eq | by rewrite lookup_insert_ne]).
Qed.

Lemma os_chmod_files (p : path) (mode : Z) : respects files_preserved (os_chmod p mode).
Proof.
  intros s q Hq. unfold os_chmod.
  destruct (s !! p) as [[m c|]|] eqn:Hp; simpl; try done.
  unfold is_file in *. destruct (decide (p = q)) as [->|Hne];
    [by rewrite lookup_insert_eq | by rewrite lookup_insert_ne].
Qed.

Lemma zipfile_extract_files (dest : path) (m : member) :
  respects files_preserved (zipfile_extract dest m).
Proof.
  unfold zipfile_extract. destruct (kind m); [|apply os_makedirs_files].
  apply respects_bind; [apply _|apply os_makedirs_files|].
  intros _. apply write_file_files.
Qed.

Lemma new_dir_files (s : fs) (p : path) :
  s !! p = None → files_preserved s (<[p := Dir]> s).
Proof.
  intros Hp q Hq. unfold is_file in *.
  rewrite lookup_insert_ne; [done|]. intros <-. by rewrite Hp in Hq.
Qed.

Lemma primitives_files : respects_primitives files_preserved.
Proof.
  split; [apply os_makedirs_files|]. split; [apply write_file_files|].
  split; [apply os_chmod_files | apply new_dir_files].
Qed.

Lemma tarfile_extract_files (dest : path) (m : member) :
  respects files_preserved (tarfile_extract dest m).
Proof. apply tarfile_extract_respects; [apply _|apply primitives_files]. Qed.

Lemma restore_directory_mode_files (dest : path) (m : member) :
  respects files_preserved (restore_directory_mode dest m).
Proof. apply restore_directory_mode_respects; [apply _|apply primitives_files]. Qed.

Lemma tarfile_extractall_files (dest : path) (members : list member) :
  respects files_preserved (tarfile_extractall dest members).
Proof. apply tarfile_extractall_respects; [apply _|apply primitives_files]. Qed.

Lemma linux_extract_files (dl : path) : respects files_preserved (Linux.extract dl).
Proof.
  unfold Linux.extract. apply respects_bind; [apply _| |].
  - intros s. unfold Linux.tarfile_open.
    destruct (s !! dl) as [[? []|]|]; simpl; reflexivity.
  - intros tar. destruct (filter _ tar) as [|member members];
      [apply respects_raise; apply _|].
    apply tarfile_extractall_files.
Qed.

Lemma macos_extract_files (dl : path) : respects files_preserved (MacOS.extract dl).
Proof.
  unfold MacOS.extract. apply respects_bind; [apply _| |].
  - intros s. unfold MacOS.zipfile_open.
    destruct (s !! dl) as [[? []|]|]; simpl; reflexivity.
  - intros infolist. apply respects_for_each; [apply _|]. intros x.
    destruct (selected _); [apply zipfile_extract_files | apply respects_ret; apply _].
Qed.

End files_preserved.

Lemma walkable_mono (s s' : fs) (top rel : path) :
  dirs_preserved s s' → walkable s top rel = true → walkable s' top rel = true.
Proof.
  intros Hdirs. revert top. induction rel as [|x rel IH]; intros top; simpl.
  - rewrite !andb_true_r, !is_dir_true. apply Hdirs.
  - rewrite !andb_true_iff, !is_dir_true. intros [Htop Hrest].
    split; [by apply Hdirs | by apply IH].
Qed.

Lemma linux_extract_opened (dl : path) (s s1 : fs) :
  Linux.extract dl s = (Ok tt, s1) → is_file s dl = true.
Proof.
  unfold Linux.extract, bind, Linux.tarfile_open, is_file.
  by destruct (s !! dl) as [[? []|]|].
Qed.

Lemma macos_extract_opened (dl : path) (s s1 : fs) :
  MacOS.extract dl s = (Ok tt, s1) → is_file s dl = true.
Proof.
  unfold MacOS.extract, bind, MacOS.zipfile_open, is_file.
  by destruct (s !! dl) as [[? []|]|].
Qed.

(** The clean-up removes the archive and nothing else. *)
Lemma clean_up_spec (dl : path) (s : fs) :
  is_dir s dl = false →
  ∃ s', clean_up dl s = (Ok tt, s') ∧ ∀ p, p ≠ dl → s' !! p = s !! p.
Proof.
  unfold is_dir, clean_up, bind, os_path_exists, os_remove.
  destruct (s !! dl) as [[m c|]|] eqn:Hdl; [|done|]; intros _.
  - rewrite bool_decide_eq_true_2 by by eexists. rewrite Hdl.
    eexists. split; [done|]. intros p Hp. by rewrite lookup_delete_ne.
  - rewrite bool_decide_eq_false_2 by by intros [? ?].
    eexists. split; [done|]. done.
Qed.

(** With a free destination, the archive is not where a moved file goes:
    its directory would be [install_path/sub], with the walked directories
    inside. *)
Lemma destination_not_archive (dl inst : path) (s : fs) (sub : string) (rel : path)
    (f : string) :
  destination_free inst s = true → sub ∈ SUBDIRS → path_name rel = sub →
  walkable s (os_path_dirname dl) rel = true →
  inst ++ [sub; f] ≠ dl.
Proof.
  intros [_ Hfree]%destination_free_safe Hsub Hname Hwalkable <-.
  rewrite dirname_dest in Hwalkable.
  destruct rel as [|x rel]; [by destruct (subdirs_nonempty sub Hsub)|].
  simpl in Hwalkable. apply andb_true_iff in Hwalkable as [_ Hx%walkable_is_dir].
  rewrite <- dest_snoc in Hx. by rewrite (Hfree sub x Hsub) in Hx.
Qed.

(** What follows the extraction, in both handlers. *)
Lemma move_and_clean_up (dl inst : path) (s1 : fs) (sub : string) (rel : path)
    (f : string) :
  is_file s1 dl = true → destination_free inst s1 = true →
  sub ∈ SUBDIRS → path_name rel = sub →
  walkable s1 (os_path_dirname dl) rel = true →
  is_file s1 (os_path_dirname dl ++ rel ++ [f]) = true →
  ∃ s',
    (move_binaries dl inst ;;; clean_up dl) s1 = (Ok tt, s')
    ∧ (∃ rel' m' c',
         path_name rel' = sub
         ∧ s1 !! (os_path_dirname dl ++ rel' ++ [f]) = Some (File m' c')
         ∧ s' !! (inst ++ [sub; f]) = Some (File (final_mode sub m') c'))
    ∧ (os_path_dirname dl ++ rel ≠ inst ++ [sub] →
       s' !! (os_path_dirname dl ++ rel ++ [f]) = None).
Proof.
  intros Hdl Hfree Hsub Hname Hwalkable (m & c & Hfile)%is_file_true.
  assert (inst ++ [sub; f] ≠ dl) as Hne
    by (by apply (destination_not_archive dl inst s1 sub rel f)).
  destruct (move_binaries_spec dl inst s1 Hfree) as (s2 & Hrun & Hstep & Hmain).
  destruct (walk_main_root _ _ _ _ sub rel f m c Hmain Hsub Hname Hwalkable Hfile)
    as (_ & Hlanded & Hgone).
  destruct (clean_up_spec dl s2) as (s' & Hclean & Hsame).
  { destruct (is_dir s2 dl) eqn:Hdir; [|done]. apply is_dir_true in Hdir.
    apply destination_free_safe in Hfree as [Hfree _].
    destruct (step_new_dirs _ _ _ _ Hstep _ Hdir) as [Hs1|(sub' & Hsub' & Hanc)].
    - apply is_file_true in Hdl as (? & ? & ?). congruence.
    - by rewrite (Hfree sub' dl Hsub' Hanc) in Hdl. }
  unfold bind. rewrite Hrun, Hclean. exists s'. split; [done|]. split.
  - destruct Hlanded as (rel' & m' & c' & ? & ? & ?). exists rel', m', c'.
    by rewrite Hsame.
  - intros Hne'. destruct (decide (os_path_dirname dl ++ rel ++ [f] = dl)) as [Heq|Hneq].
    + (* the archive itself: the clean-up has removed it *)
      rewrite Heq in *. unfold clean_up, bind, os_path_exists, os_remove in Hclean.
      rewrite (Hgone Hne') in Hclean.
      rewrite bool_decide_eq_false_2 in Hclean by by intros [? ?].
      unfold ret in Hclean. injection Hclean as <-. by apply Hgone.
    + rewrite Hsame by done. by apply Hgone.
Qed.

(** [install] on resolved paths: a file that sits in a [bin] or [lib]
    directory below the download directory before [install] starts is moved
    like the extracted ones. *)
Lemma install_moves_resolved (download_path install_path : path) (s : fs)
    (sub : string) (rel : path) (f : string) (m : Z) (c : content) :
  let extracted_dir := os_path_dirname download_path in
  let moved (s1 s' : fs) :=
    (∃ rel' m' c',
       path_name rel' = sub
       ∧ s1 !! (extracted_dir ++ rel' ++ [f]) = Some (File m' c')
       ∧ s' !! (install_path ++ [sub; f]) = Some (File (final_mode sub m') c'))
    ∧ (extracted_dir ++ rel ≠ install_path ++ [sub] →
       s' !! (extracted_dir ++ rel ++ [f]) = None) in
  sub ∈ SUBDIRS → path_name rel = sub →
  walkable s extracted_dir rel = true →
  s !! (extracted_dir ++ rel ++ [f]) = Some (File m c) →
  (∀ s1, Linux.extract download_path s = (Ok tt, s1) →
         destination_free install_path s1 = true →
         ∃ s', Linux.install download_path install_path s = (Ok tt, s') ∧ moved s1 s')
  ∧ (∀ s0 s1, os_makedirs install_path s = (Ok tt, s0) →
              MacOS.extract download_path s0 = (Ok tt, s1) →
              destination_free install_path s1 = true →
              ∃ s', MacOS.install download_path install_path s = (Ok tt, s')
                    ∧ moved s1 s').
Proof.
  intros ex moved Hsub Hname Hwalkable Hfile.
  assert (is_file s (ex ++ rel ++ [f]) = true) as Hfile'
    by (apply is_file_true; eauto).
  split.
  - intros s1 Hext Hfree.
    pose proof (linux_extract_dirs download_path s) as Hdirs.
    pose proof (linux_extract_files download_path s) as Hfiles.
    rewrite Hext in Hdirs, Hfiles. simpl in Hdirs, Hfiles.
    destruct (move_and_clean_up download_path install_path s1 sub rel f)
      as (s' & Htail & Hmoved); try done.
    { apply Hfiles. by eapply linux_extract_opened. }
    { by eapply walkable_mono. }
    { by apply Hfiles. }
    exists s'. split; [|done].
    unfold Linux.install, try_except, bind. rewrite Hext.
    unfold bind in Htail.
    destruct (move_binaries download_path install_path s1) as [[[]|e] s2]; [|done].
    by rewrite Htail.
  - intros s0 s1 Hmk Hext Hfree.
    pose proof (os_makedirs_dirs install_path s) as Hdirs0.
    pose proof (os_makedirs_files install_path s) as Hfiles0.
    rewrite Hmk in Hdirs0, Hfiles0. simpl in Hdirs0, Hfiles0.
    pose proof (macos_extract_dirs download_path s0) as Hdirs.
    pose proof (macos_extract_files download_path s0) as Hfiles.
    rewrite Hext in Hdirs, Hfiles. simpl in Hdirs, Hfiles.
    destruct (move_and_clean_up download_path install_path s1 sub rel f)
      as (s' & Htail & Hmoved); try done.
    { apply Hfiles. by eapply macos_extract_opened. }
    { eapply walkable_mono; [exact Hdirs|]. by eapply walkable_mono. }
    { by apply Hfiles, Hfiles0. }
    exists s'. split; [|done].
    unfold MacOS.install, try_except, bind. rewrite Hmk, Hext.
    unfold bind in Htail.
    destruct (move_binaries download_path install_path s1) as [[[]|e] s2]; [|done].
    by rewrite Htail.
Qed.

(** C9, as stated, fails on three kinds of input.  When [download_path] is
    a bare file name, its parent is the working directory, but the walk
    starts from the empty name and visits nothing: [install] of both handlers
    returns, the archive is removed, and [old/bin/tool], which was in the
    working directory before, is still there and not in [install_path/bin];
    nor are the extracted files.  When the archive holds no binaries,
    [LinuxHandler.install] raises before the walk.  When a directory is in
    the way at [install_path/bin/tool], the file is moved into that directory
    and keeps its mode. *)
Lemma install_counterexample :
  (∃ s', LinuxHandler.install ["tmp"; "dl"] (Relative ["ffmpeg.archive"])
           (Absolute Sample.install_path) (Sample.disk (TarXz Sample.members))
         = (Ok tt, s')
         ∧ s' !! ["tmp"; "dl"; "old"; "bin"; "tool"] = Some (File 420 (Bytes "tool"))
         ∧ s' !! ["tmp"; "dl"; "pkg"; "bin"; "ffmpeg"] = Some (File 420 (Bytes "ffmpeg"))
         ∧ s' !! ["opt"; "ffmpeg"; "bin"; "tool"] = None
         ∧ s' !! ["tmp"; "dl"; "ffmpeg.archive"] = None)
  ∧ (∃ s', MacOSHandler.install ["tmp"; "dl"] (Relative ["ffmpeg.archive"])
             (Absolute Sample.install_path) (Sample.disk (ZipArchive Sample.members))
           = (Ok tt, s')
           ∧ s' !! ["tmp"; "dl"; "old"; "bin"; "tool"] = Some (File 420 (Bytes "tool"))
           ∧ s' !! ["tmp"; "dl"; "pkg"; "bin"; "ffmpeg"]
             = Some (File 420 (Bytes "ffmpeg"))
           ∧ s' !! ["opt"; "ffmpeg"; "bin"; "tool"] = None
           ∧ s' !! ["tmp"; "dl"; "ffmpeg.archive"] = None)
  ∧ (∃ e s', LinuxHandler.install ["tmp"; "dl"] (Absolute Sample.download_path)
               (Absolute Sample.install_path) (Sample.disk (TarXz Sample.doc_only))
             = (Raise e, s')
             ∧ s' !! ["tmp"; "dl"; "old"; "bin"; "tool"]
               = Some (File 420 (Bytes "tool")))
  ∧ (∃ s', MacOSHandler.install ["tmp"; "dl"] (Absolute Sample.download_path)
             (Absolute Sample.install_path)
             (<[["opt"; "ffmpeg"; "bin"; "tool"] := Dir]>
                (<[["opt"; "ffmpeg"; "bin"] := Dir]>
                   (<[["opt"; "ffmpeg"] := Dir]>
                      (<[["opt"] := Dir]> (Sample.disk (ZipArchive Sample.members))))))
           = (Ok tt, s')
           ∧ s' !! ["opt"; "ffmpeg"; "bin"; "tool"] = Some Dir
           ∧ s' !! ["opt"; "ffmpeg"; "bin"; "tool"; "tool"]
             = Some (File 420 (Bytes "tool"))).
Proof.
  split; [|split; [|split]].
  - eexists. split; [apply outcome_and_state; by vm_compute | by vm_compute].
  - eexists. split; [apply outcome_and_state; by vm_compute | by vm_compute].
  - eexists _, _. split; [apply outcome_and_state; by vm_compute | by vm_compute].
  - eexists. split; [apply outcome_and_state; by vm_compute | by vm_compute].
Qed.

(** C9 (amended): when [download_path] has a directory part, the move phase
    walks the whole parent directory of [download_path].  A file that sits,
    before [install] starts, directly inside a directory named [bin] (or
    [lib]) anywhere below that parent is moved into [install_path/bin] (or
    [install_path/lib]) like the extracted ones, whatever the archive holds:
    when the extraction succeeds and nothing is in the way at the
    destination, [install] of both handlers returns, [install_path/sub] holds
    a file of that name that comes from a [sub] directory below the parent
    ([bin] files with mode [0o755]), and the file is gone from where it
    was. *)
Theorem install_moves_preexisting_files (cwd : path)
    (download_path install_path : pathname) (s : fs)
    (sub : string) (rel : path) (f : string) (m : Z) (c : content) :
  let dl := base cwd download_path in
  let inst := base cwd install_path in
  let extracted_dir := base cwd (dirname download_path) in
  let moved (s1 s' : fs) :=
    (∃ rel' m' c',
       path_name rel' = sub
       ∧ s1 !! (extracted_dir ++ rel' ++ [f]) = Some (File m' c')
       ∧ s' !! (inst ++ [sub; f]) = Some (File (final_mode sub m') c'))
    ∧ (extracted_dir ++ rel ≠ inst ++ [sub] →
       s' !! (extracted_dir ++ rel ++ [f]) = None) in
  dirname download_path ≠ Relative [] →
  sub ∈ SUBDIRS → path_name rel = sub →
  walkable s extracted_dir rel = true →
  s !! (extracted_dir ++ rel ++ [f]) = Some (File m c) →
  (∀ s1, Linux.extract dl s = (Ok tt, s1) →
         destination_free inst s1 = true →
         ∃ s', LinuxHandler.install cwd download_path install_path s = (Ok tt, s')
               ∧ moved s1 s')
  ∧ (install_path ≠ Relative [] →
     ∀ s0 s1, os_makedirs inst s = (Ok tt, s0) →
              MacOS.extract dl s0 = (Ok tt, s1) →
              destination_free inst s1 = true →
              ∃ s', MacOSHandler.install cwd download_path install_path s = (Ok tt, s')
                    ∧ moved s1 s').
Proof.
  intros dl inst ex moved Hdir. subst ex moved.
  rewrite (base_dirname _ _ (dirname_not_empty _ Hdir)).
  intros Hsub Hname Hwalkable Hfile.
  destruct (install_moves_resolved dl inst s sub rel f m c Hsub Hname Hwalkable
              Hfile) as [Hlinux Hmacos].
  split.
  - rewrite (linux_install_resolved _ _ _ Hdir). exact Hlinux.
  - intros Hinst. rewrite (macos_install_resolved _ _ _ Hdir Hinst). exact Hmacos.
Qed.

Lemma install_moves_preexisting_files_witness :
  (∃ s', LinuxHandler.install ["tmp"] (Relative ["dl"; "ffmpeg.archive"])
           (Absolute Sample.install_path) (Sample.disk (TarXz Sample.members))
         = (Ok tt, s')
         ∧ (∃ c, s' !! ["opt"; "ffmpeg"; "bin"; "tool"] = Some (File mode_0o755 c))
         ∧ s' !! ["tmp"; "dl"; "old"; "bin"; "tool"] = None)
  ∧ (∃ s', MacOSHandler.install ["tmp"] (Relative ["dl"; "ffmpeg.archive"])
             (Absolute Sample.install_path) (Sample.disk (ZipArchive Sample.members))
           = (Ok tt, s')
           ∧ (∃ c, s' !! ["opt"; "ffmpeg"; "bin"; "tool"] = Some (File mode_0o755 c))
           ∧ s' !! ["tmp"; "dl"; "old"; "bin"; "tool"] = None).
Proof.
  split.
  - destruct (install_moves_preexisting_files ["tmp"]
                (Relative ["dl"; "ffmpeg.archive"]) (Absolute Sample.install_path)
                (Sample.disk (TarXz Sample.members))
                "bin" ["old"; "bin"] "tool" 420 (Bytes "tool"))
      as [Hlinux _]; [done | by_compute | by vm_compute.. |].
    destruct (Hlinux (Linux.extract Sample.download_path
                        (Sample.disk (TarXz Sample.members))).2)
      as (s' & Hrun & (rel' & m' & c' & _ & _ & Hdst) & Hgone);
      [apply outcome_and_state; by vm_compute | by vm_compute |].
    exists s'. split; [done|]. split; [by exists c' | by apply Hgone].
  - destruct (install_moves_preexisting_files ["tmp"]
                (Relative ["dl"; "ffmpeg.archive"]) (Absolute Sample.install_path)
                (Sample.disk (ZipArchive Sample.members))
                "bin" ["old"; "bin"] "tool" 420 (Bytes "tool"))
      as [_ Hmacos]; [done | by_compute | by vm_compute.. |].
    destruct (Hmacos ltac:(done)
                (os_makedirs Sample.install_path
                   (Sample.disk (ZipArchive Sample.members))).2
                (MacOS.extract Sample.download_path
                   (os_makedirs Sample.install_path
                      (Sample.disk (ZipArchive Sample.members))).2).2)
      as (s' & Hrun & (rel' & m' & c' & _ & _ & Hdst) & Hgone);
      [apply outcome_and_state; by vm_compute
      |apply outcome_and_state; by vm_compute
      |by vm_compute|].
    exists s'. split; [done|]. split; [by exists c' | by apply Hgone].
Defined.

(** * Further properties *)

(** ** [check_installed]: what is run, and when *)

(** An iteration of the health phase that fails: the command is run, one
    line is printed, and the loop is left with [False]. *)
Lemma health_check_fails (h : host) (command : string) (on_code : Z → string)
    (on_error : exn → string) (t : list event) :
  host_run h [command; "-version"] ≠ Completed 0 →
  ∃ line, health_check h command on_code on_error t
          = (Ok (Some false), t ++ [Ran [command; "-version"]; Printed line]).
Proof.
  intros Hbad.
  by destruct (health_check_spec h command on_code on_error t) as [[? _]|[_ ?]].
Qed.

Lemma health_check_passes (h : host) (command : string) (on_code : Z → string)
    (on_error : exn → string) (t : list event) :
  host_run h [command; "-version"] = Completed 0 →
  health_check h command on_code on_error t
  = (Ok None, t ++ [Ran [command; "-version"]]).
Proof.
  intros Hok.
  by destruct (health_check_spec h command on_code on_error t) as [[_ ?]|[? _]].
Qed.

(** The health phase runs the commands in order and stops at the first one
    that does not end with return code zero. *)
Lemma health_loop_stops (h : host) (command : string → string)
    (on_code : string → Z → string) (on_error : string → exn → string)
    (pre : list string) (bad : string) (post : list string) (t : list event) :
  Forall (λ binary, host_run h [command binary; "-version"] = Completed 0) pre →
  host_run h [command bad; "-version"] ≠ Completed 0 →
  ∃ line, health_loop h command on_code on_error (pre ++ bad :: post) t
          = (Ok false,
             t ++ map (λ binary, Ran [command binary; "-version"]) (pre ++ [bad])
               ++ [Printed line]).
Proof.
  intros Hpre Hbad. revert t. induction Hpre as [|binary pre Hok _ IH]; intros t.
  - simpl. unfold bind.
    destruct (health_check_fails h (command bad) (on_code bad) (on_error bad) t Hbad)
      as [line ->].
    by exists line.
  - simpl. unfold bind. rewrite health_check_passes by done.
    destruct (IH (t ++ [Ran [command binary; "-version"]])) as [line ->].
    exists line. by rewrite <- !app_assoc.
Qed.

Lemma health_loop_passes (h : host) (command : string → string)
    (on_code : string → Z → string) (on_error : string → exn → string)
    (binaries : list string) (t : list event) :
  Forall (λ binary, host_run h [command binary; "-version"] = Completed 0) binaries →
  health_loop h command on_code on_error binaries t
  = (Ok true, t ++ map (λ binary, Ran [command binary; "-version"]) binaries).
Proof.
  intros Hok. revert t. induction Hok as [|binary rest Hok _ IH]; intros t; simpl.
  - by rewrite app_nil_r.
  - unfold bind. rewrite health_check_passes by done.
    rewrite IH. by rewrite <- app_assoc.
Qed.

(** X1: when the three binaries are at the path, [LinuxHandler.check_installed]
    runs them in the order [ffmpeg], [ffprobe], [ffplay] and stops at the
    first that fails: the binaries after it are not run, one diagnostic is
    printed, and the answer is [False].  The global check of
    [MacOSHandler] does the same with the bare commands. *)
Theorem check_installed_stops_at_first_failure (h : host) (p : string)
    (pre : list string) (bad : string) (post : list string) (t : list event) :
  BINARIES = pre ++ bad :: post →
  (p ≠ "" →
   Forall (λ binary, host_exists h (os_path_join p binary) = true) BINARIES →
   Forall (λ binary, host_run h [os_path_join p binary; "-version"] = Completed 0) pre →
   host_run h [os_path_join p bad; "-version"] ≠ Completed 0 →
   ∃ line, Linux.check_installed h (Some p) t
           = (Ok false,
              t ++ map (λ binary, Ran [os_path_join p binary; "-version"]) (pre ++ [bad])
                ++ [Printed line]))
  ∧ (Forall (λ binary, host_run h [binary; "-version"] = Completed 0) pre →
     host_run h [bad; "-version"] ≠ Completed 0 →
     ∃ line, MacOS.global_check h t
             = (Ok false,
                t ++ map (λ binary, Ran [binary; "-version"]) (pre ++ [bad])
                  ++ [Printed line])).
Proof.
  intros Hsplit. split.
  - intros Hp Hexists Hpre Hbad. unfold Linux.check_installed.
    rewrite (proj2 (truthy_Some p) Hp). cbn [negb]. cbv zeta.
    change (default "" (Some p)) with p.
    rewrite (proj2 (missing_binaries_nil (host_exists h) p) Hexists).
    rewrite Hsplit. by apply health_loop_stops.
  - intros Hpre Hbad. unfold MacOS.global_check. rewrite Hsplit.
    by apply (health_loop_stops h (λ binary, binary)).
Qed.

Lemma check_installed_stops_at_first_failure_witness :
  ∃ line, MacOS.global_check
            (Host (λ _, false) (λ _, false)
               (λ argv, if bool_decide (argv = ["ffmpeg"; "-version"])
                        then Completed 0 else Completed 1)) []
          = (Ok false, [Ran ["ffmpeg"; "-version"]; Ran ["ffprobe"; "-version"];
                        Printed line]).
Proof.
  destruct (check_installed_stops_at_first_failure
              (Host (λ _, false) (λ _, false)
                 (λ argv, if bool_decide (argv = ["ffmpeg"; "-version"])
                          then Completed 0 else Completed 1))
              "" ["ffmpeg"] "ffprobe" ["ffplay"] [] eq_refl) as [_ Hglobal].
  destruct Hglobal as [line Hrun].
  - repeat constructor.
  - by vm_compute.
  - by exists line.
Defined.

(** X2: no binary is run before all three are known to be there.  With a
    path given (and, for [MacOSHandler], existing), a binary that is missing
    (for [MacOSHandler]: missing or not executable) makes [check_installed]
    return [False] after printing one line that names the missing binaries
    in the order [ffmpeg], [ffprobe], [ffplay]; no command is run. *)
Theorem check_installed_missing_runs_nothing (h : host) (p : string) (t : list event) :
  p ≠ "" →
  (∀ present binary,
     binary ∈ missing_binaries present p
     ↔ binary ∈ BINARIES ∧ present (os_path_join p binary) = false)
  ∧ (missing_binaries (host_exists h) p ≠ [] →
     Linux.check_installed h (Some p) t
     = (Ok false,
        t ++ [Printed ("Missing binaries: "
                       +:+ Str.join ", " (missing_binaries (host_exists h) p))]))
  ∧ (host_exists h p = true →
     missing_binaries (λ q, host_exists h q && host_access_x h q) p ≠ [] →
     MacOS.check_installed h (Some p) t
     = (Ok false,
        t ++ [Printed ("Missing binaries: "
                       +:+ Str.join ", "
                             (missing_binaries
                                (λ q, host_exists h q && host_access_x h q) p))])).
Proof.
  intros Hp. split; [|split].
  - intros present binary. unfold missing_binaries.
    rewrite list_elem_of_filter. tauto.
  - intros Hmissing. unfold Linux.check_installed.
    rewrite (proj2 (truthy_Some p) Hp). cbn [negb]. cbv zeta.
    change (default "" (Some p)) with p.
    by destruct (missing_binaries (host_exists h) p).
  - intros Hexists Hmissing. unfold MacOS.check_installed.
    rewrite (proj2 (truthy_Some p) Hp). cbv zeta.
    change (default "" (Some p)) with p.
    rewrite Hexists. cbn [andb].
    by destruct (missing_binaries _ p).
Qed.

Lemma check_installed_missing_runs_nothing_witness :
  Linux.check_installed Sample.global_only (Some "/opt/ffmpeg") []
  = (Ok false, [Printed "Missing binaries: ffmpeg, ffprobe, ffplay"]).
Proof.
  destruct (check_installed_missing_runs_nothing Sample.global_only "/opt/ffmpeg" [])
    as (_ & Hlinux & _); [done|].
  rewrite Hlinux; by vm_compute.
Defined.

Lemma filter_ext_elem_of {A : Type} (P Q : A → Prop)
    `{!∀ x, Decision (P x)} `{!∀ x, Decision (Q x)} (l : list A) :
  (∀ x, x ∈ l → (P x ↔ Q x)) → filter P l = filter Q l.
Proof.
  induction l as [|x l IH]; intros Hext; [done|].
  rewrite !filter_cons, IH by (intros; apply Hext; by right).
  destruct (decide (P x)) as [HP|HP], (decide (Q x)) as [HQ|HQ]; try done.
  - by destruct HQ; apply (Hext x); [left|].
  - by destruct HP; apply (Hext x); [left|].
Qed.

(** X3: the two handlers agree wherever the binaries that exist are
    executable: for a non-empty path that exists, if every binary found at
    the path is executable, [check_installed] of [LinuxHandler] and of
    [MacOSHandler] return the same answer after the same prints and runs. *)
Theorem check_installed_handlers_agree (h : host) (p : string) (t : list event) :
  p ≠ "" → host_exists h p = true →
  (∀ binary, binary ∈ BINARIES →
     host_exists h (os_path_join p binary) = true →
     host_access_x h (os_path_join p binary) = true) →
  Linux.check_installed h (Some p) t = MacOS.check_installed h (Some p) t.
Proof.
  intros Hp Hexists Hexec.
  unfold Linux.check_installed, MacOS.check_installed.
  rewrite (proj2 (truthy_Some p) Hp). cbv zeta.
  change (default "" (Some p)) with p.
  rewrite Hexists. cbn [negb andb].
  assert (missing_binaries (host_exists h) p
          = missing_binaries (λ q, host_exists h q && host_access_x h q) p) as ->;
    [|done].
  unfold missing_binaries. apply filter_ext_elem_of. intros binary Hin.
  destruct (host_exists h (os_path_join p binary)) eqn:He; [|done].
  by rewrite (Hexec binary Hin He).
Qed.

Lemma check_installed_handlers_agree_witness :
  Linux.check_installed Sample.hanging (Some "/opt/ffmpeg") []
  = MacOS.check_installed Sample.hanging (Some "/opt/ffmpeg") [].
Proof.
  apply check_installed_handlers_agree; [done | by vm_compute |].
  intros binary Hin Hexists. vm_compute in Hexists |- *.
  repeat case_decide; done.
Defined.

(** X4: an empty path counts as no path.  [LinuxHandler.check_installed]
    then prints that no path is specified and returns [False] without
    running anything; [MacOSHandler.check_installed] runs the global check
    instead. *)
Theorem check_installed_without_path (h : host) (path : option string) (t : list event) :
  path = None ∨ path = Some "" →
  Linux.check_installed h path t
  = (Ok false, t ++ [Printed "FFmpeg installation path is not specified."])
  ∧ MacOS.check_installed h path t = MacOS.global_check h t
  ∧ ∃ b t1, MacOS.check_installed h path t = (Ok b, t ++ t1)
            ∧ (b = true ↔
                 Forall (λ binary, host_run h [binary; "-version"] = Completed 0)
                   BINARIES)
            ∧ ∀ argv, Ran argv ∈ t1 →
                ∃ binary, binary ∈ BINARIES ∧ argv = [binary; "-version"].
Proof.
  intros Hpath.
  assert (truthy path = false) as Htruthy by by destruct Hpath as [-> | ->].
  assert (MacOS.check_installed h path t = MacOS.global_check h t) as Hglobal.
  { apply macos_check_installed_global. by rewrite Htruthy. }
  split; [|split; [done|]].
  - unfold Linux.check_installed. by rewrite Htruthy.
  - rewrite Hglobal.
    destruct (macos_global_check_spec h t) as (b & t1 & Hg & Hb & _ & Hran & _).
    by exists b, t1.
Qed.

Lemma check_installed_without_path_witness :
  Linux.check_installed Sample.installed (Some "") []
  = (Ok false, [Printed "FFmpeg installation path is not specified."])
  ∧ MacOS.check_installed Sample.global_only None []
    = MacOS.global_check Sample.global_only [].
Proof.
  split.
  - apply (check_installed_without_path Sample.installed (Some "") []). by right.
  - apply (check_installed_without_path Sample.global_only None []). by left.
Defined.

(** ** [get_download_url]: aliases and letter case *)

Lemma lower_ascii_idemp (c : ascii) : Str.lower_ascii (Str.lower_ascii c) = Str.lower_ascii c.
Proof. by destruct c as [[] [] [] [] [] [] [] []]. Qed.

Lemma lower_idemp (s : string) : Str.lower (Str.lower s) = Str.lower s.
Proof. induction s as [|c s IH]; simpl; [done|]. by rewrite lower_ascii_idemp, IH. Qed.

(** X5: [LinuxHandler.get_download_url] depends on the architecture family
    only: the letter case of the machine name does not matter, [x86_64] and
    [amd64] give one URL, [aarch64] and [arm64] give one URL, and the two
    URLs differ. *)
Theorem linux_url_by_family (m1 m2 : string) :
  Linux.get_download_url (Str.lower m1) = Linux.get_download_url m1
  ∧ (Str.lower m1 ∈ ["x86_64"; "amd64"] → Str.lower m2 ∈ ["x86_64"; "amd64"] →
     Linux.get_download_url m1 = Linux.get_download_url m2)
  ∧ (Str.lower m1 ∈ ["aarch64"; "arm64"] → Str.lower m2 ∈ ["aarch64"; "arm64"] →
     Linux.get_download_url m1 = Linux.get_download_url m2)
  ∧ (Str.lower m1 ∈ ["x86_64"; "amd64"] → Str.lower m2 ∈ ["aarch64"; "arm64"] →
     Linux.get_download_url m1 ≠ Linux.get_download_url m2).
Proof.
  unfold Linux.get_download_url. rewrite lower_idemp.
  split; [done|]. split; [|split].
  - intros H1 H2. by rewrite !bool_decide_eq_true_2.
  - intros H1 H2.
    rewrite !(bool_decide_eq_false_2 (_ ∈ ["x86_64"; "amd64"]))
      by (set_unfold; intuition congruence).
    by rewrite !bool_decide_eq_true_2.
  - intros H1 H2. rewrite (bool_decide_eq_true_2 _ H1).
    rewrite (bool_decide_eq_false_2 (Str.lower m2 ∈ ["x86_64"; "amd64"]))
      by (set_unfold; intuition congruence).
    rewrite (bool_decide_eq_true_2 _ H2). by vm_compute.
Qed.

Lemma linux_url_by_family_witness :
  Linux.get_download_url "AMD64" = Linux.get_download_url "x86_64"
  ∧ Linux.get_download_url "AMD64" ≠ Linux.get_download_url "Arm64".
Proof.
  destruct (linux_url_by_family "AMD64" "x86_64") as (_ & Hx86 & _).
  destruct (linux_url_by_family "AMD64" "Arm64") as (_ & _ & _ & Hdiff).
  split; [apply Hx86 | apply Hdiff]; vm_compute; set_unfold; intuition congruence.
Defined.

(** ** [uninstall]: repetition and failure *)

Lemma bind_ok {S A B : Type} (m : M S A) (k : A → M S B) (s s1 : S) (a : A) :
  m s = (Ok a, s1) → bind m k s = k a s1.
Proof. intros H. unfold bind. by rewrite H. Qed.

Lemma bind_raise {S A B : Type} (m : M S A) (k : A → M S B) (s s1 : S) (e : exn) :
  m s = (Raise e, s1) → bind m k s = (Raise e, s1).
Proof. intros H. unfold bind. by rewrite H. Qed.

Lemma uninstall_round_ok (d : path) (s s' : fs) :
  (let! e := os_path_exists d in
   if e then shutil_rmtree d else ret tt) s = (Ok tt, s') →
  is_file s d = false.
Proof.
  unfold is_file, bind, os_path_exists, shutil_rmtree.
  destruct (s !! d) as [[m c|]|] eqn:Hd; [|done..].
  rewrite bool_decide_eq_true_2 by by eexists. by rewrite Hd.
Qed.

(** X6: [uninstall] can be repeated.  When it returns, neither
    [install_path/bin] nor [install_path/lib] exists, and a second
    [uninstall] returns as well and changes nothing. *)
Theorem uninstall_idempotent (install_path : path) (s s' : fs) :
  Linux.uninstall install_path s = (Ok tt, s') →
  MacOS.uninstall install_path s = (Ok tt, s')
  ∧ s' !! (install_path ++ ["bin"]) = None
  ∧ s' !! (install_path ++ ["lib"]) = None
  ∧ Linux.uninstall install_path s' = (Ok tt, s')
  ∧ MacOS.uninstall install_path s' = (Ok tt, s').
Proof.
  unfold Linux.uninstall, MacOS.uninstall, uninstall_dirs. simpl.
  intros Hrun. split; [done|].
  unfold bind at 1 in Hrun.
  destruct ((let! e := os_path_exists (install_path ++ ["bin"]) in
             if e then shutil_rmtree (install_path ++ ["bin"]) else ret tt) s)
    as [[[]|e] s1] eqn:Hbin; [|done].
  unfold bind at 1 in Hrun.
  destruct ((let! e := os_path_exists (install_path ++ ["lib"]) in
             if e then shutil_rmtree (install_path ++ ["lib"]) else ret tt) s1)
    as [[[]|e] s2] eqn:Hlib; [|done].
  unfold ret in Hrun. injection Hrun as ->.
  pose proof (uninstall_round_ok _ _ _ Hbin) as Hfile_bin.
  pose proof (uninstall_round_ok _ _ _ Hlib) as Hfile_lib.
  destruct (uninstall_step _ s Hfile_bin) as (s1' & Hbin' & Hs1 & _).
  rewrite Hbin in Hbin'. injection Hbin' as <-.
  destruct (uninstall_step _ s1 Hfile_lib) as (s2' & Hlib' & Hs2 & _).
  rewrite Hlib in Hlib'. injection Hlib' as <-.
  assert (s' !! (install_path ++ ["bin"]) = None) as Hbin_gone.
  { rewrite Hs2, (under_sibling install_path "bin" "lib"), andb_false_r, Hs1;
      [|done|apply under_refl].
    rewrite under_refl, andb_true_r. unfold is_file, is_dir in *.
    by destruct (s !! (install_path ++ ["bin"])) as [[]|]. }
  assert (s' !! (install_path ++ ["lib"]) = None) as Hlib_gone.
  { rewrite Hs2, under_refl, andb_true_r. unfold is_file, is_dir in *.
    by destruct (s1 !! (install_path ++ ["lib"])) as [[]|]. }
  split; [done|]. split; [done|].
  assert (∀ d, s' !! d = None →
            (let! e := os_path_exists d in
             if e then shutil_rmtree d else ret tt) s' = (Ok tt, s')) as Hnoop.
  { intros d Hd. unfold bind, os_path_exists.
    rewrite bool_decide_eq_false_2; [done|]. rewrite Hd. by intros [? ?]. }
  rewrite !(bind_ok _ _ _ _ _ (Hnoop _ Hbin_gone)).
  by rewrite !(bind_ok _ _ _ _ _ (Hnoop _ Hlib_gone)).
Qed.

Lemma uninstall_idempotent_witness :
  Linux.uninstall ["tmp"; "dl"; "old"]
    (Linux.uninstall ["tmp"; "dl"; "old"] (Sample.disk (Bytes ""))).2
  = (Ok tt, (Linux.uninstall ["tmp"; "dl"; "old"] (Sample.disk (Bytes ""))).2).
Proof.
  eapply (uninstall_idempotent ["tmp"; "dl"; "old"] (Sample.disk (Bytes ""))).
  apply outcome_and_state. by vm_compute.
Defined.

(** X7: [uninstall] fails on a regular file named [bin] or [lib], and it
    does not undo what it has done: with a file at [install_path/bin] it
    raises [NotADirectoryError] and nothing has changed; with a file at
    [install_path/lib] it raises the same error after [install_path/bin] has
    been removed. *)
Theorem uninstall_not_a_directory (install_path : path) (s : fs) :
  (is_file s (install_path ++ ["bin"]) = true →
   Linux.uninstall install_path s = (Raise (Exn NotADirectoryError "rmtree"), s)
   ∧ MacOS.uninstall install_path s = (Raise (Exn NotADirectoryError "rmtree"), s))
  ∧ (is_file s (install_path ++ ["bin"]) = false →
     is_file s (install_path ++ ["lib"]) = true →
     ∃ s1,
       Linux.uninstall install_path s = (Raise (Exn NotADirectoryError "rmtree"), s1)
       ∧ MacOS.uninstall install_path s = (Raise (Exn NotADirectoryError "rmtree"), s1)
       ∧ ∀ q, s1 !! q = if is_dir s (install_path ++ ["bin"])
                             && under (install_path ++ ["bin"]) q
                          then None else s !! q).
Proof.
  unfold Linux.uninstall, MacOS.uninstall, uninstall_dirs. simpl. split.
  - intros (m & c & Hbin)%is_file_true.
    unfold bind, os_path_exists, shutil_rmtree.
    rewrite bool_decide_eq_true_2 by by eexists. by rewrite Hbin.
  - intros Hbin Hlib.
    destruct (uninstall_step _ s Hbin) as (s1 & Hrun1 & Hs1 & _).
    exists s1. rewrite !(bind_ok _ _ _ _ _ Hrun1).
    assert (is_file s1 (install_path ++ ["lib"]) = true)
      as (m & c & Hlib1)%is_file_true.
    { unfold is_file. rewrite Hs1, (under_sibling install_path "lib" "bin"),
        andb_false_r; [done|done|apply under_refl]. }
    assert ((let! e := os_path_exists (install_path ++ ["lib"]) in
             if e then shutil_rmtree (install_path ++ ["lib"]) else ret tt) s1
            = (Raise (Exn NotADirectoryError "rmtree"), s1)) as Hrun2.
    { unfold bind, os_path_exists, shutil_rmtree.
      rewrite bool_decide_eq_true_2 by by eexists. by rewrite Hlib1. }
    by rewrite !(bind_raise _ _ _ _ _ Hrun2).
Qed.

Lemma uninstall_not_a_directory_witness :
  Linux.uninstall ["tmp"; "dl"; "old"; "bin"]
    (<[["tmp"; "dl"; "old"; "bin"; "bin"] := File 420 (Bytes "")]>
       (Sample.disk (Bytes "")))
  = (Raise (Exn NotADirectoryError "rmtree"),
     <[["tmp"; "dl"; "old"; "bin"; "bin"] := File 420 (Bytes "")]>
       (Sample.disk (Bytes ""))).
Proof.
  apply (uninstall_not_a_directory ["tmp"; "dl"; "old"; "bin"]). by vm_compute.
Defined.

(** ** [install]: errors, the archive, and what is left alone *)

Lemma isinstance_Exception (e : exn) : isinstance e [Exception] = true.
Proof. by destruct e as [[] ?]. Qed.

(** [try: body / except Exception as e: raise RuntimeError(...)] *)
Lemma try_except_Exception {A : Type} (body : M fs A) (handler : exn → M fs A) (s : fs) :
  try_except body [Exception] handler s
  = match body s with
    | (Ok a, s') => (Ok a, s')
    | (Raise e, s') => handler e s'
    end.
Proof.
  unfold try_except. destruct (body s) as [[a|e] s']; [done|].
  by rewrite isinstance_Exception.
Qed.

Lemma for_each_mkdir_raises (goal : path) (l : list path) (s s' : fs) (e : exn) :
  for_each l (mkdir_exist_ok goal) s = (Raise e, s') →
  cls e = FileExistsError ∨ cls e = NotADirectoryError.
Proof.
  revert s. induction l as [|q l IH]; intros s; simpl; [done|].
  unfold bind. destruct (mkdir_exist_ok goal q s) as [[[]|e0] s0] eqn:Hq.
  - apply IH.
  - intros [= <- <-]. unfold mkdir_exist_ok in Hq.
    destruct (s !! q) as [[m c|]|]; simplify_eq. simpl.
    case_bool_decide; [by left | by right].
Qed.

(** X8: every error of [LinuxHandler.install] is a [RuntimeError] whose
    message starts with "Failed to install FFmpeg: ".  [MacOSHandler.install]
    has one more way to fail: its [os.makedirs] runs before the [try], so
    when [install_path] cannot be created the [FileExistsError] or
    [NotADirectoryError] of [os.makedirs] leaves [install] as it is, and
    nothing else has been done. *)
Theorem install_errors (download_path install_path : path) (s : fs) (e : exn) :
  ((Linux.install download_path install_path s).1 = Raise e →
   cls e = RuntimeError
   ∧ ∃ cause, msg e = "Failed to install FFmpeg: " +:+ cause)
  ∧ ((MacOS.install download_path install_path s).1 = Raise e →
     (cls e = RuntimeError
      ∧ ∃ cause, msg e = "Failed to install FFmpeg: " +:+ cause)
     ∨ (os_makedirs install_path s
        = (Raise e, (MacOS.install download_path install_path s).2)
        ∧ (cls e = FileExistsError ∨ cls e = NotADirectoryError))).
Proof.
  split.
  - unfold Linux.install. rewrite try_except_Exception.
    match goal with |- context [bind ?m ?k s] =>
      destruct (bind m k s) as [[[]|e0] s'] end; [done|]. simpl. intros [= <-].
    split; [done|]. by eexists.
  - unfold MacOS.install.
    destruct (os_makedirs install_path s) as [[[]|e0] s0] eqn:Hmk.
    + rewrite (bind_ok _ _ _ _ _ Hmk), try_except_Exception.
      match goal with |- context [bind ?m ?k s0] =>
        destruct (bind m k s0) as [[[]|e1] s'] end; [done|]. simpl. intros [= <-].
      left. split; [done|]. by eexists.
    + rewrite (bind_raise _ _ _ _ _ Hmk). simpl. intros [= <-].
      right. split; [done|]. by eapply for_each_mkdir_raises.
Qed.

Lemma install_errors_witness :
  ∃ e, (MacOS.install Sample.download_path Sample.download_path
          (Sample.clean_disk (ZipArchive Sample.members))).1 = Raise e
       ∧ cls e = FileExistsError.
Proof.
  eexists. split; [by vm_compute|].
  destruct (install_errors Sample.download_path Sample.download_path
              (Sample.clean_disk (ZipArchive Sample.members))
              (Exn FileExistsError "makedirs")) as [_ Hmacos].
  destruct Hmacos as [[Hcls _]|[_ Hcls]]; [by vm_compute| |]; done.
Defined.

Lemma clean_up_gone (dl : path) (s s' : fs) :
  clean_up dl s = (Ok tt, s') → s' !! dl = None.
Proof.
  unfold clean_up, bind, os_path_exists, os_remove.
  destruct (s !! dl) as [[m c|]|] eqn:Hdl.
  - rewrite bool_decide_eq_true_2 by by eexists. rewrite Hdl.
    intros [= <-]. apply lookup_delete_eq.
  - rewrite bool_decide_eq_true_2 by by eexists. by rewrite Hdl.
  - rewrite bool_decide_eq_false_2 by by intros [? ?]. by intros [= <-].
Qed.

(** What [install] does inside its [try], stage by stage. *)
Lemma install_stages (extract : M fs unit) (dl inst : path) (s s' : fs) :
  (extract ;;; move_binaries dl inst ;;; clean_up dl) s = (Ok tt, s') →
  ∃ s1 s2, extract s = (Ok tt, s1)
           ∧ move_binaries dl inst s1 = (Ok tt, s2)
           ∧ clean_up dl s2 = (Ok tt, s').
Proof.
  unfold bind. destruct (extract s) as [[[]|e] s1]; [|done].
  destruct (move_binaries dl inst s1) as [[[]|e] s2] eqn:Hmove; [|done].
  intros Hclean. exists s1, s2. split; [done|]. split; [exact Hmove|exact Hclean].
Qed.

(** X9: a successful [install] consumes the archive: when [install] of
    either handler returns, nothing exists at [download_path]. *)
Theorem install_consumes_archive (download_path install_path : path) (s s' : fs) :
  (Linux.install download_path install_path s = (Ok tt, s') →
   s' !! download_path = None)
  ∧ (MacOS.install download_path install_path s = (Ok tt, s') →
     s' !! download_path = None).
Proof.
  split.
  - unfold Linux.install. rewrite try_except_Exception.
    match goal with |- context [bind ?m ?k s] =>
      destruct (bind m k s) as [[[]|e] s1] eqn:Hbody end; [|done]. intros [= <-].
    apply install_stages in Hbody as (? & ? & _ & _ & Hclean).
    by eapply clean_up_gone.
  - unfold MacOS.install.
    destruct (os_makedirs install_path s) as [[[]|e0] s0] eqn:Hmk;
      [|by rewrite (bind_raise _ _ _ _ _ Hmk)].
    rewrite (bind_ok _ _ _ _ _ Hmk), try_except_Exception.
    match goal with |- context [bind ?m ?k s0] =>
      destruct (bind m k s0) as [[[]|e] s1] eqn:Hbody end; [|done]. intros [= <-].
    apply install_stages in Hbody as (? & ? & _ & _ & Hclean).
    by eapply clean_up_gone.
Qed.

Lemma install_consumes_archive_witness :
  (MacOS.install Sample.download_path Sample.install_path
     (Sample.disk (ZipArchive Sample.members))).2 !! Sample.download_path = None.
Proof.
  eapply (install_consumes_archive Sample.download_path Sample.install_path
            (Sample.disk (ZipArchive Sample.members))).
  apply outcome_and_state. by vm_compute.
Defined.

(** X10: [install] never removes a directory and never puts a file in the
    place of one: whatever it is given and however it ends, every directory
    that was there before is a directory afterwards. *)
Theorem install_keeps_directories (download_path install_path : path) (s : fs) (p : path) :
  s !! p = Some Dir →
  (Linux.install download_path install_path s).2 !! p = Some Dir
  ∧ (MacOS.install download_path install_path s).2 !! p = Some Dir.
Proof.
  intros Hp. split.
  - by apply linux_install_dirs.
  - by apply macos_install_dirs.
Qed.

Lemma install_keeps_directories_witness :
  (Linux.install Sample.download_path Sample.install_path
     (Sample.disk (TarXz Sample.members))).2 !! ["tmp"; "dl"; "old"; "bin"]
  = Some Dir.
Proof.
  by apply (install_keeps_directories Sample.download_path Sample.install_path
              (Sample.disk (TarXz Sample.members)) ["tmp"; "dl"; "old"; "bin"]).
Defined.

(** ** The move only takes files out of [bin] and [lib] directories *)

(** [p] is directly inside a directory below [ex] that the walk treats as
    [bin] or [lib]. *)
Definition source_path (ex p : path) : Prop :=
  ∃ sub d f, sub ∈ SUBDIRS ∧ source_dir ex sub d ∧ p = d ++ [f].

(** [p] is directly inside [inst/bin] or [inst/lib]. *)
Definition dest_path (inst p : path) : Prop :=
  ∃ sub f, sub ∈ SUBDIRS ∧ p = inst ++ [sub; f].

(** A regular file stays as it is, or it is at a destination path and
    still a regular file, or it is one that the move may take. *)
Definition moves_only (ex inst : path) (s s' : fs) : Prop :=
  ∀ p m c, s !! p = Some (File m c) →
    s' !! p = Some (File m c)
    ∨ (dest_path inst p ∧ is_file s' p = true)
    ∨ source_path ex p.

Global Instance moves_only_preorder (ex inst : path) : PreOrder (moves_only ex inst).
Proof.
  split.
  - intros s p m c Hp. by left.
  - intros s1 s2 s3 H12 H23 p m c Hp.
    destruct (H12 p m c Hp) as [Hp2|[[Hdest Hfile]|Hsrc]].
    + by apply H23.
    + apply is_file_true in Hfile as (m' & c' & Hp2).
      destruct (H23 p m' c' Hp2) as [Hp3|[[_ Hfile]|Hsrc]].
      * right. left. split; [done|]. apply is_file_true. by eauto.
      * right. by left.
      * by right; right.
    + by right; right.
Qed.

Section moves_only.
Context (ex inst : path).

Lemma mkdir_exist_ok_moves (goal q : path) :
  respects (moves_only ex inst) (mkdir_exist_ok goal q).
Proof.
  intros s p m c Hp. left. unfold mkdir_exist_ok.
  destruct (s !! q) as [[m' c'|]|] eqn:Hq; simpl; try done.
  rewrite lookup_insert_ne; [done|]. congruence.
Qed.

Lemma os_makedirs_moves (p : path) : respects (moves_only ex inst) (os_makedirs p).
Proof. apply respects_for_each; [apply _|]. intros q. apply mkdir_exist_ok_moves. Qed.

Lemma shutil_move_moves (sub : string) (root : path) (file : string) :
  sub ∈ SUBDIRS → source_dir ex sub root →
  respects (moves_only ex inst)
    (shutil_move (root ++ [file]) (inst ++ [sub; file])).
Proof.
  intros Hsub Hroot s p m c Hp.
  destruct (decide (p = root ++ [file])) as [->|Hsrc].
  { right; right. by exists sub, root, file. }
  unfold shutil_move, os_rename.
  destruct (s !! (root ++ [file])) as [[m0 c0|]|] eqn:Hfile; simpl; [|by left..].
  destruct (is_dir s (inst ++ [sub; file])) eqn:Hdst.
  - case_bool_decide as Hreal; simpl; [by left|].
    destruct (is_dir s (os_path_dirname _)); simpl; [|by left].
    left. rewrite lookup_insert_ne, lookup_delete_ne; [done..|].
    intros <-. apply Hreal. by eexists.
  - destruct (is_dir s (os_path_dirname _)); simpl; [|by left].
    destruct (decide (p = inst ++ [sub; file])) as [->|Hne].
    + right; left. split; [by exists sub, file|].
      unfold is_file. by rewrite lookup_insert_eq.
    + left. by rewrite lookup_insert_ne, lookup_delete_ne.
Qed.

Lemma os_chmod_moves (sub file : string) (mode : Z) :
  sub ∈ SUBDIRS →
  respects (moves_only ex inst) (os_chmod (inst ++ [sub; file]) mode).
Proof.
  intros Hsub s p m c Hp. unfold os_chmod.
  destruct (s !! (inst ++ [sub; file])) as [[m0 c0|]|] eqn:Hdst; simpl; [|by left..].
  destruct (decide (p = inst ++ [sub; file])) as [->|Hne].
  - right; left. split; [by exists sub, file|].
    unfold is_file. by rewrite lookup_insert_eq.
  - left. by rewrite lookup_insert_ne.
Qed.

Lemma visit_moves (root : path) (dirs files : list string) :
  respects (moves_only ex inst) (visit ex inst root dirs files).
Proof.
  unfold visit. destruct (relative_to root ex) as [rel|] eqn:Hrel;
    [|apply respects_raise; apply _].
  cbv zeta. case_bool_decide as Hbin; [|case_bool_decide as Hlib].
  - rewrite Hbin.
    apply respects_bind; [apply _|apply os_makedirs_moves|]. intros _.
    apply respects_for_each; [apply _|]. intros file.
    apply respects_bind; [apply _| |].
    + apply shutil_move_moves; [apply subdirs_bin | by exists rel].
    + intros _. apply os_chmod_moves, subdirs_bin.
  - rewrite Hlib.
    apply respects_bind; [apply _|apply os_makedirs_moves|]. intros _.
    apply respects_for_each; [apply _|]. intros file.
    apply shutil_move_moves; [apply subdirs_lib | by exists rel].
  - apply respects_ret; apply _.
Qed.

End moves_only.

Lemma move_binaries_moves (dl inst : path) :
  respects (moves_only (os_path_dirname dl) inst) (move_binaries dl inst).
Proof.
  intros s. unfold move_binaries.
  apply respects_os_walk; [apply _|]. intros. apply visit_moves.
Qed.

(** X11: the move phase leaves every other regular file alone.  A file that
    is neither directly inside a directory named [bin] or [lib] below the
    download directory, nor at [install_path/bin/<name>] or
    [install_path/lib/<name>], has the same mode and content after the move
    phase, however the move phase ends. *)
Theorem move_binaries_leaves_other_files (download_path install_path : path) (s : fs)
    (p : path) (m : Z) (c : content) :
  s !! p = Some (File m c) →
  (∀ sub f, sub ∈ SUBDIRS → p ≠ install_path ++ [sub; f]) →
  (∀ sub rel f, sub ∈ SUBDIRS → path_name rel = sub →
     p ≠ os_path_dirname download_path ++ rel ++ [f]) →
  (move_binaries download_path install_path s).2 !! p = Some (File m c).
Proof.
  intros Hp Hdest Hsrc.
  destruct (move_binaries_moves download_path install_path s p m c Hp)
    as [?|[[(sub & f & Hsub & ->) _]|(sub & d & f & Hsub & Hd & ->)]]; [done|..].
  - by destruct (Hdest sub f).
  - destruct Hd as (rel & ->%relative_to_spec & Hname).
    destruct (Hsrc sub rel f Hsub Hname). by rewrite app_assoc.
Qed.

Lemma move_binaries_leaves_other_files_witness :
  (move_binaries Sample.download_path Sample.install_path
     (Sample.extracted (Bytes "archive"))).2 !! Sample.download_path
  = Some (File 420 (Bytes "archive")).
Proof.
  apply move_binaries_leaves_other_files; [by vm_compute|..].
  - intros sub f _ [=].
  - intros sub [|x rel] f Hsub Hname.
    + rewrite <- Hname in Hsub. vm_compute in Hsub. set_unfold. intuition congruence.
    + intros [= _ Hrel]. by destruct rel.
Defined.

(** The archive is not one of the files the move may take. *)
Lemma archive_not_source (dl : path) : ¬ source_path (os_path_dirname dl) dl.
Proof.
  intros (sub & d & f & Hsub & Hd & ->).
  unfold os_path_dirname in Hd. rewrite removelast_last in Hd.
  by apply (source_dir_not_root d sub); [apply subdirs_nonempty|].
Qed.

Lemma moves_only_archive (dl inst : path) (s s' : fs) :
  moves_only (os_path_dirname dl) inst s s' →
  is_file s dl = true → is_file s' dl = true.
Proof.
  intros Hmoves (m & c & Hdl)%is_file_true.
  destruct (Hmoves dl m c Hdl) as [Hsame|[[_ ?]|Hsrc]]; [|done|].
  - apply is_file_true. by eauto.
  - by apply archive_not_source in Hsrc.
Qed.

(** What follows the extraction, when it fails. *)
Lemma move_and_clean_up_fails (dl inst : path) (s1 s' : fs) (e : exn) :
  is_file s1 dl = true →
  (move_binaries dl inst ;;; clean_up dl) s1 = (Raise e, s') →
  is_file s' dl = true.
Proof.
  intros Hdl. unfold bind.
  pose proof (moves_only_archive dl inst s1 _ (move_binaries_moves dl inst s1) Hdl)
    as Hdl2.
  destruct (move_binaries dl inst s1) as [[[]|e2] s2]; simpl in Hdl2.
  - unfold clean_up, bind, os_path_exists, os_remove.
    apply is_file_true in Hdl2 as (m & c & Hdl2).
    rewrite bool_decide_eq_true_2 by by eexists. by rewrite Hdl2.
  - by intros [= _ <-].
Qed.

(** X12: a failed [install] does not lose the archive: when [install] of
    either handler raises and [download_path] was a regular file, it still
    is one afterwards.  (With X9: the archive is removed exactly when
    [install] returns.) *)
Theorem failed_install_keeps_archive (download_path install_path : path) (s s' : fs)
    (e : exn) :
  is_file s download_path = true →
  (Linux.install download_path install_path s = (Raise e, s') →
   is_file s' download_path = true)
  ∧ (MacOS.install download_path install_path s = (Raise e, s') →
     is_file s' download_path = true).
Proof.
  intros Hdl. split.
  - unfold Linux.install. rewrite try_except_Exception.
    pose proof (linux_extract_files download_path s _ Hdl) as Hdl1.
    unfold bind at 1.
    destruct (Linux.extract download_path s) as [[[]|e1] s1]; simpl in Hdl1.
    + destruct ((move_binaries download_path install_path ;;;
                 clean_up download_path) s1) as [[[]|e2] s2] eqn:Htail; [done|].
      simpl. intros [= _ <-]. by eapply move_and_clean_up_fails.
    + simpl. by intros [= _ <-].
  - unfold MacOS.install.
    pose proof (os_makedirs_files install_path s _ Hdl) as Hdl0.
    destruct (os_makedirs install_path s) as [[[]|e0] s0] eqn:Hmk; simpl in Hdl0.
    + rewrite (bind_ok _ _ _ _ _ Hmk), try_except_Exception.
      pose proof (macos_extract_files download_path s0 _ Hdl0) as Hdl1.
      unfold bind at 1.
      destruct (MacOS.extract download_path s0) as [[[]|e1] s1]; simpl in Hdl1.
      * destruct ((move_binaries download_path install_path ;;;
                   clean_up download_path) s1) as [[[]|e2] s2] eqn:Htail; [done|].
        simpl. intros [= _ <-]. by eapply move_and_clean_up_fails.
      * simpl. by intros [= _ <-].
    + rewrite (bind_raise _ _ _ _ _ Hmk). by intros [= _ <-].
Qed.

Lemma failed_install_keeps_archive_witness :
  is_file (Linux.install Sample.download_path Sample.install_path
             (Sample.disk (TarXz Sample.doc_only))).2 Sample.download_path = true.
Proof.
  edestruct (failed_install_keeps_archive Sample.download_path Sample.install_path
               (Sample.disk (TarXz Sample.doc_only))) as [Hlinux _];
    [by vm_compute|].
  apply Hlinux. apply outcome_and_state. by vm_compute.
Defined.

(** ** [check_installed]: the passing run *)

(** X13: a check that passes has run each of the three binaries exactly
    once with [-version], in the order [ffmpeg], [ffprobe], [ffplay], and
    has printed nothing: from the given path when the binaries are there
    (and, for [MacOSHandler], executable), as bare commands in the global
    check of [MacOSHandler]. *)
Theorem check_installed_passes (h : host) (p : string) (t : list event) :
  (p ≠ "" →
   Forall (λ binary, host_exists h (os_path_join p binary) = true) BINARIES →
   Forall (λ binary, host_run h [os_path_join p binary; "-version"] = Completed 0)
     BINARIES →
   Linux.check_installed h (Some p) t
   = (Ok true, t ++ map (λ binary, Ran [os_path_join p binary; "-version"]) BINARIES))
  ∧ (p ≠ "" → host_exists h p = true →
     Forall (λ binary, host_exists h (os_path_join p binary)
                       && host_access_x h (os_path_join p binary) = true) BINARIES →
     Forall (λ binary, host_run h [os_path_join p binary; "-version"] = Completed 0)
       BINARIES →
     MacOS.check_installed h (Some p) t
     = (Ok true, t ++ map (λ binary, Ran [os_path_join p binary; "-version"]) BINARIES))
  ∧ (Forall (λ binary, host_run h [binary; "-version"] = Completed 0) BINARIES →
     MacOS.global_check h t
     = (Ok true, t ++ map (λ binary, Ran [binary; "-version"]) BINARIES)).
Proof.
  split; [|split].
  - intros Hp Hexists Hruns. unfold Linux.check_installed.
    rewrite (proj2 (truthy_Some p) Hp). cbn [negb]. cbv zeta.
    change (default "" (Some p)) with p.
    rewrite (proj2 (missing_binaries_nil (host_exists h) p) Hexists).
    by apply health_loop_passes.
  - intros Hp Hpath Hexists Hruns. unfold MacOS.check_installed.
    rewrite (proj2 (truthy_Some p) Hp). cbv zeta.
    change (default "" (Some p)) with p. rewrite Hpath. cbn [andb].
    rewrite (proj2 (missing_binaries_nil
                      (λ q, host_exists h q && host_access_x h q) p) Hexists).
    by apply health_loop_passes.
  - intros Hruns. unfold MacOS.global_check.
    by apply (health_loop_passes h (λ binary, binary)).
Qed.

Lemma check_installed_passes_witness :
  MacOS.check_installed Sample.installed (Some "/opt/ffmpeg") []
  = (Ok true, [Ran ["/opt/ffmpeg/ffmpeg"; "-version"];
               Ran ["/opt/ffmpeg/ffprobe"; "-version"];
               Ran ["/opt/ffmpeg/ffplay"; "-version"]]).
Proof.
  destruct (check_installed_passes Sample.installed "/opt/ffmpeg" [])
    as (_ & Hmacos & _).
  rewrite Hmacos; [done|done|by vm_compute|..]; repeat constructor.
Defined.

(** ** [install]: from the archive to the installation directory *)

Lemma elem_of_ancestors (q p : path) : q ∈ ancestors p ↔ ∃ r, p = q ++ r.
Proof.
  revert q. induction p as [|x p IH]; intros q; simpl.
  - rewrite list_elem_of_singleton. split.
    + intros ->. by exists [].
    + intros [r Hr]. symmetry in Hr. by apply app_eq_nil in Hr as [-> _].
  - rewrite elem_of_cons, list_elem_of_fmap. split.
    + intros [->|(q' & -> & Hq')]; [by eexists|].
      apply IH in Hq' as [r ->]. by exists r.
    + intros [r Hr]. destruct q as [|y q]; [by left|]. right.
      simpl in Hr. injection Hr as <- ->. exists q. split; [done|].
      apply IH. by exists r.
Qed.

Lemma ancestors_walkable (s : fs) (top rel : path) :
  (∀ q, q ∈ ancestors (top ++ rel) → is_dir s q = true) →
  walkable s top rel = true.
Proof.
  revert top. induction rel as [|x rel IH]; intros top Hdirs; simpl.
  - rewrite andb_true_r. apply Hdirs. rewrite app_nil_r. apply ancestors_self.
  - apply andb_true_iff. split.
    + apply Hdirs, elem_of_ancestors. by eexists.
    + apply IH. intros q Hq. apply Hdirs. by rewrite <- app_assoc in Hq.
Qed.

(** [os.makedirs] does not touch a regular file. *)
Lemma os_makedirs_keeps_files (p : path) (s : fs) (q : path) (m : Z) (c : content) :
  s !! q = Some (File m c) → (os_makedirs p s).2 !! q = Some (File m c).
Proof.
  unfold os_makedirs. generalize (ancestors p). intros l. revert s.
  induction l as [|x l IH]; intros s Hq; simpl; [done|].
  unfold bind, mkdir_exist_ok.
  destruct (s !! x) as [[m0 c0|]|] eqn:Hx; simpl; [done|by apply IH|].
  apply IH. rewrite lookup_insert_ne; [done|]. congruence.
Qed.

Lemma write_file_lands (target : path) (payload : string) (s s' : fs) :
  write_file target payload s = (Ok tt, s') →
  is_dir s (os_path_dirname target) = true ∧ is_file s' target = true.
Proof.
  unfold write_file, is_dir, is_file. intros Hrun.
  destruct (s !! target) as [[m0 c0|]|]; [|done|];
    destruct (s !! os_path_dirname target) as [[]|]; simplify_eq;
    by rewrite lookup_insert_eq.
Qed.

(** A regular-file member that [zipfile] has extracted is a file below the
    destination, at the end of a chain of directories. *)
Lemma zipfile_extract_lands (dest : path) (m : member) (s s' : fs)
    (rel : path) (f : string) (mode : Z) (payload : string) :
  zipfile_extract dest m s = (Ok tt, s') →
  kind m = RegularFile mode payload → member_path (name m) = rel ++ [f] →
  walkable s' dest rel = true ∧ is_file s' (dest ++ rel ++ [f]) = true.
Proof.
  unfold zipfile_extract. intros Hrun Hkind Hpath. rewrite Hkind, Hpath in Hrun.
  rewrite app_assoc in *. unfold os_path_dirname in Hrun.
  rewrite removelast_last in Hrun. unfold bind in Hrun.
  destruct (os_makedirs (dest ++ rel) s) as [[[]|e] s0] eqn:Hmk; [|done].
  pose proof (for_each_mkdir_ok _ _ _ _ Hmk) as Hdirs.
  pose proof (write_file_dirs ((dest ++ rel) ++ [f]) payload s0) as Hkeep.
  rewrite Hrun in Hkeep. simpl in Hkeep. split.
  - apply ancestors_walkable. intros q Hq. by apply is_dir_true, Hkeep, Hdirs.
  - by apply (write_file_lands _ _ _ _ Hrun).
Qed.

Lemma zipfile_extracts_land (dest : path) (ms : list member) (m : member)
    (s s' : fs) (rel : path) (f : string) (mode : Z) (payload : string) :
  for_each ms (zipfile_extract dest) s = (Ok tt, s') → m ∈ ms →
  kind m = RegularFile mode payload → member_path (name m) = rel ++ [f] →
  walkable s' dest rel = true ∧ is_file s' (dest ++ rel ++ [f]) = true.
Proof.
  intros Hrun Hin Hkind Hpath. revert s Hrun.
  induction ms as [|m0 ms IH]; intros s Hrun; [by apply elem_of_nil in Hin|].
  simpl in Hrun. unfold bind in Hrun.
  destruct (zipfile_extract dest m0 s) as [[[]|e] s0] eqn:Hm0; [|done].
  apply elem_of_cons in Hin as [->|Hin]; [|by eapply IH].
  destruct (zipfile_extract_lands _ _ _ _ _ _ _ _ Hm0 Hkind Hpath) as [Hw Hf].
  pose proof (respects_for_each dirs_preserved ms _
                (zipfile_extract_dirs dest) s0) as Hdirs.
  pose proof (respects_for_each files_preserved ms _
                (zipfile_extract_files dest) s0) as Hfiles.
  rewrite Hrun in Hdirs, Hfiles. simpl in Hdirs, Hfiles.
  split; [by eapply walkable_mono | by apply Hfiles].
Qed.

(** A name without [.] and [..] leads to the path of its components. *)
Lemma lookup_name_plain (s s' : fs) (cur : path) (xs : list string) (d : path) :
  Forall (λ x, x ∉ ["."; ".."]) xs →
  lookup_name cur xs s = (Ok d, s') →
  d = cur ++ xs ∧ (is_dir s d = true → walkable s cur xs = true).
Proof.
  revert cur. induction xs as [|x xs IH]; intros cur Hplain Hrun; simpl in Hrun.
  - injection Hrun as <- <-. rewrite app_nil_r. split; [done|].
    simpl. by intros ->.
  - apply Forall_cons in Hplain as [Hx Hplain].
    destruct (s !! cur) as [[]|] eqn:Hcur; [done| |done].
    unfold step_into in Hrun.
    rewrite !bool_decide_eq_false_2 in Hrun by (set_unfold; tauto).
    apply IH in Hrun as [-> Hw]; [|done]. split; [by rewrite <- app_assoc|].
    intros Hd. simpl. apply andb_true_iff. split; [|by apply Hw].
    unfold is_dir. by rewrite Hcur.
Qed.

(** A regular-file member with a relative name without [.] and [..] that
    [tarfile] has extracted is a file below the destination, at the end of a
    chain of directories. *)
Lemma tarfile_extract_lands (dest : path) (m : member) (s s' : fs)
    (rel : path) (f : string) (mode : Z) (payload : string) :
  tarfile_extract dest m s = (Ok tt, s') →
  kind m = RegularFile mode payload →
  Str.startswith (name m) "/" = false →
  components (name m) = rel ++ [f] →
  Forall (λ x, x ∉ ["."; ".."]) (rel ++ [f]) →
  walkable s' dest rel = true ∧ is_file s' (dest ++ rel ++ [f]) = true.
Proof.
  unfold tarfile_extract. intros Hrun Hkind Habs Hcomps Hplain.
  rewrite Habs, Hcomps, rev_app_distr, Hkind in Hrun. simpl in Hrun.
  rewrite rev_involutive in Hrun.
  apply Forall_app in Hplain as [Hrel Hf]. apply Forall_cons in Hf as [Hf _].
  match type of Hrun with
  | bind ?pre _ _ = _ => destruct (pre s) as [[[]|e] s0] eqn:Hpre;
                           rewrite ?(bind_ok _ _ _ _ _ Hpre),
                             ?(bind_raise _ _ _ _ _ Hpre) in Hrun; [|done]
  end.
  destruct (open_name dest rel f payload s0) as [[target|e] s1] eqn:Hopen;
    rewrite ?(bind_ok _ _ _ _ _ Hopen), ?(bind_raise _ _ _ _ _ Hopen) in Hrun; [|done].
  unfold open_name in Hopen.
  destruct (lookup_name dest rel s0) as [[d|e] s0'] eqn:Hlook;
    rewrite ?(bind_ok _ _ _ _ _ Hlook), ?(bind_raise _ _ _ _ _ Hlook) in Hopen; [|done].
  pose proof (lookup_name_state dest rel s0) as Hst.
  rewrite Hlook in Hst. simpl in Hst. subst s0'.
  destruct (lookup_name_plain _ _ _ _ _ Hrel Hlook) as [-> Hw].
  rewrite bool_decide_eq_false_2 in Hopen by done.
  destruct (write_file ((dest ++ rel) ++ [f]) payload s0) as [[[]|e] s1'] eqn:Hwrite;
    rewrite ?(bind_ok _ _ _ _ _ Hwrite), ?(bind_raise _ _ _ _ _ Hwrite) in Hopen;
    [|done].
  injection Hopen as <- <-.
  destruct (write_file_lands _ _ _ _ Hwrite) as [Hdir Hfile].
  unfold os_path_dirname in Hdir. rewrite removelast_last in Hdir.
  pose proof (write_file_dirs ((dest ++ rel) ++ [f]) payload s0) as Hdirs1.
  rewrite Hwrite in Hdirs1. simpl in Hdirs1.
  pose proof (os_chmod_dirs ((dest ++ rel) ++ [f]) mode s1') as Hdirs2.
  pose proof (os_chmod_files ((dest ++ rel) ++ [f]) mode s1') as Hfiles2.
  rewrite Hrun in Hdirs2, Hfiles2. simpl in Hdirs2, Hfiles2.
  split.
  - eapply walkable_mono; [exact Hdirs2|]. eapply walkable_mono; [exact Hdirs1|].
    by apply Hw.
  - rewrite app_assoc. by apply Hfiles2.
Qed.

Lemma tarfile_extractall_lands (dest : path) (ms : list member) (m : member)
    (s s' : fs) (rel : path) (f : string) (mode : Z) (payload : string) :
  tarfile_extractall dest ms s = (Ok tt, s') → m ∈ ms →
  kind m = RegularFile mode payload →
  Str.startswith (name m) "/" = false →
  components (name m) = rel ++ [f] →
  Forall (λ x, x ∉ ["."; ".."]) (rel ++ [f]) →
  walkable s' dest rel = true ∧ is_file s' (dest ++ rel ++ [f]) = true.
Proof.
  unfold tarfile_extractall. intros Hrun Hin Hkind Habs Hcomps Hplain.
  destruct (for_each ms (tarfile_extract dest) s) as [[[]|e] s1] eqn:Hloop;
    rewrite ?(bind_ok _ _ _ _ _ Hloop), ?(bind_raise _ _ _ _ _ Hloop) in Hrun; [|done].
  assert (walkable s1 dest rel = true ∧ is_file s1 (dest ++ rel ++ [f]) = true)
    as [Hw Hf].
  { clear Hrun. revert s Hloop.
    induction ms as [|m0 ms IH]; intros s Hloop; [by apply elem_of_nil in Hin|].
    simpl in Hloop.
    destruct (tarfile_extract dest m0 s) as [[[]|e] s0] eqn:Hm0;
      rewrite ?(bind_ok _ _ _ _ _ Hm0), ?(bind_raise _ _ _ _ _ Hm0) in Hloop; [|done].
    apply elem_of_cons in Hin as [->|Hin]; [|by eapply IH].
    destruct (tarfile_extract_lands _ _ _ _ _ _ _ _ Hm0 Hkind Habs Hcomps Hplain)
      as [Hw Hf].
    pose proof (respects_for_each dirs_preserved ms _
                  (tarfile_extract_dirs dest) s0) as Hdirs.
    pose proof (respects_for_each files_preserved ms _
                  (tarfile_extract_files dest) s0) as Hfiles.
    rewrite Hloop in Hdirs, Hfiles. simpl in Hdirs, Hfiles.
    split; [by eapply walkable_mono | by apply Hfiles]. }
  match type of Hrun with
  | for_each ?l _ _ = _ =>
      pose proof (respects_for_each dirs_preserved l _
                    (restore_directory_mode_dirs dest) s1) as Hdirs;
      pose proof (respects_for_each files_preserved l _
                    (restore_directory_mode_files dest) s1) as Hfiles
  end.
  rewrite Hrun in Hdirs, Hfiles. simpl in Hdirs, Hfiles.
  split; [by eapply walkable_mono | by apply Hfiles].
Qed.

Lemma member_path_plain (name : string) :
  Forall (λ x, x ∉ ["."; ".."]) (member_path name).
Proof.
  apply Forall_forall. intros x [Hx _]%list_elem_of_filter.
  set_unfold. tauto.
Qed.

(** [install] on resolved paths installs what the archive holds. *)
Lemma install_installs_resolved (download_path install_path : path) (s : fs)
    (mode0 : Z) (members : list member) (member : member)
    (sub : string) (rel : path) (f : string) (mode : Z) (payload : string) :
  let extracted_dir := os_path_dirname download_path in
  let installed (s1 s' : fs) :=
    ∃ rel' m' c',
      path_name rel' = sub
      ∧ s1 !! (extracted_dir ++ rel' ++ [f]) = Some (File m' c')
      ∧ s' !! (install_path ++ [sub; f]) = Some (File (final_mode sub m') c') in
  member ∈ members → selected (name member) = true →
  kind member = RegularFile mode payload →
  member_path (name member) = rel ++ [f] →
  sub ∈ SUBDIRS → path_name rel = sub →
  (s !! download_path = Some (File mode0 (TarXz members)) →
   Str.startswith (name member) "/" = false →
   components (name member) = rel ++ [f] →
   ∀ s1, Linux.extract download_path s = (Ok tt, s1) →
         destination_free install_path s1 = true →
         ∃ s', Linux.install download_path install_path s = (Ok tt, s')
               ∧ installed s1 s')
  ∧ (s !! download_path = Some (File mode0 (ZipArchive members)) →
     ∀ s0 s1, os_makedirs install_path s = (Ok tt, s0) →
              MacOS.extract download_path s0 = (Ok tt, s1) →
              destination_free install_path s1 = true →
              ∃ s', MacOS.install download_path install_path s = (Ok tt, s')
                    ∧ installed s1 s').
Proof.
  intros ex installed Hin Hsel Hkind Hpath Hsub Hname.
  assert (member ∈ filter (λ m, selected (name m)) members) as Hin'.
  { apply list_elem_of_filter. split; [by rewrite Hsel | done]. }
  split.
  - intros Hdl Habs Hcomps s1 Hext Hfree.
    assert (is_file s1 download_path = true) as Hdl1.
    { pose proof (linux_extract_files download_path s) as Hfiles.
      rewrite Hext in Hfiles. apply Hfiles. by eapply linux_extract_opened. }
    assert (walkable s1 ex rel = true ∧ is_file s1 (ex ++ rel ++ [f]) = true)
      as [Hw Hf].
    { unfold Linux.extract, bind, Linux.tarfile_open in Hext. rewrite Hdl in Hext.
      destruct (filter (λ m, selected (name m)) members) as [|m0 ms] eqn:Hfilter;
        [done|].
      eapply tarfile_extractall_lands; [exact Hext|exact Hin'|exact Hkind|done|done|].
      rewrite <- Hpath. apply member_path_plain. }
    destruct (move_and_clean_up download_path install_path s1 sub rel f)
      as (s' & Htail & Hmoved & _); try done.
    exists s'. split; [|done].
    unfold Linux.install. rewrite try_except_Exception.
    by rewrite (bind_ok _ _ _ _ _ Hext), Htail.
  - intros Hdl s0 s1 Hmk Hext Hfree.
    assert (is_file s1 download_path = true) as Hdl1.
    { pose proof (macos_extract_files download_path s0) as Hfiles.
      rewrite Hext in Hfiles. apply Hfiles. by eapply macos_extract_opened. }
    assert (walkable s1 ex rel = true ∧ is_file s1 (ex ++ rel ++ [f]) = true)
      as [Hw Hf].
    { assert (s0 !! download_path = Some (File mode0 (ZipArchive members))) as Hdl0.
      { pose proof (os_makedirs_keeps_files install_path s _ _ _ Hdl) as Hsame.
        by rewrite Hmk in Hsame. }
      unfold MacOS.extract, bind, MacOS.zipfile_open in Hext. rewrite Hdl0 in Hext.
      rewrite (for_each_filter (λ m, selected (name m))) in Hext.
      by eapply zipfile_extracts_land. }
    destruct (move_and_clean_up download_path install_path s1 sub rel f)
      as (s' & Htail & Hmoved & _); try done.
    exists s'. split; [|done].
    unfold MacOS.install. rewrite (bind_ok _ _ _ _ _ Hmk), try_except_Exception.
    by rewrite (bind_ok _ _ _ _ _ Hext), Htail.
Qed.

(** X14: [install] installs what the archive holds.  When [download_path]
    has a directory part, the extraction succeeds and nothing is in the way
    at the destination, [install] of either handler returns, and for every
    selected regular-file member whose path ends in [.../bin/<name>] (or
    [.../lib/<name>]) a file [<name>] is in [install_path/bin] (or
    [install_path/lib]) that comes from a [bin] (or [lib]) directory of the
    download directory; in [bin] it has mode [0o755].  For [LinuxHandler]
    the name of the member is relative and has no [.] or [..] component:
    [tarfile] puts other members elsewhere. *)
Theorem install_installs_members (cwd : path) (download_path install_path : pathname)
    (s : fs) (mode0 : Z) (members : list member) (member : member)
    (sub : string) (rel : path) (f : string) (mode : Z) (payload : string) :
  let dl := base cwd download_path in
  let inst := base cwd install_path in
  let extracted_dir := base cwd (dirname download_path) in
  let installed (s1 s' : fs) :=
    ∃ rel' m' c',
      path_name rel' = sub
      ∧ s1 !! (extracted_dir ++ rel' ++ [f]) = Some (File m' c')
      ∧ s' !! (inst ++ [sub; f]) = Some (File (final_mode sub m') c') in
  dirname download_path ≠ Relative [] →
  member ∈ members → selected (name member) = true →
  kind member = RegularFile mode payload →
  member_path (name member) = rel ++ [f] →
  sub ∈ SUBDIRS → path_name rel = sub →
  (s !! dl = Some (File mode0 (TarXz members)) →
   Str.startswith (name member) "/" = false →
   components (name member) = rel ++ [f] →
   ∀ s1, Linux.extract dl s = (Ok tt, s1) →
         destination_free inst s1 = true →
         ∃ s', LinuxHandler.install cwd download_path install_path s = (Ok tt, s')
               ∧ installed s1 s')
  ∧ (s !! dl = Some (File mode0 (ZipArchive members)) →
     install_path ≠ Relative [] →
     ∀ s0 s1, os_makedirs inst s = (Ok tt, s0) →
              MacOS.extract dl s0 = (Ok tt, s1) →
              destination_free inst s1 = true →
              ∃ s', MacOSHandler.install cwd download_path install_path s = (Ok tt, s')
                    ∧ installed s1 s').
Proof.
  intros dl inst ex installed Hdir. subst ex installed.
  rewrite (base_dirname _ _ (dirname_not_empty _ Hdir)).
  intros Hin Hsel Hkind Hpath Hsub Hname.
  destruct (install_installs_resolved dl inst s mode0 members member sub rel f mode
              payload Hin Hsel Hkind Hpath Hsub Hname) as [Hlinux Hmacos].
  split.
  - rewrite (linux_install_resolved _ _ _ Hdir). exact Hlinux.
  - intros Hdl Hinst. rewrite (macos_install_resolved _ _ _ Hdir Hinst).
    by apply Hmacos.
Qed.

Lemma install_installs_members_witness :
  ∃ s', LinuxHandler.install ["tmp"; "dl"] (Absolute Sample.download_path)
          (Absolute Sample.install_path) (Sample.disk (TarXz Sample.members))
        = (Ok tt, s')
        ∧ ∃ c, s' !! ["opt"; "ffmpeg"; "bin"; "ffmpeg"] = Some (File mode_0o755 c).
Proof.
  destruct (install_installs_members ["tmp"; "dl"] (Absolute Sample.download_path)
              (Absolute Sample.install_path)
              (Sample.disk (TarXz Sample.members)) 420 Sample.members
              (Member "pkg/bin/ffmpeg" (RegularFile 420 "ffmpeg"))
              "bin" ["pkg"; "bin"] "ffmpeg" 420 "ffmpeg") as [Hlinux _].
  - done.
  - by left.
  - by vm_compute.
  - done.
  - by vm_compute.
  - apply subdirs_bin.
  - done.
  - destruct (Hlinux eq_refl eq_refl eq_refl
                (Linux.extract Sample.download_path
                   (Sample.disk (TarXz Sample.members))).2)
      as (s' & Hrun & rel' & m' & c' & _ & _ & Hdst).
    + apply outcome_and_state. by vm_compute.
    + by vm_compute.
    + exists s'. split; [done|]. by exists c'.
Defined.

(** X15: [LinuxHandler.install] refuses an archive without binaries before
    it touches anything: when no member of the [.tar.xz] archive has [bin/]
    or [lib/] in its name, it raises the wrapped "No FFmpeg binaries found in
    archive" error and the file system is exactly as before (the archive is
    still there, nothing has been extracted or created). *)
Theorem linux_install_refuses_empty_selection (download_path install_path : path)
    (s : fs) (mode : Z) (members : list member) :
  s !! download_path = Some (File mode (TarXz members)) →
  Forall (λ m, selected (name m) = false) members →
  Linux.install download_path install_path s
  = (Raise (Exn RuntimeError
             "Failed to install FFmpeg: No FFmpeg binaries found in archive"), s).
Proof.
  intros Hdl Hnone. apply (linux_install_without_binaries _ _ _ mode members Hdl).
  clear Hdl. induction Hnone as [|m ms Hm _ IH]; [done|].
  rewrite filter_cons_False; [exact IH|]. rewrite Hm. by intros [].
Qed.

Lemma linux_install_refuses_empty_selection_witness :
  Linux.install Sample.download_path Sample.install_path
    (Sample.disk (TarXz Sample.doc_only))
  = (Raise (Exn RuntimeError
             "Failed to install FFmpeg: No FFmpeg binaries found in archive"),
     Sample.disk (TarXz Sample.doc_only)).
Proof.
  apply (linux_install_refuses_empty_selection _ _ _ 420 Sample.doc_only).
  - by vm_compute.
  - repeat constructor.
Defined.

(** X16: [install] without a readable archive.  When [download_path] does
    not hold an archive of the handler's format (nothing is there, or a
    directory, or a file of another format), [install] raises the wrapped
    error of the failed opening.  [LinuxHandler.install] has then changed
    nothing; [MacOSHandler.install] has created [install_path] and nothing
    else. *)
Theorem install_without_archive (download_path install_path : path) (s : fs) :
  ((∀ mode members, s !! download_path ≠ Some (File mode (TarXz members))) →
   ∃ cause, Linux.install download_path install_path s
            = (Raise (Exn RuntimeError ("Failed to install FFmpeg: " +:+ cause)), s))
  ∧ (∀ s0, os_makedirs install_path s = (Ok tt, s0) →
           (∀ mode members,
              s0 !! download_path ≠ Some (File mode (ZipArchive members))) →
           ∃ cause, MacOS.install download_path install_path s
                    = (Raise (Exn RuntimeError
                                ("Failed to install FFmpeg: " +:+ cause)), s0)).
Proof.
  split.
  - intros Hdl. unfold Linux.install. rewrite try_except_Exception.
    unfold bind at 1. unfold Linux.extract, bind, Linux.tarfile_open.
    destruct (s !! download_path) as [[mode [data|members|members]|]|] eqn:Hs;
      try (eexists; reflexivity).
    by destruct (Hdl mode members).
  - intros s0 Hmk Hdl. unfold MacOS.install.
    rewrite (bind_ok _ _ _ _ _ Hmk), try_except_Exception.
    unfold bind at 1. unfold MacOS.extract, bind, MacOS.zipfile_open.
    destruct (s0 !! download_path) as [[mode [data|members|members]|]|] eqn:Hs;
      try (eexists; reflexivity).
    by destruct (Hdl mode members).
Qed.

Lemma install_without_archive_witness :
  ∃ cause, MacOS.install ["tmp"; "dl"; "missing.zip"] Sample.install_path
             (Sample.clean_disk (Bytes ""))
           = (Raise (Exn RuntimeError ("Failed to install FFmpeg: " +:+ cause)),
              (os_makedirs Sample.install_path (Sample.clean_disk (Bytes ""))).2).
Proof.
  destruct (install_without_archive ["tmp"; "dl"; "missing.zip"] Sample.install_path
              (Sample.clean_disk (Bytes ""))) as [_ Hmacos].
  apply Hmacos.
  - apply outcome_and_state. by vm_compute.
  - intros mode members. by vm_compute.
Defined.

(** X17: installing over an installation keeps what is not replaced.  When
    nothing is in the way at the destination, a file that is already in
    [install_path/bin] (or [install_path/lib]) and whose name no file of a
    [bin] (or [lib]) directory of the download directory has, is the same
    file after the move phase. *)
Theorem move_binaries_keeps_installed_files (download_path install_path : path) (s : fs)
    (sub g : string) (m : Z) (c : content) :
  destination_free install_path s = true →
  sub ∈ SUBDIRS →
  s !! (install_path ++ [sub; g]) = Some (File m c) →
  (∀ rel m' c', path_name rel = sub →
     s !! (os_path_dirname download_path ++ rel ++ [g]) ≠ Some (File m' c')) →
  ∃ s', move_binaries download_path install_path s = (Ok tt, s')
        ∧ s' !! (install_path ++ [sub; g]) = Some (File m c).
Proof.
  intros Hfree Hsub Hfile Hfresh.
  destruct (move_binaries_spec download_path install_path s Hfree)
    as (s' & Hrun & Hstep & _).
  exists s'. split; [done|].
  assert (is_file s' (install_path ++ [sub; g]) = true) as (m' & c' & Hs')%is_file_true.
  { apply (step_dest _ _ _ _ Hstep); [done|]. apply is_file_true. by eauto. }
  destruct (step_files _ _ _ _ Hstep _ _ _ Hs')
    as [Hsame|(sub' & f & Hsub' & Heq & (d & m0 & c0 & Hd & Hd_file & _))].
  - congruence.
  - apply dest_inj in Heq as [<- <-].
    destruct Hd as (rel & ->%relative_to_spec & Hname).
    rewrite <- app_assoc in Hd_file. by destruct (Hfresh rel m0 c0 Hname).
Qed.

Lemma move_binaries_keeps_installed_files_witness :
  ∃ s', move_binaries Sample.download_path Sample.install_path Sample.reinstall
        = (Ok tt, s')
        ∧ s' !! (Sample.install_path ++ ["bin"; "keep"])
          = Some (File 420 (Bytes "keep")).
Proof.
  apply move_binaries_keeps_installed_files.
  - by vm_compute.
  - by_compute.
  - by vm_compute.
  - intros rel m' c' _ Hlook%elem_of_map_to_list.
    assert (Forall (λ kv : path * node,
                      last kv.1 = Some "keep" → take 2 kv.1 = ["tmp"; "dl"] → False)
              (map_to_list Sample.reinstall)) as Hkeys.
    { vm_compute map_to_list.
      repeat (apply List.Forall_cons; [simpl; intros; congruence|]).
      apply List.Forall_nil. }
    rewrite Forall_forall in Hkeys. apply (Hkeys _ Hlook); simpl.
    + by rewrite app_comm_cons, last_snoc.
    + done.
Defined.

(** ** [install] with a bare file name *)

(** Every regular file but [dl] is still one. *)
Definition files_kept_except (dl : path) (s s' : fs) : Prop :=
  ∀ p, p ≠ dl → is_file s p = true → is_file s' p = true.

Global Instance files_kept_except_preorder (dl : path) : PreOrder (files_kept_except dl).
Proof.
  split.
  - by intros s p.
  - intros s1 s2 s3 H12 H23 p Hp Hfile. by apply H23, H12.
Qed.






(** X19: the errors of [install] on path names.  Every error of
    [LinuxHandler.install] is the [RuntimeError] that wraps a cause,
    whatever the path names are.  [MacOSHandler.install] raises that, or the
    error of its [os.makedirs(install_path)] as it is: a [FileNotFoundError]
    when [install_path] is the empty name, and then nothing has been done;
    a [FileExistsError] or [NotADirectoryError] otherwise. *)
Theorem install_errors_on_path_names (cwd : path)
    (download_path install_path : pathname) (s : fs) (e : exn) :
  ((LinuxHandler.install cwd download_path install_path s).1 = Raise e →
   cls e = RuntimeError
   ∧ ∃ cause, msg e = "Failed to install FFmpeg: " +:+ cause)
  ∧ ((MacOSHandler.install cwd download_path install_path s).1 = Raise e →
     (cls e = RuntimeError
      ∧ ∃ cause, msg e = "Failed to install FFmpeg: " +:+ cause)
     ∨ (install_path = Relative []
        ∧ cls e = FileNotFoundError
        ∧ (MacOSHandler.install cwd download_path install_path s).2 = s)
     ∨ (install_path ≠ Relative []
        ∧ os_makedirs (base cwd install_path) s
          = (Raise e, (MacOSHandler.install cwd download_path install_path s).2)
        ∧ (cls e = FileExistsError ∨ cls e = NotADirectoryError))).
Proof.
  split.
  - unfold LinuxHandler.install. rewrite try_except_Exception.
    match goal with |- context [bind ?m ?k s] =>
      destruct (bind m k s) as [[[]|e0] s'] end; [done|]. simpl. intros [= <-].
    split; [done|]. by eexists.
  - unfold MacOSHandler.install.
    destruct (decide (install_path = Relative [])) as [->|Hinst].
    + simpl. intros [= <-]. right. left. done.
    + rewrite (resolve_Some _ _ Hinst).
      destruct (os_makedirs (base cwd install_path) s) as [[[]|e0] s0] eqn:Hmk.
      * rewrite (bind_ok _ _ _ _ _ Hmk), try_except_Exception.
        match goal with |- context [bind ?m ?k s0] =>
          destruct (bind m k s0) as [[[]|e1] s'] end; [done|]. simpl. intros [= <-].
        left. split; [done|]. by eexists.
      * rewrite (bind_raise _ _ _ _ _ Hmk). simpl. intros [= <-].
        right. right. split; [done|]. split; [done|].
        by eapply for_each_mkdir_raises.
Qed.

Lemma install_errors_on_path_names_witness :
  ∃ e, (MacOSHandler.install ["tmp"; "dl"] (Relative ["ffmpeg.archive"]) (Relative [])
          (Sample.disk (ZipArchive Sample.members))).1 = Raise e
       ∧ cls e = FileNotFoundError
       ∧ (MacOSHandler.install ["tmp"; "dl"] (Relative ["ffmpeg.archive"]) (Relative [])
            (Sample.disk (ZipArchive Sample.members))).2
         = Sample.disk (ZipArchive Sample.members).
Proof.
  exists (Exn FileNotFoundError "mkdir"). split; [done|].
  destruct (install_errors_on_path_names ["tmp"; "dl"] (Relative ["ffmpeg.archive"])
              (Relative []) (Sample.disk (ZipArchive Sample.members))
              (Exn FileNotFoundError "mkdir")) as [_ Hmacos].
  destruct (Hmacos eq_refl) as [[Hcls _]|[(_ & Hcls & Hstate)|(Hne & _)]]; done.
Defined.
